(** * rdgproto: wire codec, payload registry and streaming engine

    A shallow embedding of the Go package [rdgproto]
    (message.go, serialize.go and the type declarations next to them)
    together with the properties of its wire format.

    Conventions of the embedding:
    - a Go [byte], [uint32], [uint64] or [int] is a [Z]; every conversion
      that truncates in Go is written out ([byte_of], [u32], [u64]);
    - a [[]byte] is a [list Z] whose elements are bytes;
    - a function returning [(T, error)] returns [result T]; a run-time
      panic (division by zero, slice out of range, failed type assertion,
      [make] with a capacity out of range) is the third outcome [Panic];
    - a [bytes.Buffer] is the list of bytes written so far, a
      [bytes.Reader] the list of bytes not yet read;
    - Go maps are stdpp [gmap]s. *)

From Stdlib Require Import ZArith List Lia Bool FinFun.
From stdpp Require Import base option gmap.
Import ListNotations.
Local Open Scope Z_scope.

(** ** Errors and outcomes *)

Inductive error : Type :=
  | ErrInvalidMessage
  | ErrPayloadTooLarge
  | ErrSignatureRequired
  | ErrInvalidSignature
  | ErrStreamInterrupted
  | ErrStreamMismatch
  | ErrInvalidPayloadType
  | ErrUnknownMessageType
  | ErrBufferTooSmall
  | ErrInvalidStringLen
  | ErrInvalidBytesLen
  | ErrVarintOverflow
  | EOF                      (* io.EOF *)
  | ErrUnexpectedEOF         (* io.ErrUnexpectedEOF *)
  | ErrForeign (code : Z).   (* any other error value made by user code *)

Inductive result (A : Type) : Type :=
  | Ok (a : A)
  | Err (e : error)
  | Panic.
Arguments Ok {A} a.
Arguments Err {A} e.
Arguments Panic {A}.

Definition bind {A B : Type} (c : result A) (k : A -> result B) : result B :=
  match c with
  | Ok a => k a
  | Err e => Err e
  | Panic => Panic
  end.

Notation "'let*' x ':=' c 'in' k" := (bind c (fun x => k))
  (at level 10, x pattern, c at level 200, k at level 200).

Definition bytes : Type := list Z.

Definition len {A : Type} (l : list A) : Z := Z.of_nat (length l).

(** ** Machine integers *)

Definition byte_of (v : Z) : Z := v mod 256.
Definition u32 (v : Z) : Z := v mod 2 ^ 32.
Definition u64 (v : Z) : Z := v mod 2 ^ 64.
(** Go's [int] on a 64-bit platform, two's complement. *)
Definition int_of (v : Z) : Z := (v + 2 ^ 63) mod 2 ^ 64 - 2 ^ 63.

Definition is_u32 (v : Z) : Prop := 0 <= v < 2 ^ 32.
Definition is_u64 (v : Z) : Prop := 0 <= v < 2 ^ 64.

(** ** Constants (types file and message.go) *)

Definition MessageTypeStreamStart : Z := 250.
Definition MessageTypeStreamChunk : Z := 251.
Definition MessageTypeStreamEnd : Z := 252.

Definition IsReservedType (messageType : Z) : bool := messageType >=? 250.

Definition MessageTypeSize : Z := 1.
Definition MessageIDSize : Z := 4.
Definition PayloadLengthSize : Z := 4.
Definition HeaderSize : Z := MessageTypeSize + MessageIDSize + PayloadLengthSize.
Definition SignatureLengthSize : Z := 4.

Definition StreamingThreshold : Z := 1024 * 1024.
Definition DefaultChunkSize : Z := 64 * 1024.

Definition MaxPayloadSize : Z := 100 * 1024 * 1024.

(** The largest capacity the runtime accepts for a byte slice on the
    64-bit platforms this model is about ([int] is 64 bits wide, heap
    addresses 48): [make([]byte, 0, n)] panics ([makeslice: cap out of
    range]) exactly when [n] exceeds it.  Running out of memory below
    this capacity is a failure of the environment, like a failing
    transport, and is not modelled. *)
Definition maxAlloc : Z := 2 ^ 48.

(** ** Readers: [bytes.Reader], [io.ReadFull], [encoding/binary] *)

Definition reader : Type := bytes.

Definition ReadByte (r : reader) : result (Z * reader) :=
  match r with
  | [] => Err EOF
  | b :: r' => Ok (b, r')
  end.

(** [io.ReadFull(r, buf)] with [len(buf) = n]: nothing is read when
    [n = 0]; [io.EOF] when no byte is left, [io.ErrUnexpectedEOF] when
    some but fewer than [n] are. *)
Definition ReadFull (r : reader) (n : Z) : result (bytes * reader) :=
  if n <=? 0 then Ok ([], r)
  else if len r =? 0 then Err EOF
  else if len r <? n then Err ErrUnexpectedEOF
  else Ok (firstn (Z.to_nat n) r, skipn (Z.to_nat n) r).

(** [binary.BigEndian.PutUint32] and [binary.BigEndian.Uint32]. *)
Definition PutUint32 (v : Z) : bytes :=
  [byte_of (Z.shiftr v 24); byte_of (Z.shiftr v 16);
   byte_of (Z.shiftr v 8); byte_of v].

Definition Uint32 (b : bytes) : Z :=
  match b with
  | [b0; b1; b2; b3] =>
      Z.lor (Z.lor (Z.lor (Z.shiftl b0 24) (Z.shiftl b1 16)) (Z.shiftl b2 8)) b3
  | _ => 0
  end.

(** [binary.Write(buf, binary.BigEndian, v)] for a [uint32] [v]. *)
Definition binary_Write_u32 (buf : bytes) (v : Z) : bytes := buf ++ PutUint32 v.

(** [binary.Read(r, binary.BigEndian, &v)] for a [uint32] [v]. *)
Definition binary_Read_u32 (r : reader) : result (Z * reader) :=
  let* (b, r') := ReadFull r 4 in
  Ok (Uint32 b, r').

(** ** Primitive codec (serialize.go) *)

(** [WriteVarint]: the loop [for v >= 0x80 { ...; v >>= 7 }] runs at most
    nine times on a [uint64]; [fuel] counts the iterations still allowed
    and [WriteVarint_fuel_irrelevant] shows that nine is never exceeded. *)
Fixpoint WriteVarint_loop (fuel : nat) (buf : bytes) (v : Z) : bytes :=
  match fuel with
  | O => buf ++ [byte_of v]
  | S k =>
      if v >=? 128
      then WriteVarint_loop k (buf ++ [Z.lor (byte_of v) 128]) (Z.shiftr v 7)
      else buf ++ [byte_of v]
  end.

Definition WriteVarint (buf : bytes) (v : Z) : bytes := WriteVarint_loop 9 buf v.

(** [ReadVarint]: both branches of the source (the [io.ByteReader] fast
    path and the [io.ReadFull] fallback) run this loop. *)
Fixpoint ReadVarint_loop (r : reader) (res shift : Z) : result (Z * reader) :=
  match r with
  | [] => Err EOF
  | b :: r' =>
      if shift >=? 64 then Err ErrVarintOverflow
      else
        let res' := Z.lor res (u64 (Z.shiftl (Z.land b 127) shift)) in
        if Z.land b 128 =? 0 then Ok (res', r')
        else ReadVarint_loop r' res' (shift + 7)
  end.

Definition ReadVarint (r : reader) : result (Z * reader) := ReadVarint_loop r 0 0.

(** A byte with the continuation bit set. *)
Definition continues (b : Z) : Prop := Z.land b 128 <> 0.

Definition WriteBytes (buf : bytes) (b : bytes) : bytes :=
  WriteVarint buf (len b) ++ b.

Definition ReadBytes (r : reader) : result (bytes * reader) :=
  let* (n, r1) := ReadVarint r in
  if n >? 2 ^ 30 then Err ErrInvalidBytesLen
  else ReadFull r1 n.

Definition WriteUint32 (buf : bytes) (v : Z) : bytes := WriteVarint buf v.

Definition ReadUint32 (r : reader) : result (Z * reader) :=
  let* (v, r1) := ReadVarint r in
  if v >? 4294967295 then Err ErrVarintOverflow
  else Ok (u32 v, r1).

Definition WriteUint64 (buf : bytes) (v : Z) : bytes := WriteVarint buf v.

Definition ReadUint64 (r : reader) : result (Z * reader) := ReadVarint r.

Definition WriteUint32Fixed (buf : bytes) (v : Z) : bytes := binary_Write_u32 buf v.

Definition ReadUint32Fixed (r : reader) : result (Z * reader) := binary_Read_u32 r.

(** ** Stream control payloads (types file, serialize.go) *)

Record StreamHeader : Type := mkStreamHeader {
  OriginalType : Z;   (* byte *)
  TotalSize : Z;      (* uint64 *)
  TotalChunks : Z     (* uint32 *)
}.

Record StreamChunk : Type := mkStreamChunk {
  ChunkIndex : Z;     (* uint32 *)
  Data : bytes
}.

Definition StreamHeader_Marshal (p : StreamHeader) : result bytes :=
  let buf := [] in
  let buf := buf ++ [OriginalType p] in
  let buf := WriteUint64 buf (TotalSize p) in
  let buf := WriteUint32 buf (TotalChunks p) in
  Ok buf.

Definition StreamHeader_Unmarshal (data : bytes) : result StreamHeader :=
  let r := data in
  let* (originalType, r) := ReadByte r in
  let* (totalSize, r) := ReadUint64 r in
  let* (totalChunks, r) := ReadUint32 r in
  Ok (mkStreamHeader originalType totalSize totalChunks).

Definition StreamChunk_Marshal (p : StreamChunk) : result bytes :=
  let buf := [] in
  let buf := WriteUint32 buf (ChunkIndex p) in
  let buf := WriteBytes buf (Data p) in
  Ok buf.

Definition StreamChunk_Unmarshal (data : bytes) : result StreamChunk :=
  let r := data in
  let* (chunkIndex, r) := ReadUint32 r in
  let* (d, r) := ReadBytes r in
  Ok (mkStreamChunk chunkIndex d).

(** ** Capabilities consumed from collaborators *)

(** [PayloadMarshaler]: [Marshal u] is [None] when the dynamic type of
    the value has no [Marshal] method. *)
Class PayloadMarshaler (U : Type) : Type :=
  Marshal : U -> option (result bytes).

Record Signer : Type := mkSigner { Sign : bytes -> result bytes }.

Record Verifier : Type := mkVerifier { Verify : bytes -> bytes -> result unit }.

Record StreamConfig : Type := mkStreamConfig {
  Threshold : Z;
  ChunkSize : Z;
  Enabled : bool
}.

Definition DefaultStreamConfig : StreamConfig :=
  mkStreamConfig StreamingThreshold DefaultChunkSize true.

Record Message : Type := mkMessage {
  MsgType : Z;        (* field Type *)
  ID : Z;
  Payload : bytes;
  Signature : bytes
}.

Section Rdgproto.

Context {U : Type} `{PayloadMarshaler U}.

(** A value of type [interface{}] handed to or returned by the codec. *)
Inductive payload : Type :=
  | PNil
  | PBytes (b : bytes)
  | PStreamHeader (h : StreamHeader)
  | PStreamChunk (c : StreamChunk)
  | PUser (u : U).

(** A [PayloadFactory] value: [nil], or a function whose fresh
    [PayloadUnmarshaler] is then filled by [Unmarshal(data)]. *)
Inductive PayloadFactory : Type :=
  | FactoryNil
  | Factory (unmarshal : bytes -> result payload).

Record PayloadRegistry : Type := mkPayloadRegistry {
  handlers : gmap Z PayloadFactory
}.

Record MessageOptions : Type := mkMessageOptions {
  opt_Signer : option Signer;
  opt_Verifier : option Verifier;
  opt_Registry : option PayloadRegistry;
  opt_StreamConfig : option StreamConfig;
  StrictMode : bool
}.

Definition StrictMessageOptions : option MessageOptions :=
  Some (mkMessageOptions None None None None true).

(** *** Payload registry *)

Definition StreamHeader_factory : bytes -> result payload :=
  fun data => let* h := StreamHeader_Unmarshal data in Ok (PStreamHeader h).

Definition StreamChunk_factory : bytes -> result payload :=
  fun data => let* c := StreamChunk_Unmarshal data in Ok (PStreamChunk c).

Definition registerStreamingTypes (r : PayloadRegistry) : PayloadRegistry :=
  let r := mkPayloadRegistry
             (<[MessageTypeStreamStart := Factory StreamHeader_factory]> (handlers r)) in
  mkPayloadRegistry
    (<[MessageTypeStreamChunk := Factory StreamChunk_factory]> (handlers r)).

Definition NewPayloadRegistry : PayloadRegistry :=
  registerStreamingTypes (mkPayloadRegistry ∅).

Definition Register (r : PayloadRegistry) (messageType : Z) (factory : PayloadFactory)
  : PayloadRegistry :=
  if IsReservedType messageType then r
  else mkPayloadRegistry (<[messageType := factory]> (handlers r)).

Definition Unregister (r : PayloadRegistry) (messageType : Z) : PayloadRegistry :=
  if IsReservedType messageType then r
  else mkPayloadRegistry (delete messageType (handlers r)).

Definition Get (r : PayloadRegistry) (messageType : Z) : PayloadFactory :=
  match handlers r !! messageType with
  | Some f => f
  | None => FactoryNil
  end.

Definition Has (r : PayloadRegistry) (messageType : Z) : bool :=
  match handlers r !! messageType with
  | Some _ => true
  | None => false
  end.

(** The process-wide registry behind the default entry points. *)
Variable globalRegistry : PayloadRegistry.

(** *** Payload (de)serialization (serialize.go) *)

Definition MarshalPayload (p : payload) : result bytes :=
  match p with
  | PNil => Ok []
  | PBytes b => Ok b
  | PStreamHeader h => StreamHeader_Marshal h
  | PStreamChunk c => StreamChunk_Marshal c
  | PUser u =>
      match Marshal u with
      | Some r => r
      | None => Err ErrInvalidPayloadType
      end
  end.

Definition UnmarshalPayloadWithRegistryStrict
    (messageType : Z) (data : bytes) (registry : PayloadRegistry) (strict : bool)
  : result payload :=
  match Get registry messageType with
  | Factory unmarshal => let* p := unmarshal data in Ok p
  | FactoryNil =>
      if strict then Err ErrUnknownMessageType
      else Ok (PBytes data)
  end.

Definition UnmarshalPayloadWithRegistry
    (messageType : Z) (data : bytes) (registry : PayloadRegistry) : result payload :=
  UnmarshalPayloadWithRegistryStrict messageType data registry false.

Definition UnmarshalPayloadStrict (messageType : Z) (data : bytes) (strict : bool)
  : result payload :=
  match Get globalRegistry messageType with
  | Factory unmarshal => let* p := unmarshal data in Ok p
  | FactoryNil =>
      if strict then Err ErrUnknownMessageType
      else Ok (PBytes data)
  end.

Definition UnmarshalPayload (messageType : Z) (data : bytes) : result payload :=
  UnmarshalPayloadStrict messageType data false.

(** *** Message codec (message.go) *)

(** The slice expression [b[lo:hi]]; [None] is the run-time panic. *)
Definition sub (b : bytes) (lo hi : Z) : bytes :=
  firstn (Z.to_nat (hi - lo)) (skipn (Z.to_nat lo) b).

Definition slice (b : bytes) (lo hi : Z) : option bytes :=
  if (0 <=? lo) && (lo <=? hi) && (hi <=? len b)
  then Some (sub b lo hi)
  else None.

Definition signer_of (opts : option MessageOptions) : option Signer :=
  match opts with Some o => opt_Signer o | None => None end.

Definition verifier_of (opts : option MessageOptions) : option Verifier :=
  match opts with Some o => opt_Verifier o | None => None end.

Definition registry_of (opts : option MessageOptions) : option PayloadRegistry :=
  match opts with Some o => opt_Registry o | None => None end.

Definition strict_of (opts : option MessageOptions) : bool :=
  match opts with Some o => StrictMode o | None => false end.

Definition MarshalMessage
    (messageType messageID : Z) (p : payload) (opts : option MessageOptions)
  : result bytes :=
  let* payloadBytes := MarshalPayload p in
  if len payloadBytes >? MaxPayloadSize then Err ErrPayloadTooLarge
  else
    let buf := [] in
    let buf := buf ++ [messageType] in
    let buf := binary_Write_u32 buf messageID in
    let buf := binary_Write_u32 buf (u32 (len payloadBytes)) in
    let buf := buf ++ payloadBytes in
    match signer_of opts with
    | Some signer =>
        let messageData := buf in
        let* signature := Sign signer messageData in
        let buf := binary_Write_u32 buf (u32 (len signature)) in
        Ok (buf ++ signature)
    | None => Ok (binary_Write_u32 buf 0)
    end.

(** The signature check of [UnmarshalMessage] (the block guarded by
    [opts != nil && opts.Verifier != nil]). *)
Definition checkSignature
    (data : bytes) (opts : option MessageOptions) (payloadLen sigLen : Z)
    (signature : bytes) : result unit :=
  match verifier_of opts with
  | Some verifier =>
      if sigLen =? 0 then Err ErrSignatureRequired
      else
        let messageDataLen := HeaderSize + payloadLen in
        match slice data 0 messageDataLen with
        | None => Panic
        | Some messageData =>
            match Verify verifier messageData signature with
            | Ok _ => Ok tt
            | Err _ => Err ErrInvalidSignature
            | Panic => Panic
            end
        end
  | None => Ok tt
  end.

(** The last step of [UnmarshalMessage]: decoding the payload with the
    registry of the options, or the global one, respecting strict mode. *)
Definition decodePayload (opts : option MessageOptions) (messageType : Z) (data : bytes)
  : result payload :=
  let strictMode := strict_of opts in
  match registry_of opts with
  | Some registry =>
      UnmarshalPayloadWithRegistryStrict messageType data registry strictMode
  | None => UnmarshalPayloadStrict messageType data strictMode
  end.

(** [UnmarshalMessage] returns the triple [(msg, payloadObj, err)]; here
    the first component is [msg] ([None] for [nil]) and the second holds
    [payloadObj] or [err]. *)
Definition UnmarshalMessage (data : bytes) (opts : option MessageOptions)
  : option Message * result payload :=
  let parsed : result Message :=
    if len data <? HeaderSize + SignatureLengthSize then Err ErrInvalidMessage
    else
      let r := data in
      let* (messageType, r) := ReadByte r in
      let* (messageID, r) := binary_Read_u32 r in
      let* (payloadLen, r) := binary_Read_u32 r in
      if payloadLen >? MaxPayloadSize then Err ErrPayloadTooLarge
      else
        let* (payloadBytes, r) := ReadFull r payloadLen in
        let* (sigLen, r) := binary_Read_u32 r in
        let* (signature, r) :=
          (if sigLen >? 0 then ReadFull r sigLen else Ok ([], r)) in
        let* _ := checkSignature data opts payloadLen sigLen signature in
        Ok (mkMessage messageType messageID payloadBytes signature) in
  match parsed with
  | Ok msg => (Some msg, decodePayload opts (MsgType msg) (Payload msg))
  | Err e => (None, Err e)
  | Panic => (None, Panic)
  end.

Definition Unmarshal (data : bytes) := UnmarshalMessage data None.

Definition UnmarshalStrict (data : bytes) := UnmarshalMessage data StrictMessageOptions.

Definition MarshalWithID (messageType messageID : Z) (p : payload) : result bytes :=
  MarshalMessage messageType messageID p None.

(** *** Protocol engine (message.go) *)

(** The transport is an in-memory duplex pipe: [Write] appends to
    [outbound] and never fails, [Read] takes from [inbound] and reports
    the end of the stream as [ReadFull] does. *)
Record Connection : Type := mkConnection {
  inbound : bytes;
  outbound : bytes
}.

Record streamAssembler : Type := mkStreamAssembler {
  header : StreamHeader;
  chunks : gmap Z bytes;
  received : Z
}.

Record Protocol : Type := mkProtocol {
  conn : Connection;
  opts : option MessageOptions;
  nextID : Z;
  streamConfig : StreamConfig;
  activeStreams : gmap Z streamAssembler
}.

Definition NewProtocol (c : Connection) (o : option MessageOptions) : Protocol :=
  let streamCfg :=
    match o with
    | Some o' =>
        match opt_StreamConfig o' with
        | Some cfg => cfg
        | None => DefaultStreamConfig
        end
    | None => DefaultStreamConfig
    end in
  mkProtocol c o 1 streamCfg ∅.

Definition conn_Write (b : bytes) (p : Protocol) : Protocol :=
  mkProtocol (mkConnection (inbound (conn p)) (outbound (conn p) ++ b))
             (opts p) (nextID p) (streamConfig p) (activeStreams p).

Definition set_inbound (r : bytes) (p : Protocol) : Protocol :=
  mkProtocol (mkConnection r (outbound (conn p)))
             (opts p) (nextID p) (streamConfig p) (activeStreams p).

Definition set_activeStreams (m : gmap Z streamAssembler) (p : Protocol) : Protocol :=
  mkProtocol (conn p) (opts p) (nextID p) (streamConfig p) m.

Definition NextMessageID (p : Protocol) : Z * Protocol :=
  let id := nextID p in
  (id, mkProtocol (conn p) (opts p) (u32 (nextID p + 1)) (streamConfig p) (activeStreams p)).

Definition sendDirect (messageType messageID : Z) (pl : payload) (p : Protocol)
  : result unit * Protocol :=
  match MarshalMessage messageType messageID pl (opts p) with
  | Ok data =>
      let lenBuf := PutUint32 (u32 (len data)) in
      (Ok tt, conn_Write data (conn_Write lenBuf p))
  | Err e => (Err e, p)
  | Panic => (Panic, p)
  end.

(** The chunk loop of [sendStreamed], from index [i], with [n] iterations left. *)
Fixpoint sendChunks (n : nat) (i : Z) (chunkSize messageID : Z) (payloadBytes : bytes)
    (p : Protocol) : result unit * Protocol :=
  match n with
  | O => (Ok tt, p)
  | S k =>
      let start := int_of (i * chunkSize) in
      let end0 := int_of (start + chunkSize) in
      let end_ := if end0 >? len payloadBytes then len payloadBytes else end0 in
      match slice payloadBytes start end_ with
      | None => (Panic, p)
      | Some d =>
          let chunk := mkStreamChunk i d in
          match sendDirect MessageTypeStreamChunk messageID (PStreamChunk chunk) p with
          | (Ok _, p') => sendChunks k (u32 (i + 1)) chunkSize messageID payloadBytes p'
          | (Err e, p') => (Err e, p')
          | (Panic, p') => (Panic, p')
          end
      end
  end.

Definition sendStreamed (messageType messageID : Z) (payloadBytes : bytes) (p : Protocol)
  : result unit * Protocol :=
  let chunkSize := ChunkSize (streamConfig p) in
  let totalSize := u64 (len payloadBytes) in
  if chunkSize =? 0 then (Panic, p)
  else
    let totalChunks := u32 (Z.quot (int_of (len payloadBytes + chunkSize - 1)) chunkSize) in
    let hdr := mkStreamHeader messageType totalSize totalChunks in
    match sendDirect MessageTypeStreamStart messageID (PStreamHeader hdr) p with
    | (Ok _, p1) =>
        match sendChunks (Z.to_nat totalChunks) 0 chunkSize messageID payloadBytes p1 with
        | (Ok _, p2) => sendDirect MessageTypeStreamEnd messageID (PBytes []) p2
        | (Err e, p2) => (Err e, p2)
        | (Panic, p2) => (Panic, p2)
        end
    | (Err e, p1) => (Err e, p1)
    | (Panic, p1) => (Panic, p1)
    end.

Definition SendMessage (messageType messageID : Z) (pl : payload) (p : Protocol)
  : result unit * Protocol :=
  match MarshalPayload pl with
  | Ok payloadBytes =>
      if Enabled (streamConfig p) && (len payloadBytes >=? Threshold (streamConfig p))
      then sendStreamed messageType messageID payloadBytes p
      else sendDirect messageType messageID pl p
  | Err e => (Err e, p)
  | Panic => (Panic, p)
  end.

Definition Send (messageType : Z) (pl : payload) (p : Protocol)
  : Z * result unit * Protocol :=
  let '(id, p1) := NextMessageID p in
  let '(r, p2) := SendMessage messageType id pl p1 in
  (id, r, p2).

(** *** Stream reassembly *)

Definition startStream (msgID : Z) (hdr : StreamHeader) (p : Protocol) : Protocol :=
  set_activeStreams (<[msgID := mkStreamAssembler hdr ∅ 0]> (activeStreams p)) p.

Fixpoint assembleStream_loop (n : nat) (i : Z) (cs : gmap Z bytes) (res : bytes) : bytes :=
  match n with
  | O => res
  | S k =>
      let c := match cs !! i with Some d => d | None => [] end in
      assembleStream_loop k (i + 1) cs (res ++ c)
  end.

(** [assembleStream] first allocates
    [make([]byte, 0, assembler.header.TotalSize)], with the [uint64]
    the START frame announced: the call panics when that capacity is
    out of range. *)
Definition assembleStream (assembler : streamAssembler) : result bytes :=
  if TotalSize (header assembler) >? maxAlloc then Panic
  else
    Ok (assembleStream_loop (Z.to_nat (TotalChunks (header assembler))) 0
          (chunks assembler) []).

(** [addChunk] returns [(complete, assembledPayload)], or panics in
    [assembleStream]; the chunk is stored and counted by then. *)
Definition addChunk (msgID : Z) (chunk : StreamChunk) (p : Protocol)
  : result (bool * bytes) * Protocol :=
  match activeStreams p !! msgID with
  | None => (Ok (false, []), p)
  | Some assembler =>
      let assembler' :=
        mkStreamAssembler (header assembler)
          (<[ChunkIndex chunk := Data chunk]> (chunks assembler))
          (u32 (received assembler + 1)) in
      let p' := set_activeStreams (<[msgID := assembler']> (activeStreams p)) p in
      if received assembler' =? TotalChunks (header assembler')
      then (let* assembled := assembleStream assembler' in Ok (true, assembled), p')
      else (Ok (false, []), p')
  end.

Definition receiveRaw (p : Protocol) : option Message * result payload * Protocol :=
  match ReadFull (inbound (conn p)) 4 with
  | Ok (lenBuf, r1) =>
      let msgLen := Uint32 lenBuf in
      if msgLen >? MaxPayloadSize + HeaderSize + SignatureLengthSize + 1024
      then (None, Err ErrPayloadTooLarge, set_inbound r1 p)
      else
        match ReadFull r1 msgLen with
        | Ok (data, r2) => (UnmarshalMessage data (opts p), set_inbound r2 p)
        | Err e => (None, Err e, set_inbound [] p)
        | Panic => (None, Panic, p)
        end
  | Err e => (None, Err e, set_inbound [] p)
  | Panic => (None, Panic, p)
  end.

(** The message handed back when a stream completes. *)
Definition deliver (originalType msgID : Z) (assembledPayload : bytes) (p : Protocol)
  : result (Message * payload) * Protocol :=
  match UnmarshalPayload originalType assembledPayload with
  | Ok payloadObj => (Ok (mkMessage originalType msgID assembledPayload [], payloadObj), p)
  | Err e => (Err e, p)
  | Panic => (Panic, p)
  end.

(** The [for] loop of [ReceiveMessage]; every turn consumes a length
    prefix of four bytes or returns, so [fuel] above the number of
    pending bytes is never used up ([ReceiveMessage_loop_fuel]). *)
Fixpoint ReceiveMessage_loop (fuel : nat) (p : Protocol)
  : result (Message * payload) * Protocol :=
  match fuel with
  | O => (Err EOF, p)
  | S k =>
      match receiveRaw p with
      | (_, Err e, p1) => (Err e, p1)
      | (_, Panic, p1) => (Panic, p1)
      | (None, Ok _, p1) => (Panic, p1)
      | (Some msg, Ok pl, p1) =>
          if MsgType msg =? MessageTypeStreamStart then
            match pl with
            | PStreamHeader hdr => ReceiveMessage_loop k (startStream (ID msg) hdr p1)
            | _ => (Panic, p1)
            end
          else if MsgType msg =? MessageTypeStreamChunk then
            match pl with
            | PStreamChunk chunk =>
                match addChunk (ID msg) chunk p1 with
                | (Ok (complete, assembledPayload), p2) =>
                    if complete then
                      match activeStreams p2 !! ID msg with
                      | Some assembler =>
                          let originalType := OriginalType (header assembler) in
                          deliver originalType (ID msg) assembledPayload
                            (set_activeStreams (delete (ID msg) (activeStreams p2)) p2)
                      | None => (Panic, p2)
                      end
                    else ReceiveMessage_loop k p2
                | (Err e, p2) => (Err e, p2)
                | (Panic, p2) => (Panic, p2)
                end
            | _ => (Panic, p1)
            end
          else if MsgType msg =? MessageTypeStreamEnd then
            match activeStreams p1 !! ID msg with
            | Some assembler =>
                if received assembler =? TotalChunks (header assembler) then
                  let originalType := OriginalType (header assembler) in
                  match assembleStream assembler with
                  | Ok assembledPayload =>
                      deliver originalType (ID msg) assembledPayload
                        (set_activeStreams (delete (ID msg) (activeStreams p1)) p1)
                  | Err e => (Err e, p1)
                  | Panic => (Panic, p1)
                  end
                else ReceiveMessage_loop k p1
            | None => ReceiveMessage_loop k p1
            end
          else (Ok (msg, pl), p1)
      end
  end.

Definition ReceiveMessage (p : Protocol) : result (Message * payload) * Protocol :=
  ReceiveMessage_loop (S (length (inbound (conn p)))) p.

(** The receiver state after a run of CHUNK events for one stream id,
    as the CHUNK case of [ReceiveMessage] threads it while [addChunk]
    answers [false]. *)
Definition addChunks (msgID : Z) (cs : list StreamChunk) (p : Protocol) : Protocol :=
  fold_left (fun q c => snd (addChunk msgID c q)) cs p.

End Rdgproto.

Arguments payload : clear implicits.
Arguments PayloadFactory : clear implicits.
Arguments PayloadRegistry : clear implicits.
Arguments MessageOptions : clear implicits.
Arguments Protocol : clear implicits.

(** ** Wire layouts *)

(** The frame as the doc comment of [MarshalMessage] gives it:
    [Type(1)][ID(4)][PayloadLen(4)][Payload(N)][SignatureLen(4)][Signature(N)]. *)
Definition fixed_frame (messageType messageID : Z) (payloadBytes signature : bytes) : bytes :=
  [messageType] ++ PutUint32 messageID ++ PutUint32 (u32 (len payloadBytes))
  ++ payloadBytes ++ PutUint32 (u32 (len signature)) ++ signature.

(** The frame as the specification words it:
    [type u8] [id varint] [payload_len varint] [payload] [sig_len varint] [signature]. *)
Definition varint_frame (messageType messageID : Z) (payloadBytes signature : bytes) : bytes :=
  [messageType] ++ WriteVarint [] messageID ++ WriteVarint [] (len payloadBytes)
  ++ payloadBytes ++ WriteVarint [] (len signature) ++ signature.

(** A frame on the transport: the four-byte length prefix of [sendDirect]
    followed by the marshalled message. *)
Definition framed (data : bytes) : bytes := PutUint32 (u32 (len data)) ++ data.

(** ** The streamed send sequence in the specification's words *)

(** [total_chunks = ceil(L / chunk_size)]. *)
Definition total_chunks (L chunkSize : Z) : Z := (L + chunkSize - 1) / chunkSize.

(** [payload[i*chunk .. min((i+1)*chunk, L)]]. *)
Definition chunk_of (chunkSize : Z) (payloadBytes : bytes) (i : Z) : bytes :=
  sub payloadBytes (i * chunkSize) (Z.min ((i + 1) * chunkSize) (len payloadBytes)).

(** The type-251 message for chunk [i], as (type, id, payload). *)
Definition chunk_message {U : Type} (messageID chunkSize : Z) (payloadBytes : bytes) (i : Z)
  : Z * Z * payload U :=
  (251, messageID, PStreamChunk (mkStreamChunk i (chunk_of chunkSize payloadBytes i))).

(** One START message, one CHUNK message per index in
    [[0, total_chunks)], one END message, all with the same id. *)
Definition stream_messages {U : Type} (originalType messageID chunkSize : Z)
    (payloadBytes : bytes) : list (Z * Z * payload U) :=
  let L := len payloadBytes in
  let N := total_chunks L chunkSize in
  [(250, messageID, PStreamHeader (mkStreamHeader originalType L N))]
  ++ map (chunk_message messageID chunkSize payloadBytes) (seqZ 0 N)
  ++ [(252, messageID, PBytes [])].

(** The bytes of a message on the wire under given options. *)
Definition marshals_to {U : Type} `{PayloadMarshaler U} (o : option (MessageOptions U))
    (m : Z * Z * payload U) (data : bytes) : Prop :=
  let '(t, id, pl) := m in MarshalMessage t id pl o = Ok data.

(** Every CHUNK message has a serialized payload within the 100 MiB bound. *)
Definition chunks_fit (chunkSize : Z) (payloadBytes : bytes) : Prop :=
  forall i bs,
    0 <= i < total_chunks (len payloadBytes) chunkSize ->
    StreamChunk_Marshal (mkStreamChunk i (chunk_of chunkSize payloadBytes i)) = Ok bs ->
    len bs <= MaxPayloadSize.

(** The signer of the options, if any, signs whatever it is given. *)
Definition signer_succeeds {U : Type} (o : option (MessageOptions U)) : Prop :=
  forall signer d, signer_of o = Some signer -> exists sig, Sign signer d = Ok sig.

(** ** Signed traffic *)

(** The receiver's verifier, if it has one, accepts what the sender's
    signer produces: the sender signs, its signatures are not empty and
    the verifier accepts them over the bytes they were made for (a
    signer and a verifier built from the same secret or key pair). *)
Definition signatures_accepted {U : Type} (so ro : option (MessageOptions U)) : Prop :=
  forall verifier,
    verifier_of ro = Some verifier ->
    exists signer,
      signer_of so = Some signer /\
      forall messageData signature,
        Sign signer messageData = Ok signature ->
        signature <> [] /\ Verify verifier messageData signature = Ok tt.

(** The frame passes the length check of [receiveRaw]. *)
Definition within_frame_bound (data : bytes) : Prop :=
  len data <= MaxPayloadSize + HeaderSize + SignatureLengthSize + 1024.

(** ** Registries built through the registry interface *)

(** Registries that a program can build: a fresh one, then any sequence
    of [Register] and [Unregister]. *)
Inductive reachable {U : Type} : PayloadRegistry U -> Prop :=
  | reachable_new : reachable NewPayloadRegistry
  | reachable_Register r t f : reachable r -> reachable (Register r t f)
  | reachable_Unregister r t : reachable r -> reachable (Unregister r t).

(** The registries a receiver decodes with: the global one and the one
    of its options, if any. *)
Definition registries_reachable {U : Type} (globalRegistry : PayloadRegistry U)
    (o : option (MessageOptions U)) : Prop :=
  reachable globalRegistry /\ forall r, registry_of o = Some r -> reachable r.

(** ** A program without application payload types *)

#[export] Instance NoUserPayload : PayloadMarshaler Empty_set :=
  fun u => match u with end.

(** A verifier that accepts exactly the signature [[1]]. *)
Definition toyVerifier : Verifier :=
  mkVerifier (fun _ sig => match sig with [1] => Ok tt | _ => Err (ErrForeign 1) end).

Definition verifying : MessageOptions Empty_set :=
  mkMessageOptions None (Some toyVerifier) None None false.

(** A sender configured with 128 MiB chunks, and a payload of that size. *)
Definition bigChunkConfig : StreamConfig := mkStreamConfig 1048576 134217728 true.

Definition bigPayload : bytes := repeat 0 (Z.to_nat 134217728).

Definition bigChunkSender : Protocol Empty_set :=
  mkProtocol (mkConnection [] []) None 1 bigChunkConfig ∅.

(** A receiver in strict mode with the given bytes pending. *)
Definition strictReceiver (pending : bytes) : Protocol Empty_set :=
  mkProtocol (mkConnection pending []) StrictMessageOptions 1 DefaultStreamConfig ∅.

(** A sender with two-byte chunks and a threshold of one byte. *)
Definition smallChunkSender : Protocol Empty_set :=
  mkProtocol (mkConnection [] []) None 1 (mkStreamConfig 1 2 true) ∅.

(** What that sender writes when it streams the payload [[1; 2; 3]]
    under type 7 and id 9. *)
Definition sentStream : result unit * Protocol Empty_set :=
  sendStreamed 7 9 [1; 2; 3] smallChunkSender.

(** The four messages of that stream, marshalled without signer. *)
Definition startFrame : bytes := [250; 0; 0; 0; 9; 0; 0; 0; 3; 7; 3; 2; 0; 0; 0; 0].
Definition chunkFrame0 : bytes := [251; 0; 0; 0; 9; 0; 0; 0; 4; 0; 2; 1; 2; 0; 0; 0; 0].
Definition chunkFrame1 : bytes := [251; 0; 0; 0; 9; 0; 0; 0; 3; 1; 1; 3; 0; 0; 0; 0].
Definition endFrame : bytes := [252; 0; 0; 0; 9; 0; 0; 0; 0; 0; 0; 0; 0].

(** A registry in which the application registered type 1 with a decoder
    of one byte and two varints. *)
Definition registryWithType1 : PayloadRegistry Empty_set :=
  Register NewPayloadRegistry 1 (Factory StreamHeader_factory).

(** A receiver that has seen the START of a two-chunk stream with id 9,
    and the same receiver after a CHUNK with index 0. *)
Definition startedReceiver : Protocol Empty_set :=
  startStream 9 (mkStreamHeader 7 2 2) (NewProtocol (mkConnection [] []) None).

Definition oneChunkReceiver : Protocol Empty_set :=
  addChunks 9 [mkStreamChunk 0 [1]] startedReceiver.

(** ** Further helpers of serialize.go *)

(** A Go [string] is handled as its sequence of bytes: [WriteString]
    converts with [[]byte(s)] and [ReadString] converts back, neither
    looks at the contents. *)
Definition WriteString (buf : bytes) (s : bytes) : bytes :=
  let b := s in
  WriteVarint buf (len b) ++ b.

Definition ReadString (r : reader) : result (bytes * reader) :=
  let* (n, r1) := ReadVarint r in
  if n >? 2 ^ 20 then Err ErrInvalidStringLen
  else if n =? 0 then Ok ([], r1)
  else ReadFull r1 n.

Definition WriteBool (buf : bytes) (v : bool) : bytes :=
  let b := if v then 1 else 0 in
  buf ++ [b].

(** Both branches of [ReadBool] read one byte and compare it with 1. *)
Definition ReadBool (r : reader) : result (bool * reader) :=
  let* (b, r1) := ReadByte r in
  Ok (b =? 1, r1).

(** [binary.BigEndian.PutUint64] and [binary.BigEndian.Uint64]. *)
Definition PutUint64 (v : Z) : bytes :=
  [byte_of (Z.shiftr v 56); byte_of (Z.shiftr v 48); byte_of (Z.shiftr v 40);
   byte_of (Z.shiftr v 32); byte_of (Z.shiftr v 24); byte_of (Z.shiftr v 16);
   byte_of (Z.shiftr v 8); byte_of v].

Definition Uint64 (b : bytes) : Z :=
  match b with
  | [b0; b1; b2; b3; b4; b5; b6; b7] =>
      Z.lor (Z.lor (Z.lor (Z.lor (Z.lor (Z.lor (Z.lor
        (Z.shiftl b0 56) (Z.shiftl b1 48)) (Z.shiftl b2 40)) (Z.shiftl b3 32))
        (Z.shiftl b4 24)) (Z.shiftl b5 16)) (Z.shiftl b6 8)) b7
  | _ => 0
  end.

Definition WriteUint64Fixed (buf : bytes) (v : Z) : bytes := buf ++ PutUint64 v.

Definition ReadUint64Fixed (r : reader) : result (Z * reader) :=
  let* (b, r') := ReadFull r 8 in
  Ok (Uint64 b, r').

(** ** The benchmark payload [Metrics] (benchmark/rdg/metrics.go) *)

Record Metrics : Type := mkMetrics {
  metric_A : Z;
  metric_B : Z;
  metric_C : Z;
  metric_D : Z;
  metric_E : Z
}.

Definition Metrics_Marshal (m : Metrics) : result bytes :=
  let buf := [] in
  let buf := WriteUint64 buf (metric_A m) in
  let buf := WriteUint64 buf (metric_B m) in
  let buf := WriteUint64 buf (metric_C m) in
  let buf := WriteUint64 buf (metric_D m) in
  let buf := WriteUint64 buf (metric_E m) in
  Ok buf.

Definition Metrics_Unmarshal (data : bytes) : result Metrics :=
  let r := data in
  let* (a, r) := ReadUint64 r in
  let* (b, r) := ReadUint64 r in
  let* (c, r) := ReadUint64 r in
  let* (d, r) := ReadUint64 r in
  let* (e, r) := ReadUint64 r in
  Ok (mkMetrics a b c d e).

(** ** Further entry points of message.go *)

Section MoreEntryPoints.

Context {U : Type} `{PayloadMarshaler U}.
Variable globalRegistry : PayloadRegistry U.

(** [UnmarshalInto(data, target)]: [target] stands for
    [target.Unmarshal], which fills the target from the payload bytes or
    fails. *)
Definition UnmarshalInto {T : Type} (data : bytes) (target : bytes -> result T)
  : result (Message * T) :=
  match UnmarshalMessage globalRegistry data None with
  | (_, Err e) => Err e
  | (_, Panic) => Panic
  | (None, Ok _) => Panic
  | (Some msg, Ok _) =>
      match target (Payload msg) with
      | Ok v => Ok (msg, v)
      | Err e => Err e
      | Panic => Panic
      end
  end.

Definition SendRaw (messageType : Z) (data : bytes) (p : Protocol U)
  : Z * result unit * Protocol U :=
  Send messageType (PBytes data) p.

(** [n] successive calls of [NextMessageID]. *)
Fixpoint NextMessageIDs (n : nat) (p : Protocol U) : list Z * Protocol U :=
  match n with
  | O => ([], p)
  | S k =>
      let '(id, p1) := NextMessageID p in
      let '(ids, p2) := NextMessageIDs k p1 in
      (id :: ids, p2)
  end.

End MoreEntryPoints.

(** ** The payload types of the package's tests *)

(** The three example payloads that the test file defines and registers
    under the types 1, 2 and 3.  Strings are byte sequences; the fields
    of the second and third structure are prefixed where their Go names
    ([Message], [ID], [ChunkIndex], [TotalChunks], [Data]) are taken. *)
Definition MsgTypeLogin : Z := 1.
Definition MsgTypeResponse : Z := 2.
Definition MsgTypeData : Z := 3.

Record LoginPayload : Type := mkLoginPayload {
  Username : bytes;
  Password : bytes;
  ClientID : bytes
}.

Definition LoginPayload_Marshal (p : LoginPayload) : result bytes :=
  let buf := [] in
  let buf := WriteString buf (Username p) in
  let buf := WriteString buf (Password p) in
  let buf := WriteString buf (ClientID p) in
  Ok buf.

Definition LoginPayload_Unmarshal (data : bytes) : result LoginPayload :=
  let r := data in
  let* (username, r) := ReadString r in
  let* (password, r) := ReadString r in
  let* (clientID, r) := ReadString r in
  Ok (mkLoginPayload username password clientID).

Record ResponsePayload : Type := mkResponsePayload {
  Success : bool;
  ResponseMessage : bytes
}.

Definition ResponsePayload_Marshal (p : ResponsePayload) : result bytes :=
  let buf := [] in
  let buf := WriteBool buf (Success p) in
  let buf := WriteString buf (ResponseMessage p) in
  Ok buf.

Definition ResponsePayload_Unmarshal (data : bytes) : result ResponsePayload :=
  let r := data in
  let* (success, r) := ReadBool r in
  let* (message, r) := ReadString r in
  Ok (mkResponsePayload success message).

Record DataPayload : Type := mkDataPayload {
  DataID : bytes;
  DataChunkIndex : Z;     (* uint32 *)
  DataTotalChunks : Z;    (* uint32 *)
  DataBytes : bytes
}.

Definition DataPayload_Marshal (p : DataPayload) : result bytes :=
  let buf := [] in
  let buf := WriteString buf (DataID p) in
  let buf := binary_Write_u32 buf (DataChunkIndex p) in
  let buf := binary_Write_u32 buf (DataTotalChunks p) in
  let buf := WriteBytes buf (DataBytes p) in
  Ok buf.

Definition DataPayload_Unmarshal (data : bytes) : result DataPayload :=
  let r := data in
  let* (id, r) := ReadString r in
  let* (chunkIndex, r) := binary_Read_u32 r in
  let* (totalChunks, r) := binary_Read_u32 r in
  let* (d, r) := ReadBytes r in
  Ok (mkDataPayload id chunkIndex totalChunks d).

Inductive TestPayload : Type :=
  | TLogin (p : LoginPayload)
  | TResponse (p : ResponsePayload)
  | TData (p : DataPayload).

#[export] Instance TestPayload_Marshaler : PayloadMarshaler TestPayload :=
  fun u =>
    Some (match u with
          | TLogin p => LoginPayload_Marshal p
          | TResponse p => ResponsePayload_Marshal p
          | TData p => DataPayload_Marshal p
          end).

Definition LoginPayload_factory : bytes -> result (payload TestPayload) :=
  fun data => let* p := LoginPayload_Unmarshal data in Ok (PUser (TLogin p)).

Definition ResponsePayload_factory : bytes -> result (payload TestPayload) :=
  fun data => let* p := ResponsePayload_Unmarshal data in Ok (PUser (TResponse p)).

Definition DataPayload_factory : bytes -> result (payload TestPayload) :=
  fun data => let* p := DataPayload_Unmarshal data in Ok (PUser (TData p)).

(** The global registry after the test file's [init]. *)
Definition testRegistry : PayloadRegistry TestPayload :=
  let r := NewPayloadRegistry in
  let r := Register r MsgTypeLogin (Factory LoginPayload_factory) in
  let r := Register r MsgTypeResponse (Factory ResponsePayload_factory) in
  Register r MsgTypeData (Factory DataPayload_factory).

(** The type a test payload is registered under, and what makes it
    readable again: strings of at most [2^20] bytes, data of at most
    [2^30] bytes, counters that are [uint32]s. *)
Definition test_type (u : TestPayload) : Z :=
  match u with
  | TLogin _ => MsgTypeLogin
  | TResponse _ => MsgTypeResponse
  | TData _ => MsgTypeData
  end.

Definition test_readable (u : TestPayload) : Prop :=
  match u with
  | TLogin p =>
      len (Username p) <= 2 ^ 20 /\ len (Password p) <= 2 ^ 20 /\ len (ClientID p) <= 2 ^ 20
  | TResponse p => len (ResponseMessage p) <= 2 ^ 20
  | TData p =>
      len (DataID p) <= 2 ^ 20 /\ is_u32 (DataChunkIndex p) /\
      is_u32 (DataTotalChunks p) /\ len (DataBytes p) <= 2 ^ 30
  end.

(** ** Further concrete configurations *)

(** A signer that signs everything with [[1]], the signature that
    [toyVerifier] accepts. *)
Definition toySigner : Signer := mkSigner (fun _ => Ok [1]).

Definition signing : MessageOptions Empty_set :=
  mkMessageOptions (Some toySigner) None None None false.

(** A protocol instance with default options, nothing pending, and one
    with the given bytes pending. *)
Definition plainSender : Protocol Empty_set := NewProtocol (mkConnection [] []) None.

Definition plainReceiver (pending : bytes) : Protocol Empty_set :=
  NewProtocol (mkConnection pending []) None.

(** A sender that signs with [toySigner] and streams in two-byte
    chunks, and a strict receiver that verifies with [toyVerifier]. *)
Definition signingSender : Protocol Empty_set :=
  mkProtocol (mkConnection [] []) (Some signing) 1 (mkStreamConfig 1 2 true) ∅.

Definition strictVerifying : MessageOptions Empty_set :=
  mkMessageOptions None (Some toyVerifier) None None true.

Definition strictVerifyingReceiver (pending : bytes) : Protocol Empty_set :=
  mkProtocol (mkConnection pending []) (Some strictVerifying) 1 DefaultStreamConfig ∅.

(** A receiver that verifies with [toyVerifier] and is not strict. *)
Definition verifyingReceiver (pending : bytes) : Protocol Empty_set :=
  mkProtocol (mkConnection pending []) (Some verifying) 1 DefaultStreamConfig ∅.

(** The frames of the three-byte stream with id 9 as [signingSender]
    writes them, each signed with [[1]]. *)
Definition signedStartFrame : bytes :=
  [250; 0; 0; 0; 9; 0; 0; 0; 3; 7; 3; 2; 0; 0; 0; 1; 1].
Definition signedChunkFrame0 : bytes :=
  [251; 0; 0; 0; 9; 0; 0; 0; 4; 0; 2; 1; 2; 0; 0; 0; 1; 1].
Definition signedChunkFrame1 : bytes :=
  [251; 0; 0; 0; 9; 0; 0; 0; 3; 1; 1; 3; 0; 0; 0; 1; 1].
Definition signedEndFrame : bytes := [252; 0; 0; 0; 9; 0; 0; 0; 0; 0; 0; 0; 1; 1].

(** A sender that signs with [toySigner] and has the default stream
    configuration. *)
Definition signingDirectSender : Protocol Empty_set :=
  NewProtocol (mkConnection [] []) (Some signing).

(** The START frame of an empty stream with id 9, signed with [[1]]. *)
Definition signedEmptyStartFrame : bytes :=
  [250; 0; 0; 0; 9; 0; 0; 0; 3; 7; 0; 0; 0; 0; 0; 1; 1].

(** A sender with streaming switched off. *)
Definition noStreamSender : Protocol Empty_set :=
  mkProtocol (mkConnection [] []) None 1 (mkStreamConfig 1048576 65536 false) ∅.

(** * Properties *)

(** ** Bit-level facts about bytes and shifts *)

Lemma byte_of_land v : byte_of v = Z.land v (Z.ones 8).
Proof. unfold byte_of. change 256 with (2 ^ 8). rewrite Z.land_ones by lia. reflexivity. Qed.

Lemma testbit_128 i : Z.testbit 128 i = (7 =? i).
Proof. change 128 with (2 ^ 7). apply Z.pow2_bits_eqb. lia. Qed.

Ltac bits :=
  apply Z.bits_inj'; intros ?i ?Hi;
  repeat first
    [ rewrite Z.lor_spec | rewrite Z.land_spec | rewrite testbit_128
    | rewrite Z.testbit_ones_nonneg by lia
    | rewrite Z.shiftl_spec by lia | rewrite Z.shiftr_spec by lia
    | rewrite Z.bits_0 ].

Lemma cont_byte_low v : Z.land (Z.lor (byte_of v) 128) 127 = Z.land v 127.
Proof.
  rewrite byte_of_land. change 127 with (Z.ones 7). bits.
  destruct (Z.ltb_spec i 7), (Z.ltb_spec i 8), (Z.eqb_spec 7 i);
    try lia; rewrite ?andb_true_r, ?andb_false_r, ?orb_false_r; reflexivity.
Qed.

Lemma cont_byte_high v : Z.land (Z.lor (byte_of v) 128) 128 = 128.
Proof.
  rewrite byte_of_land. bits.
  destruct (Z.eqb_spec 7 i); rewrite ?andb_true_r, ?andb_false_r, ?orb_true_r; reflexivity.
Qed.

Lemma small_testbit v n i : 0 <= v < 2 ^ n -> 0 <= n <= i -> Z.testbit v i = false.
Proof.
  intros Hv Hi. destruct (Z.eq_dec v 0) as [->|Hne]; [apply Z.bits_0|].
  apply Z.bits_above_log2; [lia|].
  apply Z.log2_lt_pow2; [lia|].
  assert (2 ^ n <= 2 ^ i) by (apply Z.pow_le_mono_r; lia). lia.
Qed.

Lemma last_byte_low v : 0 <= v < 128 -> Z.land (byte_of v) 127 = v.
Proof.
  intros Hv. unfold byte_of. rewrite Z.mod_small by lia.
  change 127 with (Z.ones 7). rewrite Z.land_ones by lia. apply Z.mod_small. lia.
Qed.

Lemma last_byte_high v : 0 <= v < 128 -> Z.land (byte_of v) 128 = 0.
Proof.
  intros Hv. unfold byte_of. rewrite Z.mod_small by lia. bits.
  destruct (Z.eqb_spec 7 i); rewrite ?andb_false_r; [|reflexivity].
  subst i. rewrite (small_testbit v 7) by (change (2 ^ 7) with 128; lia). reflexivity.
Qed.

Lemma split_low7 v s : 0 <= s ->
  Z.lor (Z.shiftl (Z.land v 127) s) (Z.shiftl (Z.shiftr v 7) (s + 7)) = Z.shiftl v s.
Proof.
  intros Hs. change 127 with (Z.ones 7). bits.
  destruct (Z.ltb_spec i s).
  - rewrite !(Z.testbit_neg_r _ (i - _)) by lia. reflexivity.
  - rewrite Z.testbit_ones_nonneg by lia.
    destruct (Z.ltb_spec (i - s) 7).
    + rewrite (Z.testbit_neg_r _ (i - (s + 7))) by lia. rewrite andb_true_r, orb_false_r. reflexivity.
    + rewrite andb_false_r. simpl. rewrite Z.shiftr_spec by lia. f_equal. lia.
Qed.

Lemma shiftl_lt v s n : 0 <= v < 2 ^ n -> 0 <= s -> 0 <= n -> 0 <= Z.shiftl v s < 2 ^ (n + s).
Proof.
  intros Hv Hs Hn. rewrite Z.shiftl_mul_pow2 by lia. rewrite Z.pow_add_r by lia.
  assert (0 < 2 ^ s) by (apply Z.pow_pos_nonneg; lia). nia.
Qed.

Lemma WriteVarint_loop_app fuel : forall buf v,
  WriteVarint_loop fuel buf v = buf ++ WriteVarint_loop fuel [] v.
Proof.
  induction fuel as [|k IH]; intros buf v; simpl; [reflexivity|].
  destruct (v >=? 128); [|reflexivity].
  rewrite IH. rewrite (IH [_]). rewrite <- app_assoc. reflexivity.
Qed.

Lemma ReadVarint_loop_WriteVarint_loop fuel : forall v acc shift rest,
  0 <= v < 2 ^ (7 * (Z.of_nat fuel + 1)) ->
  0 <= shift < 64 -> v < 2 ^ (64 - shift) ->
  ReadVarint_loop (WriteVarint_loop fuel [] v ++ rest) acc shift
  = Ok (Z.lor acc (Z.shiftl v shift), rest).
Proof.
  induction fuel as [|k IH]; intros v acc shift rest Hv Hs Hv64.
  - simpl in Hv. change (2 ^ 7) with 128 in Hv. simpl.
    destruct (Z.geb_spec shift 64); [lia|].
    rewrite last_byte_high, last_byte_low by lia. simpl.
    unfold u64. rewrite Z.mod_small; [reflexivity|].
    pose proof (shiftl_lt v shift (64 - shift)). replace (64 - shift + shift) with 64 in * by lia. lia.
  - cbn [WriteVarint_loop]. destruct (Z.geb_spec v 128) as [Hge|Hlt].
    + rewrite WriteVarint_loop_app. cbn [app ReadVarint_loop].
      destruct (Z.geb_spec shift 64); [lia|].
      rewrite cont_byte_high, cont_byte_low. simpl (128 =? 0).  cbv iota.
      assert (Hsh : shift + 7 < 64).
      { destruct (Z.lt_ge_cases (shift + 7) 64); [assumption|].
        assert (2 ^ (64 - shift) <= 2 ^ 7) by (apply Z.pow_le_mono_r; lia).
        change (2 ^ 7) with 128 in *. lia. }
      assert (Hv7 : 0 <= Z.shiftr v 7 < 2 ^ (7 * (Z.of_nat k + 1)) /\ Z.shiftr v 7 < 2 ^ (64 - (shift + 7))).
      { rewrite Z.shiftr_div_pow2 by lia. change (2 ^ 7) with 128.
        replace (7 * (Z.of_nat (S k) + 1)) with (7 + 7 * (Z.of_nat k + 1)) in Hv by lia.
        rewrite Z.pow_add_r in Hv by lia.
        replace (64 - shift) with (7 + (64 - (shift + 7))) in Hv64 by lia.
        rewrite Z.pow_add_r in Hv64 by lia. change (2 ^ 7) with 128 in *.
        repeat split.
        - apply Z.div_pos; lia.
        - apply Z.div_lt_upper_bound; lia.
        - apply Z.div_lt_upper_bound; lia. }
      rewrite IH by lia.
      f_equal. f_equal. unfold u64. rewrite Z.mod_small.
      * rewrite <- Z.lor_assoc. rewrite split_low7 by lia. reflexivity.
      * change 127 with (Z.ones 7). rewrite Z.land_ones by lia.
        pose proof (Z.mod_pos_bound v (2 ^ 7) ltac:(lia)).
        pose proof (shiftl_lt (v mod 2 ^ 7) shift 7 ltac:(lia) ltac:(lia) ltac:(lia)).
        assert (2 ^ (7 + shift) <= 2 ^ 64) by (apply Z.pow_le_mono_r; lia). lia.
    + cbn [app ReadVarint_loop].
      destruct (Z.geb_spec shift 64); [lia|].
      rewrite last_byte_high, last_byte_low by lia. simpl.
      unfold u64. rewrite Z.mod_small; [reflexivity|].
      pose proof (shiftl_lt v shift (64 - shift)). replace (64 - shift + shift) with 64 in * by lia. lia.
Qed.

Lemma WriteVarint_app buf v : WriteVarint buf v = buf ++ WriteVarint [] v.
Proof. apply WriteVarint_loop_app. Qed.

(** Nine iterations are enough for a [uint64]: more fuel changes nothing. *)
Lemma WriteVarint_fuel_irrelevant k : forall j buf v,
  0 <= v < 2 ^ (7 * (Z.of_nat k + 1)) ->
  WriteVarint_loop (k + j) buf v = WriteVarint_loop k buf v.
Proof.
  induction k as [|k IH]; intros j buf v Hv.
  - change (2 ^ (7 * (Z.of_nat 0 + 1))) with 128 in Hv.
    destruct j; simpl; [reflexivity|].
    destruct (Z.geb_spec v 128); [lia|reflexivity].
  - cbn [Nat.add WriteVarint_loop]. destruct (Z.geb_spec v 128); [|reflexivity].
    apply IH. rewrite Z.shiftr_div_pow2 by lia. change (2 ^ 7) with 128.
    replace (7 * (Z.of_nat (S k) + 1)) with (7 + 7 * (Z.of_nat k + 1)) in Hv by lia.
    rewrite Z.pow_add_r in Hv by lia. change (2 ^ 7) with 128 in Hv.
    split; [apply Z.div_pos; lia | apply Z.div_lt_upper_bound; lia].
Qed.

Lemma ReadVarint_WriteVarint v rest :
  is_u64 v -> ReadVarint (WriteVarint [] v ++ rest) = Ok (v, rest).
Proof.
  intros [Hv0 Hv]. unfold ReadVarint, WriteVarint.
  rewrite ReadVarint_loop_WriteVarint_loop.
  - rewrite Z.shiftl_0_r. reflexivity.
  - split; [lia|]. eapply Z.lt_trans; [exact Hv|]. reflexivity.
  - lia.
  - exact Hv.
Qed.

Lemma ReadVarint_loop_overflow pre : forall b rest acc shift,
  Forall continues pre -> 64 <= shift + 7 * len pre ->
  ReadVarint_loop (pre ++ b :: rest) acc shift = Err ErrVarintOverflow.
Proof.
  induction pre as [|x pre IH]; intros b rest acc shift Hc Hlen.
  - unfold len in Hlen. simpl in Hlen. simpl.
    destruct (Z.geb_spec shift 64); [reflexivity|lia].
  - inversion Hc as [|? ? Hx Hpre]; subst. cbn [app ReadVarint_loop].
    destruct (Z.geb_spec shift 64); [reflexivity|].
    destruct (Z.eqb_spec (Z.land x 128) 0) as [E|_]; [contradiction|].
    apply IH; [assumption|]. unfold len in *. simpl length in Hlen. lia.
Qed.

(** C9. Varint codec: [ReadVarint] applied to the bytes written by
    [WriteVarint] for a [uint64] value returns that value (and leaves
    what follows unread); an input whose first ten bytes all carry the
    continuation bit and that has an eleventh byte is rejected with
    [ErrVarintOverflow]. *)
Theorem varint_codec :
  (forall v rest, is_u64 v -> ReadVarint (WriteVarint [] v ++ rest) = Ok (v, rest)) /\
  (forall pre b rest,
     length pre = 10%nat -> Forall continues pre ->
     ReadVarint (pre ++ b :: rest) = Err ErrVarintOverflow).
Proof.
  split.
  - intros v rest Hv. apply ReadVarint_WriteVarint. exact Hv.
  - intros pre b rest Hlen Hc. apply ReadVarint_loop_overflow; [exact Hc|].
    unfold len. rewrite Hlen. lia.
Qed.

(** [varint_codec] at the value 300 and at ten continuation bytes. *)
Lemma varint_codec_witness :
  ReadVarint (WriteVarint [] 300 ++ [7]) = Ok (300, [7]) /\
  ReadVarint (repeat 255 10 ++ 1 :: [9]) = Err ErrVarintOverflow.
Proof.
  split.
  - apply (proj1 varint_codec). unfold is_u64. lia.
  - apply (proj2 varint_codec).
    + reflexivity.
    + simpl. repeat (apply List.Forall_cons; [vm_compute; discriminate|]).
      apply List.Forall_nil.
Defined.

(** ** Payload registry *)

Section RegistryProperties.

Context {U : Type} `{PayloadMarshaler U}.

Lemma Register_reserved (r : PayloadRegistry U) t f :
  250 <= t -> Register r t f = r.
Proof.
  intros Ht. unfold Register, IsReservedType.
  destruct (Z.geb_spec t 250); [reflexivity|lia].
Qed.

Lemma Unregister_reserved (r : PayloadRegistry U) t :
  250 <= t -> Unregister r t = r.
Proof.
  intros Ht. unfold Unregister, IsReservedType.
  destruct (Z.geb_spec t 250); [reflexivity|lia].
Qed.

Lemma handlers_Register_other (r : PayloadRegistry U) t f k :
  250 <= k -> handlers (Register r t f) !! k = handlers r !! k.
Proof.
  intros Hk. unfold Register, IsReservedType.
  destruct (Z.geb_spec t 250); [reflexivity|].
  simpl. apply lookup_insert_ne. lia.
Qed.

Lemma handlers_Unregister_other (r : PayloadRegistry U) t k :
  250 <= k -> handlers (Unregister r t) !! k = handlers r !! k.
Proof.
  intros Hk. unfold Unregister, IsReservedType.
  destruct (Z.geb_spec t 250); [reflexivity|].
  simpl. apply lookup_delete_ne. lia.
Qed.

(** The reserved entries of a reachable registry are those of a fresh one. *)
Lemma reachable_reserved (r : PayloadRegistry U) k :
  reachable r -> 250 <= k ->
  handlers r !! k = handlers (NewPayloadRegistry (U:=U)) !! k.
Proof.
  intros Hr Hk. induction Hr as [|r t f _ IH|r t _ IH].
  - reflexivity.
  - rewrite handlers_Register_other by assumption. exact IH.
  - rewrite handlers_Unregister_other by assumption. exact IH.
Qed.

Lemma Get_new_StreamStart :
  Get (NewPayloadRegistry (U:=U)) 250 = Factory StreamHeader_factory.
Proof.
  unfold Get, NewPayloadRegistry, registerStreamingTypes. simpl.
  rewrite lookup_insert_ne by (unfold MessageTypeStreamChunk; lia).
  unfold MessageTypeStreamStart. rewrite lookup_insert_eq. reflexivity.
Qed.

Lemma Get_new_StreamChunk :
  Get (NewPayloadRegistry (U:=U)) 251 = Factory StreamChunk_factory.
Proof.
  unfold Get, NewPayloadRegistry, registerStreamingTypes. simpl.
  unfold MessageTypeStreamChunk. rewrite lookup_insert_eq. reflexivity.
Qed.

Lemma Get_new_other k :
  k <> 250 -> k <> 251 -> Get (NewPayloadRegistry (U:=U)) k = FactoryNil.
Proof.
  intros H0 H1. unfold Get, NewPayloadRegistry, registerStreamingTypes. simpl.
  rewrite lookup_insert_ne by (unfold MessageTypeStreamChunk; lia).
  rewrite lookup_insert_ne by (unfold MessageTypeStreamStart; lia).
  rewrite lookup_empty. reflexivity.
Qed.

Lemma reachable_Get_reserved (r : PayloadRegistry U) k :
  reachable r -> 250 <= k -> Get r k = Get NewPayloadRegistry k.
Proof.
  intros Hr Hk. unfold Get. rewrite (reachable_reserved r k Hr Hk). reflexivity.
Qed.

Lemma reachable_Get_StreamEnd (r : PayloadRegistry U) :
  reachable r -> Get r MessageTypeStreamEnd = FactoryNil.
Proof.
  intros Hr. unfold MessageTypeStreamEnd.
  rewrite reachable_Get_reserved by (assumption || lia).
  apply Get_new_other; lia.
Qed.

(** C7. Reserved-type protection: for a type [t >= 250], [Register] and
    [Unregister] return the registry with its handler map unchanged; a
    fresh registry has types 250 and 251, and [Get] returns the built-in
    StreamHeader and StreamChunk factories for them. *)
Theorem reserved_type_protection :
  (forall (r : PayloadRegistry U) t f,
     250 <= t ->
     handlers (Register r t f) = handlers r /\ handlers (Unregister r t) = handlers r) /\
  Has (NewPayloadRegistry (U:=U)) 250 = true /\
  Has (NewPayloadRegistry (U:=U)) 251 = true /\
  Get (NewPayloadRegistry (U:=U)) 250 = Factory StreamHeader_factory /\
  Get (NewPayloadRegistry (U:=U)) 251 = Factory StreamChunk_factory.
Proof.
  split; [|split; [|split; [|split]]].
  - intros r t f Ht. rewrite Register_reserved, Unregister_reserved by assumption.
    split; reflexivity.
  - pose proof Get_new_StreamStart as G. unfold Get in G. unfold Has.
    destruct (handlers NewPayloadRegistry !! 250); [reflexivity|discriminate G].
  - pose proof Get_new_StreamChunk as G. unfold Get in G. unfold Has.
    destruct (handlers NewPayloadRegistry !! 251); [reflexivity|discriminate G].
  - apply Get_new_StreamStart.
  - apply Get_new_StreamChunk.
Qed.

(** C6. Strict mode coverage: when the registry has no factory for [t]
    ([Get] returns nil), non-strict decoding returns the raw bytes and
    strict decoding fails with [ErrUnknownMessageType]; when it has one,
    strict and non-strict decoding agree.  This holds for the entry
    points taking a registry and for those using the global one. *)
Theorem strict_mode_coverage :
  forall (registry : PayloadRegistry U) (t : Z) (p : bytes),
    (Get registry t = FactoryNil ->
       UnmarshalPayloadWithRegistryStrict t p registry false = Ok (PBytes p) /\
       UnmarshalPayloadWithRegistryStrict t p registry true = Err ErrUnknownMessageType /\
       UnmarshalPayloadStrict registry t p false = Ok (PBytes p) /\
       UnmarshalPayloadStrict registry t p true = Err ErrUnknownMessageType) /\
    (Get registry t <> FactoryNil ->
       UnmarshalPayloadWithRegistryStrict t p registry true
       = UnmarshalPayloadWithRegistryStrict t p registry false /\
       UnmarshalPayloadStrict registry t p true = UnmarshalPayloadStrict registry t p false).
Proof.
  intros registry t p. split.
  - intros Hnil. unfold UnmarshalPayloadWithRegistryStrict, UnmarshalPayloadStrict.
    rewrite Hnil. repeat split; reflexivity.
  - intros Hreg. unfold UnmarshalPayloadWithRegistryStrict, UnmarshalPayloadStrict.
    destruct (Get registry t); [contradiction|]. split; reflexivity.
Qed.

End RegistryProperties.

(** [reserved_type_protection] at type 250 on a fresh registry. *)
Lemma reserved_type_protection_witness :
  handlers (Register (NewPayloadRegistry (U:=Empty_set)) 250 FactoryNil)
  = handlers (NewPayloadRegistry (U:=Empty_set)) /\
  handlers (Unregister (NewPayloadRegistry (U:=Empty_set)) 250)
  = handlers (NewPayloadRegistry (U:=Empty_set)).
Proof.
  apply (proj1 (reserved_type_protection (U:=Empty_set))). lia.
Defined.

(** [strict_mode_coverage] at the unregistered type 200 and at type 250. *)
Lemma strict_mode_coverage_witness :
  (UnmarshalPayloadWithRegistryStrict (U:=Empty_set) 200 [222; 173; 190; 239]
     NewPayloadRegistry false = Ok (PBytes [222; 173; 190; 239]) /\
   UnmarshalPayloadWithRegistryStrict (U:=Empty_set) 200 [222; 173; 190; 239]
     NewPayloadRegistry true = Err ErrUnknownMessageType /\
   UnmarshalPayloadStrict (U:=Empty_set) NewPayloadRegistry 200 [222; 173; 190; 239] false
   = Ok (PBytes [222; 173; 190; 239]) /\
   UnmarshalPayloadStrict (U:=Empty_set) NewPayloadRegistry 200 [222; 173; 190; 239] true
   = Err ErrUnknownMessageType) /\
  (UnmarshalPayloadWithRegistryStrict (U:=Empty_set) 250 [7; 3; 2] NewPayloadRegistry true
   = UnmarshalPayloadWithRegistryStrict 250 [7; 3; 2] NewPayloadRegistry false /\
   UnmarshalPayloadStrict (U:=Empty_set) NewPayloadRegistry 250 [7; 3; 2] true
   = UnmarshalPayloadStrict NewPayloadRegistry 250 [7; 3; 2] false).
Proof.
  split.
  - apply (proj1 (strict_mode_coverage (U:=Empty_set) NewPayloadRegistry 200 _)).
    reflexivity.
  - apply (proj2 (strict_mode_coverage (U:=Empty_set) NewPayloadRegistry 250 _)).
    rewrite Get_new_StreamStart. discriminate.
Defined.

(** ** Readers and fixed-width words *)

Lemma len_app {A} (a b : list A) : len (a ++ b) = len a + len b.
Proof. unfold len. rewrite length_app. lia. Qed.

Lemma len_cons {A} (x : A) (a : list A) : len (x :: a) = 1 + len a.
Proof. unfold len. simpl length. lia. Qed.

Lemma len_nonneg {A} (a : list A) : 0 <= len a.
Proof. unfold len. lia. Qed.

Lemma len_length {A} (a : list A) n : length a = n -> len a = Z.of_nat n.
Proof. intros <-. reflexivity. Qed.

Lemma ReadFull_app (a r : bytes) : ReadFull (a ++ r) (len a) = Ok (a, r).
Proof.
  unfold ReadFull. destruct (Z.leb_spec (len a) 0) as [Hle|Hgt].
  - destruct a as [|x a]; [reflexivity|]. rewrite len_cons in Hle.
    pose proof (len_nonneg a). lia.
  - pose proof (len_nonneg r). rewrite len_app.
    destruct (Z.eqb_spec (len a + len r) 0); [lia|].
    destruct (Z.ltb_spec (len a + len r) (len a)); [lia|].
    unfold len. rewrite Nat2Z.id.
    rewrite firstn_app, Nat.sub_diag, firstn_all. simpl. rewrite app_nil_r.
    rewrite skipn_app, Nat.sub_diag, skipn_all. reflexivity.
Qed.

Lemma length_PutUint32 v : length (PutUint32 v) = 4%nat.
Proof. reflexivity. Qed.

Lemma len_PutUint32 v : len (PutUint32 v) = 4.
Proof. reflexivity. Qed.

Lemma byte_field v k i :
  0 <= k ->
  Z.testbit (Z.shiftr v k) (i - k) && Z.testbit (Z.ones 8) (i - k)
  = Z.testbit v i && ((k <=? i) && (i <? k + 8)).
Proof.
  intros Hk. destruct (Z.leb_spec k i) as [Hle|Hlt].
  - rewrite Z.shiftr_spec, Z.testbit_ones_nonneg by lia.
    replace (i - k + k) with i by lia. f_equal.
    destruct (Z.ltb_spec (i - k) 8), (Z.ltb_spec i (k + 8)); (reflexivity || lia).
  - rewrite (Z.testbit_neg_r _ (i - k)) by lia. rewrite andb_false_r. reflexivity.
Qed.

Lemma Uint32_PutUint32 v : is_u32 v -> Uint32 (PutUint32 v) = v.
Proof.
  intros Hv. unfold Uint32, PutUint32. rewrite !byte_of_land. bits.
  rewrite !byte_field by lia.
  destruct (Z.ltb_spec i 32) as [Hlt|Hge].
  - destruct (Z.testbit v i); [|reflexivity]. cbn [andb].
    destruct (Z.leb_spec 24 i), (Z.leb_spec 16 i), (Z.leb_spec 8 i),
      (Z.ltb_spec i (24 + 8)), (Z.ltb_spec i (16 + 8)), (Z.ltb_spec i (8 + 8)),
      (Z.ltb_spec i 8); (reflexivity || lia).
  - rewrite (small_testbit v 32 i) by (exact Hv || lia). reflexivity.
Qed.

Lemma binary_Read_u32_app (b r : bytes) :
  length b = 4%nat -> binary_Read_u32 (b ++ r) = Ok (Uint32 b, r).
Proof.
  intros Hb. unfold binary_Read_u32.
  replace 4 with (len b) by (unfold len; rewrite Hb; reflexivity).
  rewrite ReadFull_app. reflexivity.
Qed.

Lemma u32_small v : is_u32 v -> u32 v = v.
Proof. intros Hv. unfold u32. apply Z.mod_small. exact Hv. Qed.

Lemma u64_small v : is_u64 v -> u64 v = v.
Proof. intros Hv. unfold u64. apply Z.mod_small. exact Hv. Qed.

Lemma MaxPayloadSize_u32 v : 0 <= v <= MaxPayloadSize -> is_u32 v.
Proof. unfold MaxPayloadSize, is_u32. intros Hv. split; [lia|].
  eapply Z.le_lt_trans; [apply Hv|]. reflexivity. Qed.

(** ** Message codec *)

Section CodecProperties.

Context {U : Type} `{PayloadMarshaler U}.
Variable globalRegistry : PayloadRegistry U.

(** What [MarshalMessage] writes once the payload is serialized. *)
Lemma MarshalMessage_frame t id (p : payload U) opts bs :
  MarshalPayload p = Ok bs -> len bs <= MaxPayloadSize ->
  MarshalMessage t id p opts =
  match signer_of opts with
  | Some signer =>
      let* signature :=
        Sign signer ([t] ++ PutUint32 id ++ PutUint32 (u32 (len bs)) ++ bs) in
      Ok (fixed_frame t id bs signature)
  | None => Ok (fixed_frame t id bs [])
  end.
Proof.
  intros Hp Hlen. unfold MarshalMessage. rewrite Hp. cbn [bind].
  destruct (Z.gtb_spec (len bs) MaxPayloadSize); [lia|].
  unfold fixed_frame, binary_Write_u32. cbn [app].
  destruct (signer_of opts) as [s|].
  - rewrite <- !app_assoc. cbn [app].
    destruct (Sign s _); cbn [bind]; [|reflexivity|reflexivity].
    rewrite <- !app_assoc. reflexivity.
  - rewrite <- !app_assoc. reflexivity.
Qed.

Lemma MarshalMessage_too_large t id (p : payload U) opts bs :
  MarshalPayload p = Ok bs -> MaxPayloadSize < len bs ->
  MarshalMessage t id p opts = Err ErrPayloadTooLarge.
Proof.
  intros Hp Hlen. unfold MarshalMessage. rewrite Hp. cbn [bind].
  destruct (Z.gtb_spec (len bs) MaxPayloadSize); [reflexivity|lia].
Qed.

(** How [UnmarshalMessage] reads a frame made of a type byte, two
    four-byte words, the payload the second word announces, a four-byte
    word and the signature that word announces. *)
Lemma UnmarshalMessage_frame t idb plb pl slb sig rest opts :
  length idb = 4%nat -> length plb = 4%nat -> length slb = 4%nat ->
  Uint32 plb = len pl -> len pl <= MaxPayloadSize ->
  Uint32 slb = len sig ->
  let data := t :: idb ++ plb ++ pl ++ slb ++ sig ++ rest in
  UnmarshalMessage globalRegistry data opts =
  match checkSignature data opts (len pl) (len sig) sig with
  | Ok _ => (Some (mkMessage t (Uint32 idb) pl sig), decodePayload globalRegistry opts t pl)
  | Err e => (None, Err e)
  | Panic => (None, Panic)
  end.
Proof.
  intros Hidb Hplb Hslb Hpl Hmax Hsl data. unfold UnmarshalMessage.
  assert (Hlen : len data = 13 + len pl + len sig + len rest).
  { unfold data. rewrite len_cons, !len_app.
    rewrite (len_length idb 4), (len_length plb 4), (len_length slb 4) by assumption. lia. }
  pose proof (len_nonneg pl). pose proof (len_nonneg sig). pose proof (len_nonneg rest).
  change (HeaderSize + SignatureLengthSize) with 13.
  destruct (Z.ltb_spec (len data) 13); [lia|].
  unfold data at 1. cbn [ReadByte bind].
  rewrite binary_Read_u32_app by assumption. cbn [bind].
  rewrite binary_Read_u32_app by assumption. cbn [bind].
  rewrite Hpl. destruct (Z.gtb_spec (len pl) MaxPayloadSize); [lia|].
  rewrite ReadFull_app. cbn [bind].
  rewrite binary_Read_u32_app by assumption. cbn [bind]. rewrite Hsl.
  match goal with
  | |- context [if len sig >? 0 then ?a else ?b] =>
      assert (Hsig : (if len sig >? 0 then a else b) = Ok (sig, rest))
  end.
  { destruct (Z.gtb_spec (len sig) 0) as [Hgt|Hle].
    - apply ReadFull_app.
    - destruct sig as [|x sig']; [reflexivity|]. rewrite len_cons in Hle.
      pose proof (len_nonneg sig'). lia. }
  rewrite Hsig. cbn [bind].
  destruct (checkSignature data opts (len pl) (len sig) sig) as [[]| |]; reflexivity.
Qed.

Lemma len_fixed_frame t id (pl sig : bytes) :
  len (fixed_frame t id pl sig) = 13 + len pl + len sig.
Proof.
  unfold fixed_frame. rewrite !len_app, !len_PutUint32. change (len [t]) with 1. lia.
Qed.

(** Reading back a frame laid out by [MarshalMessage]. *)
Lemma UnmarshalMessage_fixed_frame t id pl sig rest opts :
  is_u32 id -> len pl <= MaxPayloadSize -> is_u32 (len sig) ->
  let data := fixed_frame t id pl sig ++ rest in
  UnmarshalMessage globalRegistry data opts =
  match checkSignature data opts (len pl) (len sig) sig with
  | Ok _ => (Some (mkMessage t id pl sig), decodePayload globalRegistry opts t pl)
  | Err e => (None, Err e)
  | Panic => (None, Panic)
  end.
Proof.
  intros Hid Hpl Hsig. pose proof (len_nonneg pl).
  assert (Hpl32 : is_u32 (len pl)) by (apply MaxPayloadSize_u32; lia).
  unfold fixed_frame. rewrite <- !app_assoc. cbn [app].
  rewrite (u32_small (len pl)), (u32_small (len sig)) by assumption.
  pose proof (UnmarshalMessage_frame t (PutUint32 id) (PutUint32 (len pl)) pl
                (PutUint32 (len sig)) sig rest opts
                (length_PutUint32 _) (length_PutUint32 _) (length_PutUint32 _)
                (Uint32_PutUint32 _ Hpl32) Hpl (Uint32_PutUint32 _ Hsig)) as HU.
  rewrite (Uint32_PutUint32 id Hid) in HU. exact HU.
Qed.

(** C1, as the code has it. The id, payload_len and sig_len fields of the frame
    written by [MarshalMessage] are fixed-width big-endian words of four
    bytes each, whatever their value: the frame is [fixed_frame], it is
    [13 + payload length + signature length] bytes long, and
    [UnmarshalMessage] reads the same layout back. *)
Theorem frame_fields_fixed_width :
  forall t id (p : payload U) opts bs,
    MarshalPayload p = Ok bs -> len bs <= MaxPayloadSize ->
    (signer_of opts = None ->
       MarshalMessage t id p opts = Ok (fixed_frame t id bs [])) /\
    (forall signer sig,
       signer_of opts = Some signer ->
       Sign signer ([t] ++ PutUint32 id ++ PutUint32 (u32 (len bs)) ++ bs) = Ok sig ->
       MarshalMessage t id p opts = Ok (fixed_frame t id bs sig)) /\
    (forall sig,
       length (PutUint32 id) = 4%nat /\
       length (PutUint32 (u32 (len bs))) = 4%nat /\
       length (PutUint32 (u32 (len sig))) = 4%nat /\
       len (fixed_frame t id bs sig) = 13 + len bs + len sig) /\
    (forall sig,
       is_u32 id -> is_u32 (len sig) -> verifier_of opts = None ->
       fst (UnmarshalMessage globalRegistry (fixed_frame t id bs sig) opts)
       = Some (mkMessage t id bs sig)).
Proof.
  intros t id p opts bs Hp Hlen.
  pose proof (MarshalMessage_frame t id p opts bs Hp Hlen) as HM.
  split; [|split; [|split]].
  - intros Hs. rewrite Hs in HM. exact HM.
  - intros signer sig Hs Hsign. rewrite Hs in HM. rewrite HM.
    cbv zeta. rewrite Hsign. reflexivity.
  - intros sig. repeat split. apply len_fixed_frame.
  - intros sig Hid Hsig Hv.
    rewrite <- (app_nil_r (fixed_frame t id bs sig)).
    rewrite UnmarshalMessage_fixed_frame by assumption.
    unfold checkSignature. rewrite Hv. reflexivity.
Qed.

(** C2, as the code has it. Round trip: a raw byte slice sent under a type
    without a registered factory, or a payload sent under the type whose
    registered factory inverts its [Marshal], comes back from
    [UnmarshalMessage (MarshalMessage t id p nil) nil] with the same
    type, id and payload, provided its serialized form is at most
    100 MiB. *)
Theorem message_round_trip :
  forall t id (p : payload U) bs,
    is_u32 id -> MarshalPayload p = Ok bs -> len bs <= MaxPayloadSize ->
    (p = PBytes bs -> Get globalRegistry t = FactoryNil ->
       exists data,
         MarshalMessage t id p None = Ok data /\
         UnmarshalMessage globalRegistry data None
         = (Some (mkMessage t id bs []), Ok p)) /\
    (forall unmarshal,
       Get globalRegistry t = Factory unmarshal -> unmarshal bs = Ok p ->
       exists data,
         MarshalMessage t id p None = Ok data /\
         UnmarshalMessage globalRegistry data None
         = (Some (mkMessage t id bs []), Ok p)).
Proof.
  intros t id p bs Hid Hp Hlen.
  pose proof (MarshalMessage_frame t id p None bs Hp Hlen) as HM. cbn in HM.
  assert (HU : UnmarshalMessage globalRegistry (fixed_frame t id bs []) None
               = (Some (mkMessage t id bs []),
                  UnmarshalPayloadStrict globalRegistry t bs false)).
  { rewrite <- (app_nil_r (fixed_frame t id bs [])).
    rewrite UnmarshalMessage_fixed_frame;
      [reflexivity | assumption | assumption | vm_compute; intuition discriminate]. }
  split.
  - intros -> Hnil. exists (fixed_frame t id bs []). split; [exact HM|].
    rewrite HU. unfold UnmarshalPayloadStrict. rewrite Hnil. reflexivity.
  - intros unmarshal Hget Hun. exists (fixed_frame t id bs []). split; [exact HM|].
    rewrite HU. unfold UnmarshalPayloadStrict. rewrite Hget, Hun. reflexivity.
Qed.

(** C5. Signature requirement and coverage: on a frame whose sig_len
    field is zero, [UnmarshalMessage] with a verifier fails with
    [ErrSignatureRequired]; on a frame with a signature, the verifier is
    run on exactly the bytes of type, id, payload_len and payload, any
    error it returns surfaces as [ErrInvalidSignature], and when it
    accepts the message is decoded. *)
Theorem signature_required_and_coverage :
  forall t idb plb pl slb sig rest o verifier,
    opt_Verifier o = Some verifier ->
    length idb = 4%nat -> length plb = 4%nat -> length slb = 4%nat ->
    Uint32 plb = len pl -> len pl <= MaxPayloadSize -> Uint32 slb = len sig ->
    let data := t :: idb ++ plb ++ pl ++ slb ++ sig ++ rest in
    let covered := t :: idb ++ plb ++ pl in
    (len sig = 0 ->
       UnmarshalMessage globalRegistry data (Some o) = (None, Err ErrSignatureRequired)) /\
    (0 < len sig ->
       (forall e, Verify verifier covered sig = Err e ->
          UnmarshalMessage globalRegistry data (Some o) = (None, Err ErrInvalidSignature)) /\
       (Verify verifier covered sig = Ok tt ->
          UnmarshalMessage globalRegistry data (Some o)
          = (Some (mkMessage t (Uint32 idb) pl sig),
             decodePayload globalRegistry (Some o) t pl))).
Proof.
  intros t idb plb pl slb sig rest o verifier Hv Hidb Hplb Hslb Hpl Hmax Hsl data covered.
  pose proof (UnmarshalMessage_frame t idb plb pl slb sig rest (Some o)
                Hidb Hplb Hslb Hpl Hmax Hsl) as HU.
  cbv zeta in HU. fold data in HU. rewrite HU. clear HU.
  unfold checkSignature, verifier_of. rewrite Hv.
  split.
  - intros H0. rewrite H0. reflexivity.
  - intros Hpos. destruct (Z.eqb_spec (len sig) 0); [lia|].
    assert (Hslice : slice data 0 (HeaderSize + len pl) = Some covered).
    { unfold slice. pose proof (len_nonneg pl). pose proof (len_nonneg rest).
      assert (Hd : data = covered ++ (slb ++ sig ++ rest)).
      { unfold data, covered. cbn [app]. rewrite <- !app_assoc. reflexivity. }
      assert (Hc : len covered = HeaderSize + len pl).
      { unfold covered. rewrite len_cons, !len_app.
        rewrite (len_length idb 4), (len_length plb 4) by assumption.
        change HeaderSize with 9. lia. }
      rewrite <- Hc, Hd, len_app. pose proof (len_nonneg covered).
      pose proof (len_nonneg (slb ++ sig ++ rest)).
      destruct (Z.leb_spec 0 (len covered)); [|lia].
      destruct (Z.leb_spec (len covered) (len covered + len (slb ++ sig ++ rest))); [|lia].
      cbn [andb]. unfold sub. rewrite Z.sub_0_r. unfold len at 1. rewrite Nat2Z.id.
      change (Z.to_nat 0) with 0%nat. rewrite skipn_O.
      rewrite firstn_app, Nat.sub_diag, firstn_all. simpl. rewrite app_nil_r. reflexivity. }
    rewrite Hslice. split.
    + intros e He. rewrite He. reflexivity.
    + intros Hok. rewrite Hok. reflexivity.
Qed.

(** C8. The 100 MiB bound: once the payload is serialized,
    [MarshalMessage] fails with [ErrPayloadTooLarge] exactly when the
    serialized length exceeds [100 * 1024 * 1024] (a signer, if any, not
    itself answering with that error), so exactly 100 MiB passes; and
    [UnmarshalMessage], on an input long enough to hold header and
    sig_len field, fails with [ErrPayloadTooLarge] whenever the declared
    payload_len exceeds 100 MiB, whatever bytes follow the header. *)
Theorem payload_bound :
  (forall t id (p : payload U) opts bs,
     MarshalPayload p = Ok bs ->
     (forall signer d, signer_of opts = Some signer -> Sign signer d <> Err ErrPayloadTooLarge) ->
     (MarshalMessage t id p opts = Err ErrPayloadTooLarge <-> 100 * 1024 * 1024 < len bs) /\
     (len bs = 100 * 1024 * 1024 -> signer_of opts = None ->
        MarshalMessage t id p opts = Ok (fixed_frame t id bs []))) /\
  (forall t idb plb rest opts,
     length idb = 4%nat -> length plb = 4%nat ->
     HeaderSize + SignatureLengthSize <= len (t :: idb ++ plb ++ rest) ->
     100 * 1024 * 1024 < Uint32 plb ->
     UnmarshalMessage globalRegistry (t :: idb ++ plb ++ rest) opts
     = (None, Err ErrPayloadTooLarge)).
Proof.
  split.
  - intros t id p opts bs Hp Hsign. change (100 * 1024 * 1024) with MaxPayloadSize.
    split; [split|].
    + intros HM. destruct (Z.lt_ge_cases MaxPayloadSize (len bs)) as [|Hle]; [assumption|].
      exfalso. rewrite (MarshalMessage_frame t id p opts bs Hp) in HM by lia.
      destruct (signer_of opts) as [s|] eqn:Hs; [|discriminate HM].
      cbv zeta in HM.
      destruct (Sign s _) as [sig|e|] eqn:He; cbn [bind] in HM; try discriminate HM.
      injection HM as ->. apply (Hsign s _ eq_refl He).
    + intros Hgt. apply (MarshalMessage_too_large t id p opts bs Hp Hgt).
    + intros Heq Hs. rewrite (MarshalMessage_frame t id p opts bs Hp) by lia.
      rewrite Hs. reflexivity.
  - intros t idb plb rest opts Hidb Hplb Hlen Hbig. unfold UnmarshalMessage.
    destruct (Z.ltb_spec (len (t :: idb ++ plb ++ rest)) (HeaderSize + SignatureLengthSize));
      [lia|].
    cbn [ReadByte bind].
    rewrite binary_Read_u32_app by assumption. cbn [bind].
    rewrite binary_Read_u32_app by assumption. cbn [bind].
    change (100 * 1024 * 1024) with MaxPayloadSize in Hbig.
    destruct (Z.gtb_spec (Uint32 plb) MaxPayloadSize); [reflexivity|lia].
Qed.

End CodecProperties.

(** *** The codec on concrete frames *)

(** C1, counterexample. With id 5, a one-byte payload and no signature
    every field value is below 128, yet [MarshalMessage] writes each of
    the three fields on four bytes: the frame has 14 bytes, it is not
    the 5-byte varint frame, and [UnmarshalMessage] does not accept the
    varint frame. *)
Lemma frame_fields_are_not_varints :
  MarshalMessage (U:=Empty_set) 1 5 (PBytes [170]) None
  = Ok [1; 0; 0; 0; 5; 0; 0; 0; 1; 170; 0; 0; 0; 0] /\
  varint_frame 1 5 [170] [] = [1; 5; 1; 170; 0] /\
  MarshalMessage (U:=Empty_set) 1 5 (PBytes [170]) None
  <> Ok (varint_frame 1 5 [170] []) /\
  UnmarshalMessage (U:=Empty_set) NewPayloadRegistry (varint_frame 1 5 [170] []) None
  = (None, Err ErrInvalidMessage).
Proof.
  split; [reflexivity|]. split; [reflexivity|]. split; [|reflexivity].
  intros E. discriminate E.
Qed.

(** [frame_fields_fixed_width] at type 1, id 5 and a one-byte payload. *)
Lemma frame_fields_fixed_width_witness :
  (MarshalPayload (U:=Empty_set) (PBytes [170]) = Ok [170] /\
   len [170] <= MaxPayloadSize) /\
  MarshalMessage (U:=Empty_set) 1 5 (PBytes [170]) None = Ok (fixed_frame 1 5 [170] []) /\
  fst (UnmarshalMessage (U:=Empty_set) NewPayloadRegistry (fixed_frame 1 5 [170] [1])
         None)
  = Some (mkMessage 1 5 [170] [1]).
Proof.
  assert (Hp : MarshalPayload (U:=Empty_set) (PBytes [170]) = Ok [170]) by reflexivity.
  assert (Hl : len [170] <= MaxPayloadSize) by (vm_compute; discriminate).
  pose proof (frame_fields_fixed_width (U:=Empty_set) NewPayloadRegistry
                1 5 (PBytes [170]) None [170] Hp Hl) as [W1 [_ [_ W4]]].
  split; [split; assumption|]. split.
  - apply W1. reflexivity.
  - apply W4; [vm_compute; intuition discriminate
              | vm_compute; intuition discriminate | reflexivity].
Defined.

(** C2, counterexample. A raw byte slice sent under a type that has a
    registered factory is handed to that factory: under type 1, in a
    global registry where type 1 is registered with a decoder of three
    fields, the raw bytes [[222; 173]] fail to decode; and the raw bytes
    [[7; 3; 2]] come back as a structure, not as the byte slice.  The
    same happens under type 250 in a fresh registry. *)
Lemma round_trip_fails_on_registered_type :
  (exists data,
     MarshalMessage (U:=Empty_set) 1 42 (PBytes [222; 173]) None = Ok data /\
     UnmarshalMessage registryWithType1 data None
     = (Some (mkMessage 1 42 [222; 173] []), Err EOF)) /\
  (exists data,
     MarshalMessage (U:=Empty_set) 1 42 (PBytes [7; 3; 2]) None = Ok data /\
     UnmarshalMessage registryWithType1 data None
     = (Some (mkMessage 1 42 [7; 3; 2] []),
        Ok (PStreamHeader (mkStreamHeader 7 3 2)))) /\
  (exists data,
     MarshalMessage (U:=Empty_set) 250 42 (PBytes []) None = Ok data /\
     UnmarshalMessage (U:=Empty_set) NewPayloadRegistry data None
     = (Some (mkMessage 250 42 [] []), Err EOF)).
Proof.
  split; [|split].
  - exists [1; 0; 0; 0; 42; 0; 0; 0; 2; 222; 173; 0; 0; 0; 0]. split; reflexivity.
  - exists [1; 0; 0; 0; 42; 0; 0; 0; 3; 7; 3; 2; 0; 0; 0; 0]. split; reflexivity.
  - exists [250; 0; 0; 0; 42; 0; 0; 0; 0; 0; 0; 0; 0]. split; reflexivity.
Qed.

(** [message_round_trip] at raw bytes under type 200 and at a StreamHeader
    under type 250. *)
Lemma message_round_trip_witness :
  (exists data,
     MarshalMessage (U:=Empty_set) 200 42 (PBytes [222; 173; 190; 239]) None = Ok data /\
     UnmarshalMessage (U:=Empty_set) NewPayloadRegistry data None
     = (Some (mkMessage 200 42 [222; 173; 190; 239] []),
        Ok (PBytes [222; 173; 190; 239]))) /\
  (exists data,
     MarshalMessage (U:=Empty_set) 250 42
       (PStreamHeader (mkStreamHeader 7 3 2)) None = Ok data /\
     UnmarshalMessage (U:=Empty_set) NewPayloadRegistry data None
     = (Some (mkMessage 250 42 [7; 3; 2] []),
        Ok (PStreamHeader (mkStreamHeader 7 3 2)))).
Proof.
  assert (Hid : is_u32 42) by (vm_compute; intuition discriminate).
  split.
  - refine (proj1 (message_round_trip (U:=Empty_set) NewPayloadRegistry 200 42
                     (PBytes [222; 173; 190; 239]) [222; 173; 190; 239]
                     Hid eq_refl _) eq_refl eq_refl).
    vm_compute. discriminate.
  - refine (proj2 (message_round_trip (U:=Empty_set) NewPayloadRegistry 250 42
                     (PStreamHeader (mkStreamHeader 7 3 2)) [7; 3; 2]
                     Hid eq_refl _) StreamHeader_factory Get_new_StreamStart eq_refl).
    vm_compute. discriminate.
Defined.

(** [signature_required_and_coverage] on an unsigned frame, a frame with a
    rejected signature and a frame with the accepted one. *)
Lemma signature_required_and_coverage_witness :
  UnmarshalMessage (U:=Empty_set) NewPayloadRegistry
    [1; 0; 0; 0; 5; 0; 0; 0; 1; 170; 0; 0; 0; 0] (Some verifying)
  = (None, Err ErrSignatureRequired) /\
  UnmarshalMessage (U:=Empty_set) NewPayloadRegistry
    [1; 0; 0; 0; 5; 0; 0; 0; 1; 170; 0; 0; 0; 1; 2] (Some verifying)
  = (None, Err ErrInvalidSignature) /\
  UnmarshalMessage (U:=Empty_set) NewPayloadRegistry
    [1; 0; 0; 0; 5; 0; 0; 0; 1; 170; 0; 0; 0; 1; 1] (Some verifying)
  = (Some (mkMessage 1 5 [170] [1]), Ok (PBytes [170])).
Proof.
  assert (Hmax : len [170] <= MaxPayloadSize) by (vm_compute; discriminate).
  split; [|split].
  - apply (proj1 (signature_required_and_coverage (U:=Empty_set) NewPayloadRegistry
                    1 [0; 0; 0; 5] [0; 0; 0; 1] [170] [0; 0; 0; 0] [] []
                    verifying toyVerifier eq_refl eq_refl eq_refl eq_refl
                    eq_refl Hmax eq_refl)).
    reflexivity.
  - refine (proj1 (proj2 (signature_required_and_coverage (U:=Empty_set)
                    NewPayloadRegistry
                    1 [0; 0; 0; 5] [0; 0; 0; 1] [170] [0; 0; 0; 1] [2] []
                    verifying toyVerifier eq_refl eq_refl eq_refl eq_refl
                    eq_refl Hmax eq_refl) _) (ErrForeign 1) eq_refl).
    reflexivity.
  - refine (proj2 (proj2 (signature_required_and_coverage (U:=Empty_set)
                    NewPayloadRegistry
                    1 [0; 0; 0; 5] [0; 0; 0; 1] [170] [0; 0; 0; 1] [1] []
                    verifying toyVerifier eq_refl eq_refl eq_refl eq_refl
                    eq_refl Hmax eq_refl) _) eq_refl).
    reflexivity.
Defined.

(** [payload_bound] at a one-byte payload and at a header announcing
    [2^32 - 1] payload bytes. *)
Lemma payload_bound_witness :
  (MarshalMessage (U:=Empty_set) 1 5 (PBytes [170]) None = Err ErrPayloadTooLarge
   <-> 100 * 1024 * 1024 < len [170]) /\
  UnmarshalMessage (U:=Empty_set) NewPayloadRegistry
    [1; 0; 0; 0; 5; 255; 255; 255; 255; 0; 0; 0; 0] None
  = (None, Err ErrPayloadTooLarge).
Proof.
  split.
  - refine (proj1 (proj1 (payload_bound (U:=Empty_set) NewPayloadRegistry)
                     1 5 (PBytes [170]) None [170] eq_refl _)).
    intros signer d E. discriminate E.
  - apply (proj2 (payload_bound (U:=Empty_set) NewPayloadRegistry)
             1 [0; 0; 0; 5] [255; 255; 255; 255] [0; 0; 0; 0] None eq_refl eq_refl).
    + vm_compute. discriminate.
    + vm_compute. reflexivity.
Defined.

(** ** Stream reassembly *)

Section AssemblerProperties.

Context {U : Type} `{PayloadMarshaler U}.

(** One CHUNK event on a stream that is being assembled. *)
Lemma addChunk_active (p : Protocol U) msgID chunk a :
  activeStreams p !! msgID = Some a ->
  let a' := mkStreamAssembler (header a)
              (<[ChunkIndex chunk := Data chunk]> (chunks a))
              (u32 (received a + 1)) in
  let p' := set_activeStreams (<[msgID := a']> (activeStreams p)) p in
  addChunk msgID chunk p =
  if received a' =? TotalChunks (header a)
  then (let* assembled := assembleStream a' in Ok (true, assembled), p')
  else (Ok (false, []), p').
Proof. intros Ha. unfold addChunk. rewrite Ha. reflexivity. Qed.

Lemma assembleStream_Ok a :
  TotalSize (header a) <= maxAlloc ->
  assembleStream a
  = Ok (assembleStream_loop (Z.to_nat (TotalChunks (header a))) 0 (chunks a) []).
Proof.
  intros Hs. unfold assembleStream.
  destruct (Z.gtb_spec (TotalSize (header a)) maxAlloc); [lia|reflexivity].
Qed.

Lemma assembleStream_Panic a :
  maxAlloc < TotalSize (header a) -> assembleStream a = Panic.
Proof.
  intros Hs. unfold assembleStream.
  destruct (Z.gtb_spec (TotalSize (header a)) maxAlloc); [reflexivity|lia].
Qed.

Lemma addChunk_state (p : Protocol U) msgID chunk a :
  activeStreams p !! msgID = Some a ->
  activeStreams (snd (addChunk msgID chunk p)) !! msgID
  = Some (mkStreamAssembler (header a)
            (<[ChunkIndex chunk := Data chunk]> (chunks a))
            (u32 (received a + 1))).
Proof.
  intros Ha. rewrite (addChunk_active p msgID chunk a Ha). cbv zeta.
  destruct (_ =? _); cbn [snd set_activeStreams activeStreams]; apply lookup_insert_eq.
Qed.

Lemma u32_is_u32 x : is_u32 (u32 x).
Proof. unfold is_u32, u32. apply Z.mod_pos_bound. reflexivity. Qed.

(** The assembler after a run of CHUNK events: same header, one count
    per event, and a chunk stored at exactly the indices seen. *)
Lemma addChunks_state msgID cs : forall (p : Protocol U) a,
  activeStreams p !! msgID = Some a -> is_u32 (received a) ->
  exists a',
    activeStreams (addChunks msgID cs p) !! msgID = Some a' /\
    header a' = header a /\
    received a' = u32 (received a + len cs) /\
    (forall i, is_Some (chunks a' !! i) <->
               is_Some (chunks a !! i) \/ In i (map ChunkIndex cs)).
Proof.
  induction cs as [|c cs IH]; intros p a Ha Hr0.
  - exists a. cbn [addChunks fold_left map In]. split; [exact Ha|].
    split; [reflexivity|]. split.
    + change (len []) with 0. rewrite Z.add_0_r. symmetry. apply u32_small. exact Hr0.
    + intros i. tauto.
  - cbn [addChunks fold_left].
    pose proof (addChunk_state p msgID c a Ha) as Hst.
    destruct (IH _ _ Hst (u32_is_u32 _)) as (a' & Ha' & Hh & Hr & Hc).
    exists a'. split; [exact Ha'|]. split; [exact Hh|]. split.
    + rewrite Hr. cbn [received]. rewrite len_cons. unfold u32.
      rewrite Zplus_mod_idemp_l. f_equal. lia.
    + intros i. rewrite Hc. cbn [chunks map In].
      destruct (Z.eq_dec (ChunkIndex c) i) as [->|Hne].
      * rewrite lookup_insert_eq. split; [intros _; right; left; reflexivity|].
        intros _. left. eexists. reflexivity.
      * rewrite lookup_insert_ne by assumption. tauto.
Qed.

(** Pigeonhole: [n] indices with a repetition miss some index below [n]. *)
Lemma repeated_index_misses (l : list Z) :
  ~ List.NoDup l -> exists i, 0 <= i < len l /\ ~ In i l.
Proof.
  intros Hdup.
  set (range := map Z.of_nat (seq 0 (length l))).
  destruct (List.Forall_Exists_dec (fun i => In i l) (fun i => In_dec Z.eq_dec i l) range)
    as [Hall|Hex].
  - exfalso. apply Hdup.
    apply (@List.NoDup_incl_NoDup Z range l).
    + unfold range. apply Finite.Injective_map_NoDup; [|apply seq_NoDup].
      intros x y Hxy. lia.
    + unfold range. rewrite length_map, length_seq. lia.
    + intros i Hi. rewrite List.Forall_forall in Hall. apply Hall. exact Hi.
  - apply List.Exists_exists in Hex. destruct Hex as (i & Hi & Hni).
    exists i. split; [|exact Hni].
    unfold range in Hi. apply in_map_iff in Hi. destruct Hi as (k & <- & Hk).
    apply in_seq in Hk. unfold len. lia.
Qed.

Lemma startStream_state (p : Protocol U) msgID hdr :
  activeStreams (startStream msgID hdr p) !! msgID = Some (mkStreamAssembler hdr ∅ 0).
Proof. unfold startStream. cbn [set_activeStreams activeStreams]. apply lookup_insert_eq. Qed.

(** C4. Duplicate chunk indices on the receiver: a CHUNK event whose
    index is already stored overwrites the stored data (other indices
    keep theirs) and still adds one to the [uint32] counter [received];
    so, on a stream started with [total_chunks = n], a run of [n] CHUNK
    events with a repeated index makes the [n]-th [addChunk] (none
    before it) find [received = total_chunks] and assemble a map in
    which some index below [n] is absent: it answers [true] with that
    assembly when the announced total size is a capacity the runtime
    accepts, and panics in the allocation of [assembleStream]
    otherwise. *)
Theorem duplicate_chunk_behaviour :
  (forall (p : Protocol U) msgID chunk a old,
     activeStreams p !! msgID = Some a ->
     chunks a !! ChunkIndex chunk = Some old ->
     exists a',
       activeStreams (snd (addChunk msgID chunk p)) !! msgID = Some a' /\
       chunks a' !! ChunkIndex chunk = Some (Data chunk) /\
       (forall i, i <> ChunkIndex chunk -> chunks a' !! i = chunks a !! i) /\
       header a' = header a /\
       received a' = (received a + 1) mod 2 ^ 32) /\
  (forall (p : Protocol U) msgID hdr pre last,
     TotalChunks hdr = len (pre ++ [last]) -> len (pre ++ [last]) < 2 ^ 32 ->
     ~ List.NoDup (map ChunkIndex (pre ++ [last])) ->
     let p0 := startStream msgID hdr p in
     (forall pre1 c pre2,
        pre = pre1 ++ c :: pre2 ->
        fst (addChunk msgID c (addChunks msgID pre1 p0)) = Ok (false, [])) /\
     exists a,
       activeStreams (snd (addChunk msgID last (addChunks msgID pre p0))) !! msgID
       = Some a /\
       header a = hdr /\ received a = TotalChunks hdr /\
       (exists i, 0 <= i < TotalChunks hdr /\ chunks a !! i = None) /\
       (TotalSize hdr <= maxAlloc ->
          exists assembled,
            assembleStream a = Ok assembled /\
            fst (addChunk msgID last (addChunks msgID pre p0)) = Ok (true, assembled)) /\
       (maxAlloc < TotalSize hdr ->
          fst (addChunk msgID last (addChunks msgID pre p0)) = Panic)).
Proof.
  split.
  - intros p msgID chunk a old Ha Hold.
    eexists. split; [apply (addChunk_state p msgID chunk a Ha)|].
    cbn [chunks header received]. split; [apply lookup_insert_eq|].
    split; [|split; reflexivity].
    intros i Hi. apply lookup_insert_ne. congruence.
  - intros p msgID hdr pre last Htot Hlt Hdup p0.
    assert (Hfresh : is_u32 (received (mkStreamAssembler hdr ∅ 0)))
      by (vm_compute; intuition discriminate).
    assert (Hrun : forall cs, len cs < 2 ^ 32 ->
              exists a1,
                activeStreams (addChunks msgID cs p0) !! msgID = Some a1 /\
                header a1 = hdr /\ received a1 = len cs /\
                (forall i, is_Some (chunks a1 !! i) <-> In i (map ChunkIndex cs))).
    { intros cs Hcs.
      destruct (addChunks_state msgID cs p0 _ (startStream_state p msgID hdr) Hfresh)
        as (a1 & Ha1 & Hh & Hr & Hc).
      exists a1. split; [exact Ha1|]. split; [exact Hh|]. split.
      - rewrite Hr. cbn [received]. apply u32_small. pose proof (len_nonneg cs).
        unfold is_u32. lia.
      - intros i. rewrite Hc. cbn [chunks]. rewrite lookup_empty.
        split; [intros [[x Hx]|Hin]; [discriminate Hx|exact Hin] | intros Hin; right; exact Hin]. }
    rewrite len_app in Htot, Hlt. change (len [last]) with 1 in Htot, Hlt.
    pose proof (len_nonneg pre) as Hpre0.
    split.
    + intros pre1 c pre2 Hsplit.
      assert (Hl1 : len pre1 + 1 <= len pre).
      { rewrite Hsplit, len_app, len_cons. pose proof (len_nonneg pre2). lia. }
      pose proof (len_nonneg pre1).
      destruct (Hrun pre1 ltac:(lia)) as (a1 & Ha1 & Hh & Hr & _).
      rewrite (addChunk_active _ msgID c a1 Ha1). cbv zeta. cbn [received].
      rewrite Hh, Hr, Htot.
      rewrite u32_small by (unfold is_u32; lia).
      destruct (Z.eqb_spec (len pre1 + 1) (len pre + 1)); [lia|reflexivity].
    + destruct (Hrun pre ltac:(lia)) as (a1 & Ha1 & Hh & Hr & Hc).
      eexists. split; [apply (addChunk_state _ msgID last a1 Ha1)|].
      rewrite (addChunk_active _ msgID last a1 Ha1). cbv zeta. cbn [received header].
      rewrite Hh, Hr, Htot.
      rewrite u32_small by (unfold is_u32; lia).
      rewrite Z.eqb_refl. split; [reflexivity|]. split; [reflexivity|]. split; [|split].
      * destruct (repeated_index_misses _ Hdup) as (i & Hi & Hni).
        exists i. split.
        -- unfold len in Hi. rewrite length_map in Hi.
           fold (len (pre ++ [last])) in Hi. rewrite len_app in Hi.
           change (len [last]) with 1 in Hi. lia.
        -- cbn [chunks]. apply eq_None_not_Some. intros Hsome. apply Hni.
           rewrite map_app, in_app_iff. cbn [map In].
           destruct (Z.eq_dec (ChunkIndex last) i) as [E|Hne]; [right; left; exact E|].
           rewrite lookup_insert_ne in Hsome by assumption.
           left. apply Hc. exact Hsome.
      * intros Hsz. eexists. split.
        -- apply assembleStream_Ok. cbn [header]. exact Hsz.
        -- rewrite assembleStream_Ok by (cbn [header]; exact Hsz). reflexivity.
      * intros Hsz. rewrite assembleStream_Panic by (cbn [header]; exact Hsz).
        reflexivity.
Qed.

End AssemblerProperties.

(** [duplicate_chunk_behaviour] on a two-chunk stream that receives index 0
    twice. *)
Lemma duplicate_chunk_behaviour_witness :
  (exists a',
     activeStreams (snd (addChunk 9 (mkStreamChunk 0 [2]) oneChunkReceiver)) !! 9 = Some a' /\
     chunks a' !! 0 = Some [2] /\
     (forall i, i <> 0 -> chunks a' !! i = (<[0 := [1]]> ∅ : gmap Z bytes) !! i) /\
     header a' = mkStreamHeader 7 2 2 /\
     received a' = (1 + 1) mod 2 ^ 32) /\
  (exists a,
     activeStreams (snd (addChunk 9 (mkStreamChunk 0 [2]) oneChunkReceiver)) !! 9 = Some a /\
     received a = 2 /\
     (exists i, 0 <= i < 2 /\ chunks a !! i = None) /\
     fst (addChunk 9 (mkStreamChunk 0 [2]) oneChunkReceiver) = Ok (true, [2])).
Proof.
  split.
  - exact (proj1 (duplicate_chunk_behaviour (U:=Empty_set)) oneChunkReceiver 9 (mkStreamChunk 0 [2])
             (mkStreamAssembler (mkStreamHeader 7 2 2) (<[0 := [1]]> ∅) 1) [1]
             eq_refl eq_refl).
  - destruct (proj2 (duplicate_chunk_behaviour (U:=Empty_set))
                (NewProtocol (mkConnection [] []) None) 9 (mkStreamHeader 7 2 2)
                [mkStreamChunk 0 [1]] (mkStreamChunk 0 [2]))
      as (_ & a & Ha & _ & Hr & Hmiss & _).
    + reflexivity.
    + vm_compute. reflexivity.
    + intros Hnd. inversion Hnd as [|x l Hx Hl]; subst. apply Hx. left. reflexivity.
    + exists a. split; [exact Ha|]. split; [exact Hr|]. split; [exact Hmiss|].
      vm_compute. reflexivity.
Defined.

(** ** Streamed send *)

Lemma int_of_small v : - 2 ^ 63 <= v < 2 ^ 63 -> int_of v = v.
Proof.
  intros Hv. unfold int_of. rewrite Z.mod_small; [lia|].
  change (2 ^ 64) with (2 ^ 63 + 2 ^ 63). lia.
Qed.

Lemma len_WriteVarint_loop fuel : forall v, len (WriteVarint_loop fuel [] v) <= Z.of_nat fuel + 1.
Proof.
  induction fuel as [|k IH]; intros v; cbn [WriteVarint_loop].
  - change (len ([] ++ [byte_of v])) with 1. lia.
  - destruct (v >=? 128).
    + rewrite WriteVarint_loop_app, len_app. specialize (IH (Z.shiftr v 7)).
      change (len ([] ++ [Z.lor (byte_of v) 128])) with 1. lia.
    + change (len ([] ++ [byte_of v])) with 1. lia.
Qed.

Lemma len_WriteVarint v : len (WriteVarint [] v) <= 10.
Proof. apply (len_WriteVarint_loop 9). Qed.

Lemma firstn_plus {A} a b : forall l : list A,
  firstn (a + b) l = firstn a l ++ firstn b (skipn a l).
Proof.
  induction a as [|a IH]; intros l; [reflexivity|].
  destruct l as [|x l]; cbn [Nat.add firstn skipn app].
  - rewrite firstn_nil. reflexivity.
  - rewrite IH. reflexivity.
Qed.

Lemma concat_chunks {A} (c n : nat) (l : list A) :
  concat (map (fun k => firstn c (skipn (k * c) l)) (seq 0 n)) = firstn (n * c) l.
Proof.
  induction n as [|n IH]; [reflexivity|].
  rewrite seq_S, map_app, concat_app, IH. cbn [Nat.add map concat].
  rewrite app_nil_r. rewrite <- firstn_plus. f_equal. lia.
Qed.

Lemma chunk_of_nat cs (l : bytes) (k : nat) :
  0 < cs ->
  chunk_of cs l (Z.of_nat k) = firstn (Z.to_nat cs) (skipn (k * Z.to_nat cs) l).
Proof.
  intros Hcs. unfold chunk_of, sub.
  replace (Z.to_nat (Z.of_nat k * cs)) with (k * Z.to_nat cs)%nat by nia.
  set (rest := skipn (k * Z.to_nat cs) l).
  assert (Hrest : length rest = (length l - k * Z.to_nat cs)%nat)
    by (unfold rest; apply length_skipn).
  destruct (Z.le_gt_cases ((Z.of_nat k + 1) * cs) (len l)) as [Hle|Hgt].
  - rewrite Z.min_l by assumption. f_equal. lia.
  - rewrite Z.min_r by lia.
    rewrite (firstn_all2 (n := Z.to_nat cs)) by (unfold len in *; lia).
    apply firstn_all2. unfold len in *. lia.
Qed.

Lemma concat_chunk_of cs (l : bytes) :
  0 < cs ->
  concat (map (chunk_of cs l) (seqZ 0 (total_chunks (len l) cs))) = l.
Proof.
  intros Hcs. unfold seqZ. rewrite map_map.
  rewrite (map_ext _ (fun k => firstn (Z.to_nat cs) (skipn (k * Z.to_nat cs) l))).
  - rewrite concat_chunks. apply firstn_all2.
    unfold total_chunks, len.
    assert (Hdiv : Z.of_nat (length l) <= (Z.of_nat (length l) + cs - 1) / cs * cs).
    { pose proof (Z.mod_pos_bound (Z.of_nat (length l) + cs - 1) cs Hcs).
      pose proof (Z.div_mod (Z.of_nat (length l) + cs - 1) cs ltac:(lia)). nia. }
    assert (0 <= (Z.of_nat (length l) + cs - 1) / cs) by (apply Z.div_pos; lia).
    nia.
  - intros k. rewrite Z.add_0_r. apply chunk_of_nat. exact Hcs.
Qed.

Section SenderProperties.

Context {U : Type} `{PayloadMarshaler U}.

Lemma conn_Write_nil (p : Protocol U) : conn_Write [] p = p.
Proof. destruct p as [[i o] ? ? ? ?]. unfold conn_Write. cbn. rewrite app_nil_r. reflexivity. Qed.

Lemma conn_Write_app a b (p : Protocol U) :
  conn_Write b (conn_Write a p) = conn_Write (a ++ b) p.
Proof. unfold conn_Write. cbn. rewrite app_assoc. reflexivity. Qed.

Lemma sendDirect_ok t id pl (p : Protocol U) data :
  MarshalMessage t id pl (opts p) = Ok data ->
  sendDirect t id pl p = (Ok tt, conn_Write (framed data) p).
Proof.
  intros HM. unfold sendDirect. rewrite HM. rewrite conn_Write_app. reflexivity.
Qed.

Lemma sendDirect_err t id pl (p : Protocol U) e :
  MarshalMessage t id pl (opts p) = Err e -> sendDirect t id pl p = (Err e, p).
Proof. intros HM. unfold sendDirect. rewrite HM. reflexivity. Qed.

(** A message whose payload serializes within the bound is marshalled
    when the signer does its part. *)
Lemma MarshalMessage_succeeds t id (pl : payload U) o bs :
  MarshalPayload pl = Ok bs -> len bs <= MaxPayloadSize -> signer_succeeds o ->
  exists data, MarshalMessage t id pl o = Ok data.
Proof.
  intros Hp Hlen Hs. rewrite (MarshalMessage_frame t id pl o bs Hp Hlen).
  destruct (signer_of o) as [s|] eqn:Hso; [|eexists; reflexivity].
  destruct (Hs s ([t] ++ PutUint32 id ++ PutUint32 (u32 (len bs)) ++ bs) Hso) as [sig Hsig].
  cbv zeta. rewrite Hsig. eexists. reflexivity.
Qed.

Lemma StreamHeader_fits h bs :
  StreamHeader_Marshal h = Ok bs -> len bs <= MaxPayloadSize.
Proof.
  unfold StreamHeader_Marshal, WriteUint64, WriteUint32. intros E. injection E as <-.
  cbn [app]. rewrite WriteVarint_app, (WriteVarint_app [_]), !len_app.
  pose proof (len_WriteVarint (TotalSize h)). pose proof (len_WriteVarint (TotalChunks h)).
  change (len [OriginalType h]) with 1.
  unfold MaxPayloadSize. lia.
Qed.

(** The chunk loop from index [i] with [n] turns left. *)
Lemma sendChunks_spec id cs payloadBytes n : forall i (p : Protocol U),
  0 < cs -> 0 <= i ->
  i + Z.of_nat n = total_chunks (len payloadBytes) cs ->
  len payloadBytes + cs - 1 < 2 ^ 63 ->
  total_chunks (len payloadBytes) cs < 2 ^ 32 ->
  chunks_fit cs payloadBytes -> signer_succeeds (opts p) ->
  exists ds,
    Forall2 (marshals_to (opts p))
      (map (chunk_message id cs payloadBytes) (seqZ i (Z.of_nat n))) ds /\
    sendChunks n i cs id payloadBytes p
    = (Ok tt, conn_Write (concat (map framed ds)) p).
Proof.
  induction n as [|n IH]; intros i p Hcs Hi HN Hov H32 Hfit Hsign.
  - exists []. split; [constructor|]. cbn. rewrite conn_Write_nil. reflexivity.
  - set (L := len payloadBytes) in *.
    set (N := total_chunks L cs) in *.
    assert (HL0 : 0 <= L) by apply len_nonneg.
    assert (HiN : i < N) by lia.
    assert (HNL : (N - 1) * cs < L).
    { unfold N, total_chunks.
      pose proof (Z.mod_pos_bound (L + cs - 1) cs Hcs).
      pose proof (Z.div_mod (L + cs - 1) cs ltac:(lia)). nia. }
    assert (Hstart : 0 <= i * cs < L) by nia.
    cbn [sendChunks]. fold L.
    rewrite (int_of_small (i * cs)) by lia.
    rewrite (int_of_small (i * cs + cs)) by lia.
    assert (Hend : (if i * cs + cs >? L then L else i * cs + cs)
                   = Z.min ((i + 1) * cs) L).
    { destruct (Z.gtb_spec (i * cs + cs) L); lia. }
    rewrite Hend.
    assert (Hslice : slice payloadBytes (i * cs) (Z.min ((i + 1) * cs) L)
                     = Some (chunk_of cs payloadBytes i)).
    { unfold slice. fold L.
      destruct (Z.leb_spec 0 (i * cs)); [|lia].
      destruct (Z.leb_spec (i * cs) (Z.min ((i + 1) * cs) L)); [|lia].
      destruct (Z.leb_spec (Z.min ((i + 1) * cs) L) L); [|lia]. reflexivity. }
    rewrite Hslice.
    destruct (StreamChunk_Marshal (mkStreamChunk i (chunk_of cs payloadBytes i)))
      as [bs| |] eqn:Hbs; try discriminate Hbs.
    assert (Hfits : len bs <= MaxPayloadSize) by (apply (Hfit i bs); [fold L N; lia|exact Hbs]).
    destruct (MarshalMessage_succeeds MessageTypeStreamChunk id
                (PStreamChunk (mkStreamChunk i (chunk_of cs payloadBytes i)))
                (opts p) bs Hbs Hfits Hsign) as [d Hd].
    rewrite (sendDirect_ok _ _ _ p d Hd).
    rewrite (u32_small (i + 1)) by (unfold is_u32; lia).
    destruct (IH (i + 1) (conn_Write (framed d) p) Hcs ltac:(lia) ltac:(fold L N; lia)
                Hov H32 Hfit Hsign) as (ds & Hds & Hrun).
    exists (d :: ds). split.
    + rewrite seqZ_cons by lia. cbn [map].
      replace (Z.pred (Z.of_nat (S n))) with (Z.of_nat n) by lia.
      constructor; [exact Hd|exact Hds].
    + rewrite Hrun. cbn [map concat]. rewrite conn_Write_app. reflexivity.
Qed.

Lemma SendMessage_streams t id (pl : payload U) (p : Protocol U) payloadBytes :
  MarshalPayload pl = Ok payloadBytes ->
  Enabled (streamConfig p) = true ->
  Threshold (streamConfig p) <= len payloadBytes ->
  SendMessage t id pl p = sendStreamed t id payloadBytes p.
Proof.
  intros Hp Hen Hth. unfold SendMessage. rewrite Hp, Hen.
  destruct (Z.geb_spec (len payloadBytes) (Threshold (streamConfig p))); [reflexivity|lia].
Qed.

Lemma total_chunks_nonneg L cs : 0 <= L -> 0 < cs -> 0 <= total_chunks L cs.
Proof. intros HL Hcs. unfold total_chunks. apply Z.div_pos; lia. Qed.


(** C3, as the code has it. Streamed send sequence: with a positive chunk size,
    no overflow in the chunk count ([L + chunk_size - 1 < 2^63],
    [total_chunks < 2^32]), every CHUNK payload within the 100 MiB bound
    and a signer that signs, [sendStreamed] writes, in order and under
    one message id, the frames of the START message
    [StreamHeader{original_type, L, ceil(L / chunk_size)}], of one CHUNK
    message per index [i] with data
    [payload[i*chunk_size .. min((i+1)*chunk_size, L)]], and of the END
    message with empty payload; the chunk data concatenated in index
    order is the payload; and [SendMessage] takes this path when
    streaming is enabled and [L >= threshold]. *)
Theorem streamed_send_sequence :
  forall (p : Protocol U) t id payloadBytes,
    let cs := ChunkSize (streamConfig p) in
    let L := len payloadBytes in
    0 < cs -> L + cs - 1 < 2 ^ 63 -> total_chunks L cs < 2 ^ 32 ->
    chunks_fit cs payloadBytes -> signer_succeeds (opts p) ->
    (exists ds,
       Forall2 (marshals_to (opts p)) (stream_messages t id cs payloadBytes) ds /\
       sendStreamed t id payloadBytes p
       = (Ok tt, conn_Write (concat (map framed ds)) p)) /\
    concat (map (chunk_of cs payloadBytes) (seqZ 0 (total_chunks L cs))) = payloadBytes /\
    (forall pl,
       MarshalPayload pl = Ok payloadBytes ->
       Enabled (streamConfig p) = true -> Threshold (streamConfig p) <= L ->
       SendMessage t id pl p = sendStreamed t id payloadBytes p).
Proof.
  intros p t id payloadBytes cs L Hcs Hov H32 Hfit Hsign.
  assert (HL0 : 0 <= L) by apply len_nonneg.
  pose proof (total_chunks_nonneg L cs HL0 Hcs) as HN0.
  split; [|split].
  - unfold sendStreamed. fold cs L.
    destruct (Z.eqb_spec cs 0); [lia|].
    rewrite (int_of_small (L + cs - 1)) by lia.
    rewrite Z.quot_div_nonneg by lia. fold (total_chunks L cs).
    rewrite (u32_small (total_chunks L cs)) by (unfold is_u32; lia).
    rewrite (u64_small L)
      by (unfold is_u64; split; [lia|]; change (2 ^ 64) with (2 ^ 63 + 2 ^ 63); lia).
    set (hdr := mkStreamHeader t L (total_chunks L cs)).
    destruct (StreamHeader_Marshal hdr) as [hb| |] eqn:Hhb; try discriminate Hhb.
    destruct (MarshalMessage_succeeds MessageTypeStreamStart id (PStreamHeader hdr)
                (opts p) hb Hhb (StreamHeader_fits hdr hb Hhb) Hsign) as [d0 Hd0].
    rewrite (sendDirect_ok _ _ _ p d0 Hd0).
    destruct (sendChunks_spec id cs payloadBytes (Z.to_nat (total_chunks L cs)) 0
                (conn_Write (framed d0) p) Hcs ltac:(lia)
                ltac:(fold L; rewrite Z2Nat.id by lia; lia) Hov H32 Hfit Hsign)
      as (ds & Hds & Hrun).
    rewrite Hrun. rewrite Z2Nat.id in Hds by lia.
    destruct (MarshalMessage_succeeds MessageTypeStreamEnd id (PBytes [])
                (opts p) [] eq_refl ltac:(vm_compute; discriminate) Hsign) as [d1 Hd1].
    rewrite (sendDirect_ok _ _ _
               (conn_Write (concat (map framed ds)) (conn_Write (framed d0) p)) d1 Hd1).
    exists (d0 :: ds ++ [d1]). split.
    + unfold stream_messages. fold L. cbn [app]. constructor; [exact Hd0|].
      apply Forall2_app; [exact Hds|]. constructor; [exact Hd1|constructor].
    + rewrite !conn_Write_app. cbn [map concat].
      rewrite map_app, concat_app. cbn [map concat]. rewrite app_nil_r.
      reflexivity.
  - apply concat_chunk_of. exact Hcs.
  - intros pl Hp Hen Hth. apply SendMessage_streams; assumption.
Qed.

(** When the chunk size is the payload length and exceeds the bound,
    the single CHUNK message cannot be marshalled: the send stops after
    the START frame. *)
Lemma sendStreamed_oversize (p : Protocol U) t id payloadBytes :
  ChunkSize (streamConfig p) = len payloadBytes ->
  MaxPayloadSize < len payloadBytes -> len payloadBytes < 2 ^ 62 ->
  signer_succeeds (opts p) ->
  exists d0,
    MarshalMessage 250 id
      (PStreamHeader (mkStreamHeader t (len payloadBytes) 1)) (opts p) = Ok d0 /\
    sendStreamed t id payloadBytes p
    = (Err ErrPayloadTooLarge, conn_Write (framed d0) p).
Proof.
  intros Hcs Hbig Hsmall Hsign. set (L := len payloadBytes) in *.
  assert (HL : 0 < L) by (unfold MaxPayloadSize in Hbig; lia).
  assert (H62 : 2 ^ 63 = 2 ^ 62 + 2 ^ 62) by reflexivity.
  unfold sendStreamed. rewrite Hcs. fold L.
  destruct (Z.eqb_spec L 0); [lia|].
  rewrite (int_of_small (L + L - 1)) by lia.
  rewrite Z.quot_div_nonneg by lia.
  replace ((L + L - 1) / L) with 1 by (apply (Z.div_unique _ _ 1 (L - 1)); lia).
  rewrite (u64_small L)
    by (unfold is_u64; split; [lia|]; change (2 ^ 64) with (2 ^ 63 + 2 ^ 63); lia).
  change (u32 1) with 1.
  set (hdr := mkStreamHeader t L 1).
  destruct (StreamHeader_Marshal hdr) as [hb| |] eqn:Hhb; try discriminate Hhb.
  destruct (MarshalMessage_succeeds MessageTypeStreamStart id (PStreamHeader hdr)
              (opts p) hb Hhb (StreamHeader_fits hdr hb Hhb) Hsign) as [d0 Hd0].
  exists d0. split; [exact Hd0|].
  rewrite (sendDirect_ok _ _ _ p d0 Hd0).
  change (Z.to_nat 1) with 1%nat. cbn [sendChunks]. fold L.
  rewrite Z.mul_0_l. rewrite (int_of_small 0) by lia. rewrite Z.add_0_l.
  rewrite (int_of_small L) by lia.
  destruct (Z.gtb_spec L L); [lia|].
  assert (Hslice : slice payloadBytes 0 L = Some (sub payloadBytes 0 L)).
  { unfold slice. fold L. destruct (Z.leb_spec 0 L); [|lia].
    destruct (Z.leb_spec L L); [|lia]. reflexivity. }
  rewrite Hslice.
  assert (Hsub : len (sub payloadBytes 0 L) = L).
  { unfold sub, len. rewrite Z.sub_0_r. change (Z.to_nat 0) with 0%nat. rewrite skipn_O.
    rewrite firstn_all2; [reflexivity|]. unfold L, len. lia. }
  set (chunk := mkStreamChunk 0 (sub payloadBytes 0 L)).
  destruct (StreamChunk_Marshal chunk) as [bs| |] eqn:Hbs; try discriminate Hbs.
  assert (Hlen : MaxPayloadSize < len bs).
  { unfold StreamChunk_Marshal, WriteBytes in Hbs. injection Hbs as <-.
    rewrite len_app. cbn [Data chunk]. rewrite Hsub.
    match goal with
    | |- context [len (WriteVarint ?a ?b)] => pose proof (len_nonneg (WriteVarint a b))
    end. lia. }
  rewrite (sendDirect_err MessageTypeStreamChunk id (PStreamChunk chunk)
             (conn_Write (framed d0) p) ErrPayloadTooLarge).
  - reflexivity.
  - apply (MarshalMessage_too_large _ _ (PStreamChunk chunk) _ bs Hbs Hlen).
Qed.

Lemma len_sub_le (b : bytes) lo hi : len (sub b lo hi) <= Z.max 0 (hi - lo).
Proof.
  unfold sub, len. pose proof (firstn_le_length (Z.to_nat (hi - lo)) (skipn (Z.to_nat lo) b)).
  lia.
Qed.

(** A chunk size twenty bytes under the bound is always enough room. *)
Lemma chunks_fit_small cs (payloadBytes : bytes) :
  0 < cs -> cs + 20 <= MaxPayloadSize -> chunks_fit cs payloadBytes.
Proof.
  intros Hcs Hmax i bs Hi Hbs.
  unfold StreamChunk_Marshal, WriteBytes, WriteUint32 in Hbs. injection Hbs as <-.
  cbn [ChunkIndex Data]. rewrite len_app, WriteVarint_app, len_app.
  pose proof (len_WriteVarint i).
  pose proof (len_WriteVarint (len (chunk_of cs payloadBytes i))).
  pose proof (len_sub_le payloadBytes (i * cs)
                (Z.min ((i + 1) * cs) (len payloadBytes))) as Hsub.
  fold (chunk_of cs payloadBytes i) in Hsub. lia.
Qed.

End SenderProperties.

(** C3, counterexample. Streaming enabled, threshold 1 MiB, chunk size
    128 MiB and a payload of 128 MiB: the START frame is written, the
    one CHUNK message exceeds the 100 MiB bound of [MarshalMessage], and
    the send fails with [ErrPayloadTooLarge] after the START frame; no
    CHUNK and no END frame is written. *)
Lemma oversize_chunk_aborts_stream :
  Enabled (streamConfig bigChunkSender) = true /\
  Threshold (streamConfig bigChunkSender) <= len bigPayload /\
  exists d0,
    MarshalMessage (U:=Empty_set) 250 9
      (PStreamHeader (mkStreamHeader 7 (len bigPayload) 1)) None = Ok d0 /\
    sendStreamed 7 9 bigPayload bigChunkSender
    = (Err ErrPayloadTooLarge, conn_Write (framed d0) bigChunkSender) /\
    SendMessage 7 9 (PBytes bigPayload) bigChunkSender
    = (Err ErrPayloadTooLarge, conn_Write (framed d0) bigChunkSender).
Proof.
  assert (Hlen : len bigPayload = 134217728).
  { unfold len, bigPayload. rewrite repeat_length. apply Z2Nat.id. lia. }
  assert (Hth : Threshold (streamConfig bigChunkSender) <= len bigPayload).
  { rewrite Hlen. change (1048576 <= 134217728). lia. }
  split; [reflexivity|]. split; [exact Hth|].
  destruct (sendStreamed_oversize bigChunkSender 7 9 bigPayload) as (d0 & Hd0 & Hsend).
  - rewrite Hlen. reflexivity.
  - rewrite Hlen. reflexivity.
  - rewrite Hlen. reflexivity.
  - intros signer d E. discriminate E.
  - exists d0. split; [exact Hd0|]. split; [exact Hsend|].
    rewrite (SendMessage_streams 7 9 (PBytes bigPayload) bigChunkSender bigPayload
               eq_refl eq_refl Hth).
    exact Hsend.
Qed.

(** [streamed_send_sequence] at a three-byte payload sent in two-byte
    chunks. *)
Lemma streamed_send_sequence_witness :
  (0 < 2 /\ chunks_fit 2 [1; 2; 3] /\ signer_succeeds (opts smallChunkSender)) /\
  (exists ds,
     Forall2 (marshals_to (opts smallChunkSender)) (stream_messages 7 9 2 [1; 2; 3]) ds /\
     sendStreamed 7 9 [1; 2; 3] smallChunkSender
     = (Ok tt, conn_Write (concat (map framed ds)) smallChunkSender)) /\
  concat (map (chunk_of 2 [1; 2; 3]) (seqZ 0 (total_chunks 3 2))) = [1; 2; 3].
Proof.
  assert (H0 : 0 < 2) by lia.
  assert (Hfit : chunks_fit 2 [1; 2; 3])
    by (apply chunks_fit_small; [lia | vm_compute; discriminate]).
  assert (Hs : signer_succeeds (opts smallChunkSender))
    by (intros signer d E; discriminate E).
  split; [repeat split; assumption|].
  pose proof (streamed_send_sequence (U:=Empty_set) smallChunkSender 7 9 [1; 2; 3]
                H0 ltac:(vm_compute; reflexivity) ltac:(vm_compute; reflexivity)
                Hfit Hs) as (W1 & W2 & _).
  split; [exact W1|exact W2].
Defined.

(** ** Receiving a stream *)

Lemma StreamHeader_round_trip h bs :
  is_u64 (TotalSize h) -> is_u32 (TotalChunks h) ->
  StreamHeader_Marshal h = Ok bs -> StreamHeader_Unmarshal bs = Ok h.
Proof.
  intros Hs Hc E. unfold StreamHeader_Marshal, WriteUint64, WriteUint32 in E.
  injection E as <-. cbn [app].
  rewrite WriteVarint_app, (WriteVarint_app [_]). rewrite <- app_assoc. cbn [app].
  unfold StreamHeader_Unmarshal, ReadUint64, ReadUint32. cbn [ReadByte bind].
  rewrite ReadVarint_WriteVarint by exact Hs. cbn [bind].
  rewrite <- (app_nil_r (WriteVarint [] (TotalChunks h))).
  rewrite ReadVarint_WriteVarint
    by (destruct Hc as [Hc0 Hc1]; split; [exact Hc0|];
        eapply Z.lt_trans; [exact Hc1|reflexivity]).
  cbn [bind]. destruct Hc as [Hc0 Hc1].
  destruct (Z.gtb_spec (TotalChunks h) 4294967295) as [Hgt|_].
  - exfalso. change (2 ^ 32) with 4294967296 in Hc1. lia.
  - rewrite u32_small by (split; assumption). destruct h; reflexivity.
Qed.

Lemma StreamChunk_round_trip c bs :
  is_u32 (ChunkIndex c) -> len (Data c) <= 2 ^ 30 ->
  StreamChunk_Marshal c = Ok bs -> StreamChunk_Unmarshal bs = Ok c.
Proof.
  intros Hi Hd E. unfold StreamChunk_Marshal, WriteBytes, WriteUint32 in E.
  injection E as <-. rewrite WriteVarint_app. rewrite <- app_assoc.
  unfold StreamChunk_Unmarshal, ReadUint32, ReadBytes.
  assert (Hi64 : is_u64 (ChunkIndex c)).
  { destruct Hi as [Hi0 Hi1]. split; [exact Hi0|].
    eapply Z.lt_trans; [exact Hi1|reflexivity]. }
  rewrite ReadVarint_WriteVarint by exact Hi64. cbn [bind].
  destruct Hi as [Hi0 Hi1].
  destruct (Z.gtb_spec (ChunkIndex c) 4294967295) as [Hgt|_].
  { exfalso. change (2 ^ 32) with 4294967296 in Hi1. lia. }
  cbn [bind].
  pose proof (len_nonneg (Data c)) as Hd0.
  rewrite ReadVarint_WriteVarint
    by (split; [exact Hd0|]; eapply Z.le_lt_trans; [exact Hd|reflexivity]).
  cbn [bind].
  destruct (Z.gtb_spec (len (Data c)) (2 ^ 30)) as [Hgt|_]; [lia|].
  rewrite <- (app_nil_r (Data c)) at 1. rewrite ReadFull_app. cbn [bind].
  rewrite u32_small by (split; assumption). destruct c; reflexivity.
Qed.

(** The slice [b[0:n]] of a buffer that starts with [n] known bytes. *)
Lemma slice_prefix (a b : bytes) : slice (a ++ b) 0 (len a) = Some a.
Proof.
  unfold slice. pose proof (len_nonneg a). pose proof (len_nonneg b).
  rewrite len_app.
  destruct (Z.leb_spec 0 (len a)); [|lia].
  destruct (Z.leb_spec (len a) (len a + len b)); [|lia].
  cbn [andb]. unfold sub. rewrite Z.sub_0_r. unfold len at 1. rewrite Nat2Z.id.
  change (Z.to_nat 0) with 0%nat. rewrite skipn_O.
  rewrite firstn_app, Nat.sub_diag, firstn_all. simpl. rewrite app_nil_r. reflexivity.
Qed.

Section SignatureCheck.

Context {U : Type} `{PayloadMarshaler U}.

(** The signature check on a frame of the documented layout, whatever
    follows the frame. *)
Lemma checkSignature_fixed_frame t id (bs sig rest : bytes) (o : option (MessageOptions U)) :
  len bs <= MaxPayloadSize ->
  checkSignature (fixed_frame t id bs sig ++ rest) o (len bs) (len sig) sig
  = match verifier_of o with
    | Some verifier =>
        if len sig =? 0 then Err ErrSignatureRequired
        else match Verify verifier
                     ([t] ++ PutUint32 id ++ PutUint32 (u32 (len bs)) ++ bs) sig with
             | Ok _ => Ok tt
             | Err _ => Err ErrInvalidSignature
             | Panic => Panic
             end
    | None => Ok tt
    end.
Proof.
  intros Hlen. unfold checkSignature.
  destruct (verifier_of o) as [v|]; [|reflexivity].
  destruct (len sig =? 0); [reflexivity|].
  set (covered := [t] ++ PutUint32 id ++ PutUint32 (u32 (len bs)) ++ bs).
  assert (Hd : fixed_frame t id bs sig ++ rest
               = covered ++ (PutUint32 (u32 (len sig)) ++ sig ++ rest)).
  { unfold fixed_frame, covered. rewrite <- !app_assoc. reflexivity. }
  assert (Hc : HeaderSize + len bs = len covered).
  { unfold covered. rewrite !len_app, !len_PutUint32.
    change (len [t]) with 1. change HeaderSize with 9. lia. }
  rewrite Hd, Hc, slice_prefix. reflexivity.
Qed.

End SignatureCheck.

Section ReceiverProperties.

Context {U : Type} `{PayloadMarshaler U}.
Variable globalRegistry : PayloadRegistry U.

Lemma decodePayload_reserved o t bs :
  registries_reachable globalRegistry o -> 250 <= t ->
  decodePayload globalRegistry o t bs
  = match Get (NewPayloadRegistry (U:=U)) t with
    | Factory unmarshal => let* p := unmarshal bs in Ok p
    | FactoryNil => if strict_of o then Err ErrUnknownMessageType else Ok (PBytes bs)
    end.
Proof.
  intros [Hg Hr] Ht. unfold decodePayload.
  destruct (registry_of o) as [r|] eqn:Hreg.
  - unfold UnmarshalPayloadWithRegistryStrict.
    rewrite (reachable_Get_reserved r t (Hr r eq_refl) Ht). reflexivity.
  - unfold UnmarshalPayloadStrict.
    rewrite (reachable_Get_reserved globalRegistry t Hg Ht). reflexivity.
Qed.

Lemma bind_Ok_id {A} (c : result A) : (let* p := c in Ok p) = c.
Proof. destruct c; reflexivity. Qed.

Lemma marshals_to_inv t id (pl : payload U) so d :
  MarshalMessage t id pl so = Ok d -> signer_of so = None ->
  exists bs, MarshalPayload pl = Ok bs /\ len bs <= MaxPayloadSize /\
             d = fixed_frame t id bs [].
Proof.
  intros HM Hs. destruct (MarshalPayload pl) as [bs| |] eqn:Hp.
  - destruct (Z.le_gt_cases (len bs) MaxPayloadSize) as [Hle|Hgt].
    + rewrite (MarshalMessage_frame t id pl so bs Hp Hle), Hs in HM.
      injection HM as <-. exists bs. repeat split; assumption.
    + rewrite (MarshalMessage_too_large t id pl so bs Hp) in HM by lia. discriminate HM.
  - unfold MarshalMessage in HM. rewrite Hp in HM. discriminate HM.
  - unfold MarshalMessage in HM. rewrite Hp in HM. discriminate HM.
Qed.

Lemma UnmarshalMessage_plain t id bs o :
  verifier_of o = None -> is_u32 id -> len bs <= MaxPayloadSize ->
  UnmarshalMessage globalRegistry (fixed_frame t id bs []) o
  = (Some (mkMessage t id bs []), decodePayload globalRegistry o t bs).
Proof.
  intros Hv Hid Hlen. rewrite <- (app_nil_r (fixed_frame t id bs [])).
  rewrite UnmarshalMessage_fixed_frame;
    [|assumption|assumption|vm_compute; intuition discriminate].
  unfold checkSignature. rewrite Hv. reflexivity.
Qed.

(** What [MarshalMessage] returns: the documented frame, carrying the
    signer's output if there is a signer. *)
Lemma MarshalMessage_inv t id (pl : payload U) so d :
  MarshalMessage t id pl so = Ok d ->
  exists bs sig,
    MarshalPayload pl = Ok bs /\ len bs <= MaxPayloadSize /\
    d = fixed_frame t id bs sig /\
    match signer_of so with
    | Some signer =>
        Sign signer ([t] ++ PutUint32 id ++ PutUint32 (u32 (len bs)) ++ bs) = Ok sig
    | None => sig = []
    end.
Proof.
  intros HM. destruct (MarshalPayload pl) as [bs| |] eqn:Hp.
  - destruct (Z.le_gt_cases (len bs) MaxPayloadSize) as [Hle|Hgt].
    + rewrite (MarshalMessage_frame t id pl so bs Hp Hle) in HM.
      destruct (signer_of so) as [s|].
      * cbv zeta in HM.
        destruct (Sign s _) as [sig|e|] eqn:Hsig; cbn [bind] in HM; try discriminate HM.
        injection HM as <-. exists bs, sig. repeat split; assumption.
      * injection HM as <-. exists bs, []. repeat split; assumption.
    + rewrite (MarshalMessage_too_large t id pl so bs Hp) in HM by lia. discriminate HM.
  - unfold MarshalMessage in HM. rewrite Hp in HM. discriminate HM.
  - unfold MarshalMessage in HM. rewrite Hp in HM. discriminate HM.
Qed.

(** A frame whose signature the receiver accepts is parsed. *)
Lemma UnmarshalMessage_accepted t id bs sig (so ro : option (MessageOptions U)) :
  signatures_accepted so ro ->
  match signer_of so with
  | Some signer =>
      Sign signer ([t] ++ PutUint32 id ++ PutUint32 (u32 (len bs)) ++ bs) = Ok sig
  | None => sig = []
  end ->
  is_u32 id -> len bs <= MaxPayloadSize -> is_u32 (len sig) ->
  UnmarshalMessage globalRegistry (fixed_frame t id bs sig) ro
  = (Some (mkMessage t id bs sig), decodePayload globalRegistry ro t bs).
Proof.
  intros Hacc Hsig Hid Hlen Hs32. rewrite <- (app_nil_r (fixed_frame t id bs sig)).
  rewrite UnmarshalMessage_fixed_frame by assumption.
  rewrite checkSignature_fixed_frame by assumption.
  destruct (verifier_of ro) as [v|] eqn:Hv; [|reflexivity].
  destruct (Hacc v Hv) as (s & Hs & Hok). rewrite Hs in Hsig.
  destruct (Hok _ _ Hsig) as [Hne Hver].
  destruct (Z.eqb_spec (len sig) 0) as [E|_].
  - destruct sig as [|x sig]; [contradiction|]. rewrite len_cons in E.
    pose proof (len_nonneg sig). lia.
  - rewrite Hver. reflexivity.
Qed.

Lemma receiveRaw_framed (p : Protocol U) d rest :
  inbound (conn p) = framed d ++ rest ->
  len d <= MaxPayloadSize + HeaderSize + SignatureLengthSize + 1024 ->
  receiveRaw globalRegistry p
  = (UnmarshalMessage globalRegistry d (opts p), set_inbound rest p).
Proof.
  intros Hin Hlen. unfold receiveRaw. rewrite Hin. unfold framed.
  rewrite <- app_assoc.
  change 4 with (len (PutUint32 (u32 (len d)))). rewrite ReadFull_app.
  pose proof (len_nonneg d) as Hd0.
  assert (Hd32 : is_u32 (len d)).
  { split; [exact Hd0|]. eapply Z.le_lt_trans; [exact Hlen|]. reflexivity. }
  rewrite (u32_small _ Hd32), (Uint32_PutUint32 _ Hd32).
  destruct (Z.gtb_spec (len d) (MaxPayloadSize + HeaderSize + SignatureLengthSize + 1024));
    [lia|].
  rewrite ReadFull_app. reflexivity.
Qed.

(** Receiving one frame that the sender marshalled, that is within the
    frame bound and whose signature the receiver accepts. *)
Lemma receiveRaw_message (p : Protocol U) t id pl so d rest :
  inbound (conn p) = framed d ++ rest ->
  MarshalMessage t id pl so = Ok d -> within_frame_bound d ->
  signatures_accepted so (opts p) -> is_u32 id ->
  exists bs sig,
    MarshalPayload pl = Ok bs /\ len bs <= MaxPayloadSize /\
    d = fixed_frame t id bs sig /\
    receiveRaw globalRegistry p
    = (Some (mkMessage t id bs sig), decodePayload globalRegistry (opts p) t bs,
       set_inbound rest p).
Proof.
  intros Hin HM Hb Hacc Hid.
  destruct (MarshalMessage_inv t id pl so d HM) as (bs & sig & Hp & Hlen & -> & Hsig).
  exists bs, sig. split; [exact Hp|]. split; [exact Hlen|]. split; [reflexivity|].
  rewrite (receiveRaw_framed p _ rest Hin Hb).
  rewrite (UnmarshalMessage_accepted t id bs sig so (opts p)); try assumption; [reflexivity|].
  unfold within_frame_bound in Hb. rewrite len_fixed_frame in Hb.
  pose proof (len_nonneg bs). pose proof (len_nonneg sig).
  change HeaderSize with 9 in Hb. change SignatureLengthSize with 4 in Hb.
  unfold MaxPayloadSize in Hb. split; [lia|].
  apply Z.le_lt_trans with (100 * 1024 * 1024 + 9 + 4 + 1024); [lia|reflexivity].
Qed.

Lemma loop_START k (p : Protocol U) id hdr so d rest :
  inbound (conn p) = framed d ++ rest ->
  MarshalMessage MessageTypeStreamStart id (PStreamHeader hdr) so = Ok d ->
  within_frame_bound d -> signatures_accepted so (opts p) ->
  registries_reachable globalRegistry (opts p) ->
  is_u32 id -> is_u64 (TotalSize hdr) -> is_u32 (TotalChunks hdr) ->
  ReceiveMessage_loop globalRegistry (S k) p
  = ReceiveMessage_loop globalRegistry k (startStream id hdr (set_inbound rest p)).
Proof.
  intros Hin HM Hs Hv Hreg Hid Hsz Hch. cbn [ReceiveMessage_loop].
  destruct (receiveRaw_message p _ id _ so d rest Hin HM Hs Hv Hid)
    as (bs & sig & Hp & Hlen & _ & Hraw).
  rewrite Hraw. rewrite decodePayload_reserved by (assumption || (vm_compute; discriminate)).
  rewrite Get_new_StreamStart, bind_Ok_id. unfold StreamHeader_factory.
  cbn [MarshalPayload] in Hp. rewrite (StreamHeader_round_trip hdr bs Hsz Hch Hp).
  cbn [bind MsgType ID]. rewrite Z.eqb_refl. reflexivity.
Qed.

Lemma StreamChunk_Marshal_len c bs :
  StreamChunk_Marshal c = Ok bs -> len (Data c) <= len bs.
Proof.
  unfold StreamChunk_Marshal, WriteBytes. intros E. injection E as <-.
  rewrite len_app.
  match goal with
  | |- context [len (WriteVarint ?a ?b)] => pose proof (len_nonneg (WriteVarint a b))
  end. lia.
Qed.

Lemma loop_CHUNK k (p : Protocol U) id c so d rest :
  inbound (conn p) = framed d ++ rest ->
  MarshalMessage MessageTypeStreamChunk id (PStreamChunk c) so = Ok d ->
  within_frame_bound d -> signatures_accepted so (opts p) ->
  registries_reachable globalRegistry (opts p) ->
  is_u32 id -> is_u32 (ChunkIndex c) ->
  ReceiveMessage_loop globalRegistry (S k) p
  = match addChunk id c (set_inbound rest p) with
    | (Ok (complete, assembledPayload), p2) =>
        if complete then
          match activeStreams p2 !! id with
          | Some assembler =>
              deliver globalRegistry (OriginalType (header assembler)) id assembledPayload
                (set_activeStreams (delete id (activeStreams p2)) p2)
          | None => (Panic, p2)
          end
        else ReceiveMessage_loop globalRegistry k p2
    | (Err e, p2) => (Err e, p2)
    | (Panic, p2) => (Panic, p2)
    end.
Proof.
  intros Hin HM Hs Hv Hreg Hid Hidx. cbn [ReceiveMessage_loop].
  destruct (receiveRaw_message p _ id _ so d rest Hin HM Hs Hv Hid)
    as (bs & sig & Hp & Hlen & _ & Hraw).
  rewrite Hraw. rewrite decodePayload_reserved by (assumption || (vm_compute; discriminate)).
  rewrite Get_new_StreamChunk, bind_Ok_id. unfold StreamChunk_factory.
  cbn [MarshalPayload] in Hp.
  rewrite (StreamChunk_round_trip c bs Hidx).
  - cbn [bind MsgType ID]. change (MessageTypeStreamChunk =? MessageTypeStreamStart) with false.
    rewrite Z.eqb_refl. reflexivity.
  - eapply Z.le_trans; [apply (StreamChunk_Marshal_len c bs Hp)|].
    eapply Z.le_trans; [exact Hlen|]. vm_compute. discriminate.
  - exact Hp.
Qed.

Lemma loop_END_strict k (p : Protocol U) id pl so d rest :
  inbound (conn p) = framed d ++ rest ->
  MarshalMessage MessageTypeStreamEnd id pl so = Ok d ->
  within_frame_bound d -> signatures_accepted so (opts p) ->
  registries_reachable globalRegistry (opts p) -> is_u32 id ->
  strict_of (opts p) = true ->
  ReceiveMessage_loop globalRegistry (S k) p
  = (Err ErrUnknownMessageType, set_inbound rest p).
Proof.
  intros Hin HM Hs Hv Hreg Hid Hstrict. cbn [ReceiveMessage_loop].
  destruct (receiveRaw_message p _ id _ so d rest Hin HM Hs Hv Hid)
    as (bs & sig & Hp & Hlen & _ & Hraw).
  rewrite Hraw. rewrite decodePayload_reserved by (assumption || (vm_compute; discriminate)).
  rewrite Get_new_other by (unfold MessageTypeStreamEnd; lia).
  rewrite Hstrict. reflexivity.
Qed.

Lemma assembleStream_loop_spec n : forall i (m : gmap Z bytes) res,
  assembleStream_loop n i m res
  = res ++ concat (map (fun j => match m !! j with Some d => d | None => [] end)
                       (seqZ i (Z.of_nat n))).
Proof.
  induction n as [|n IH]; intros i m res.
  - cbn. rewrite app_nil_r. reflexivity.
  - cbn [assembleStream_loop]. rewrite IH. rewrite (seqZ_cons i (Z.of_nat (S n))) by lia.
    replace (Z.pred (Z.of_nat (S n))) with (Z.of_nat n) by lia.
    cbn [map concat]. rewrite <- app_assoc. reflexivity.
Qed.

Lemma assembleStream_complete a t cs (payloadBytes : bytes) :
  0 < cs ->
  header a = mkStreamHeader t (len payloadBytes) (total_chunks (len payloadBytes) cs) ->
  (forall j, 0 <= j < total_chunks (len payloadBytes) cs ->
             chunks a !! j = Some (chunk_of cs payloadBytes j)) ->
  assembleStream a = if len payloadBytes >? maxAlloc then Panic else Ok payloadBytes.
Proof.
  intros Hcs Hh Hall. unfold assembleStream. rewrite Hh. cbn [TotalChunks TotalSize].
  destruct (len payloadBytes >? maxAlloc); [reflexivity|]. f_equal.
  pose proof (total_chunks_nonneg (len payloadBytes) cs (len_nonneg _) Hcs) as HN.
  rewrite assembleStream_loop_spec, Z2Nat.id by exact HN. cbn [app].
  rewrite <- (concat_chunk_of cs payloadBytes Hcs) at 2. f_equal.
  apply map_ext_in. intros j Hj.
  apply list_elem_of_In, elem_of_seqZ in Hj. rewrite Hall by lia. reflexivity.
Qed.

Lemma set_inbound_activeStreams r (p : Protocol U) :
  activeStreams (set_inbound r p) = activeStreams p.
Proof. reflexivity. Qed.

(** The CHUNK frames [i .. N-1] of a stream arriving at a receiver that
    holds chunks [0 .. i-1]: the last one completes the stream and the
    logical message is delivered; what follows stays unread. *)
Lemma receive_chunk_run t id cs (payloadBytes : bytes) so n :
  forall i (p : Protocol U) ds tail fuel a,
    let N := total_chunks (len payloadBytes) cs in
    0 < cs -> N < 2 ^ 32 -> 0 <= i -> i + Z.of_nat (S n) = N ->
    len payloadBytes <= maxAlloc ->
    Forall2 (marshals_to so)
      (map (chunk_message id cs payloadBytes) (seqZ i (Z.of_nat (S n)))) ds ->
    List.Forall within_frame_bound ds -> signatures_accepted so (opts p) ->
    registries_reachable globalRegistry (opts p) -> is_u32 id ->
    inbound (conn p) = concat (map framed ds) ++ tail ->
    activeStreams p !! id = Some a ->
    header a = mkStreamHeader t (len payloadBytes) N -> received a = i ->
    (forall j, 0 <= j < i -> chunks a !! j = Some (chunk_of cs payloadBytes j)) ->
    (n < fuel)%nat ->
    ReceiveMessage_loop globalRegistry fuel p
    = deliver globalRegistry t id payloadBytes
        (set_activeStreams (delete id (activeStreams p)) (set_inbound tail p)).
Proof.
  induction n as [|n IH];
    intros i p ds tail fuel a N Hcs H32 Hi HN Hal Hds Hbs Hv Hreg Hid Hin Ha Hh Hr Hc Hfuel.
  all: destruct fuel as [|k]; [lia|].
  all: rewrite (seqZ_cons i) in Hds by lia; cbn [map] in Hds.
  all: inversion Hds as [|m d ms ds' Hd Hds' E1 E2]; subst m ms ds; clear Hds.
  all: inversion Hbs as [|d0 ds0 Hs Hbs' E1]; subst d0 ds0; clear Hbs.
  all: cbn [map concat] in Hin; rewrite <- app_assoc in Hin.
  all: unfold marshals_to, chunk_message in Hd.
  all: rewrite (loop_CHUNK k p id _ so d _ Hin Hd Hs Hv Hreg Hid)
         by (cbn [ChunkIndex]; unfold is_u32; lia).
  all: rewrite (addChunk_active _ id _ a) by (rewrite set_inbound_activeStreams; exact Ha).
  all: cbv zeta; cbn [received ChunkIndex Data header]; rewrite Hh, Hr; cbn [TotalChunks].
  all: fold N; rewrite (u32_small (i + 1)) by (unfold is_u32; lia).
  - (* the last chunk *)
    inversion Hds'; subst ds'. cbn [map concat app].
    destruct (Z.eqb_spec (i + 1) N) as [_|Hne]; [|lia].
    rewrite (assembleStream_complete _ t cs payloadBytes Hcs).
    + destruct (Z.gtb_spec (len payloadBytes) maxAlloc); [lia|]. cbn [bind].
      cbn [set_activeStreams activeStreams]. rewrite lookup_insert_eq. cbn [header].
      cbn [OriginalType]. rewrite delete_insert_eq. reflexivity.
    + reflexivity.
    + intros j Hj. cbn [chunks]. destruct (Z.eq_dec i j) as [<-|Hne].
      * apply lookup_insert_eq.
      * rewrite lookup_insert_ne by assumption. apply Hc. lia.
  - (* a chunk before the last *)
    destruct (Z.eqb_spec (i + 1) N) as [Heq|_]; [lia|].
    replace (Z.pred (Z.of_nat (S (S n)))) with (Z.of_nat (S n)) in Hds' by lia.
    match goal with
    | |- ReceiveMessage_loop _ _ ?q = _ => set (p2 := q)
    end.
    set (a' := mkStreamAssembler (mkStreamHeader t (len payloadBytes) N)
                 (<[i := chunk_of cs payloadBytes i]> (chunks a)) (i + 1)).
    rewrite (IH (i + 1) p2 ds' tail k a' Hcs H32 ltac:(lia) ltac:(lia) Hal Hds' Hbs' Hv Hreg Hid).
    + unfold p2. cbn [set_activeStreams set_inbound activeStreams conn inbound outbound opts
                        nextID streamConfig].
      rewrite delete_insert_eq. reflexivity.
    + unfold p2. cbn [set_activeStreams set_inbound conn inbound]. reflexivity.
    + unfold p2. cbn [set_activeStreams activeStreams]. apply lookup_insert_eq.
    + reflexivity.
    + reflexivity.
    + intros j Hj. cbn [chunks a']. destruct (Z.eq_dec i j) as [<-|Hne].
      * apply lookup_insert_eq.
      * rewrite lookup_insert_ne by assumption. apply Hc. lia.
    + lia.
Qed.

Lemma ReadFull_Ok (r : bytes) n a r' :
  ReadFull r n = Ok (a, r') -> r = a ++ r' /\ len a = Z.max 0 n.
Proof.
  unfold ReadFull. destruct (Z.leb_spec n 0) as [Hle|Hgt].
  - intros E. injection E as <- <-. split; [reflexivity|]. change (len []) with 0. lia.
  - destruct (len r =? 0); [discriminate|].
    destruct (Z.ltb_spec (len r) n) as [|Hge]; [discriminate|].
    intros E. injection E as <- <-. split.
    + symmetry. apply firstn_skipn.
    + unfold len in *. rewrite length_firstn. lia.
Qed.

Lemma receiveRaw_consumes (p : Protocol U) om pl p1 :
  receiveRaw globalRegistry p = (om, Ok pl, p1) ->
  (length (inbound (conn p1)) + 4 <= length (inbound (conn p)))%nat.
Proof.
  unfold receiveRaw.
  destruct (ReadFull (inbound (conn p)) 4) as [[lenBuf r1]| |] eqn:E1; try discriminate.
  destruct (ReadFull_Ok _ _ _ _ E1) as [Hr Hl]. 
  destruct (_ >? _); [discriminate|].
  destruct (ReadFull r1 (Uint32 lenBuf)) as [[data r2]| |] eqn:E2; try discriminate.
  destruct (ReadFull_Ok _ _ _ _ E2) as [Hr1 _].
  intros E. injection E as _ <-. cbn [set_inbound conn inbound].
  rewrite Hr, Hr1, !length_app. unfold len in Hl. lia.
Qed.

Lemma addChunk_conn msgID chunk (p : Protocol U) :
  conn (snd (addChunk msgID chunk p)) = conn p.
Proof.
  unfold addChunk. destruct (activeStreams p !! msgID); [|reflexivity].
  destruct (_ =? _); reflexivity.
Qed.

(** More fuel than pending bytes is never used up: the loop answers the
    same with any such amount. *)
Lemma ReceiveMessage_loop_fuel f1 : forall f2 (p : Protocol U),
  (length (inbound (conn p)) < f1)%nat -> (length (inbound (conn p)) < f2)%nat ->
  ReceiveMessage_loop globalRegistry f1 p = ReceiveMessage_loop globalRegistry f2 p.
Proof.
  induction f1 as [|k1 IH]; intros f2 p H1 H2; [lia|].
  destruct f2 as [|k2]; [lia|]. cbn [ReceiveMessage_loop].
  destruct (receiveRaw globalRegistry p) as [[om r] p1] eqn:Hraw.
  destruct r as [pl|e|]; [|destruct om; reflexivity|destruct om; reflexivity].
  destruct om as [msg|]; [|reflexivity].
  pose proof (receiveRaw_consumes p _ _ _ Hraw) as Hc.
  destruct (MsgType msg =? MessageTypeStreamStart).
  { destruct pl; try reflexivity. apply IH; cbn [startStream set_activeStreams conn]; lia. }
  destruct (MsgType msg =? MessageTypeStreamChunk).
  { destruct pl as [| | |chunk|]; try reflexivity.
    pose proof (addChunk_conn (ID msg) chunk p1) as Hconn.
    destruct (addChunk (ID msg) chunk p1) as [[[complete assembled]|e|] p2];
      try reflexivity.
    cbn [snd] in Hconn. destruct complete; [reflexivity|].
    apply IH; rewrite Hconn; lia. }
  destruct (MsgType msg =? MessageTypeStreamEnd); [|reflexivity].
  destruct (activeStreams p1 !! ID msg) as [a|].
  - destruct (_ =? _); [reflexivity|]. apply IH; lia.
  - apply IH; lia.
Qed.

Lemma length_concat_framed (ds : list bytes) :
  (length ds <= length (concat (map framed ds)))%nat.
Proof.
  induction ds as [|d ds IH]; [reflexivity|].
  cbn [map concat length]. rewrite length_app. unfold framed at 1.
  rewrite length_app, length_PutUint32. lia.
Qed.

(** C10, as the code has it. A receiver in strict mode, whose registries were
    built through the registry interface, reading frames that a sender
    marshalled, that pass the length check of [receiveRaw] and whose
    signatures its verifier, if it has one, accepts: (a) when the next
    frame is a type-252 STREAM_END frame, [ReceiveMessage] returns
    [ErrUnknownMessageType], no factory being registered for 252;
    (b) the frames of a streamed message with at least one chunk make
    [ReceiveMessage] return the reassembled logical message on the last
    CHUNK frame, the END frame staying unread, and it is the next call
    of [ReceiveMessage] that returns [ErrUnknownMessageType]. *)
Theorem strict_receiver_and_streams :
  forall (p : Protocol U) so,
    strict_of (opts p) = true ->
    registries_reachable globalRegistry (opts p) ->
    signatures_accepted so (opts p) ->
    (forall id pl d rest,
       is_u32 id ->
       MarshalMessage MessageTypeStreamEnd id pl so = Ok d -> within_frame_bound d ->
       inbound (conn p) = framed d ++ rest ->
       ReceiveMessage globalRegistry p
       = (Err ErrUnknownMessageType, set_inbound rest p)) /\
    (forall t id cs payloadBytes ds rest,
       is_u32 id -> 0 < cs -> len payloadBytes <= maxAlloc ->
       1 <= total_chunks (len payloadBytes) cs < 2 ^ 32 ->
       Forall2 (marshals_to so) (stream_messages t id cs payloadBytes) ds ->
       List.Forall within_frame_bound ds ->
       inbound (conn p) = concat (map framed ds) ++ rest ->
       exists d_end p1,
         MarshalMessage MessageTypeStreamEnd id (PBytes []) so = Ok d_end /\
         ReceiveMessage globalRegistry p
         = match UnmarshalPayload globalRegistry t payloadBytes with
           | Ok payloadObj => (Ok (mkMessage t id payloadBytes [], payloadObj), p1)
           | Err e => (Err e, p1)
           | Panic => (Panic, p1)
           end /\
         inbound (conn p1) = framed d_end ++ rest /\
         ReceiveMessage globalRegistry p1
         = (Err ErrUnknownMessageType, set_inbound rest p1)).
Proof.
  intros p so Hstrict Hreg Hacc. split.
  - intros id pl d rest Hid HM Hb Hin. unfold ReceiveMessage.
    apply (loop_END_strict _ p id pl so d rest); assumption.
  - intros t id cs payloadBytes ds rest Hid Hcs HL [HN1 HN32] Hds Hbs Hin.
    set (L := len payloadBytes) in *. set (N := total_chunks L cs) in *.
    unfold stream_messages in Hds. fold L N in Hds. cbn [app] in Hds.
    inversion Hds as [|m0 d0 ms ds1 Hd0 Hds1 E1 E2]; subst m0 ms ds; clear Hds.
    apply Forall2_app_inv_l in Hds1.
    destruct Hds1 as (dc & de & Hdc & Hde & ->).
    inversion Hde as [|m1 d1 ms1 dn Hd1 Hnil E1 E2]; subst m1 ms1 de; clear Hde.
    inversion Hnil; subst dn; clear Hnil.
    inversion Hbs as [|x xs Hb0 Hbs1 E1]; subst x xs; clear Hbs.
    apply List.Forall_app in Hbs1. destruct Hbs1 as [Hbc Hbe].
    inversion Hbe as [|x xs Hb1 _ E1]; subst x xs; clear Hbe.
    unfold marshals_to in Hd0, Hd1.
    cbn [map concat] in Hin. rewrite map_app, concat_app in Hin.
    cbn [map concat] in Hin. rewrite app_nil_r, <- !app_assoc in Hin.
    assert (Hlenc : length dc = Z.to_nat N).
    { rewrite <- (Forall2_length _ _ _ Hdc), length_map, length_seqZ. reflexivity. }
    remember (Z.to_nat N) as n eqn:Hn. destruct n as [|n]; [lia|].
    assert (HNn : N = Z.of_nat (S n)) by lia.
    rewrite HNn in Hdc.
    set (hdr := mkStreamHeader t L N).
    set (tail := framed d1 ++ rest).
    set (pS := startStream id hdr (set_inbound (concat (map framed dc) ++ tail) p)).
    exists d1, (set_activeStreams (delete id (activeStreams pS)) (set_inbound tail pS)).
    split; [exact Hd1|]. split; [|split].
    + unfold ReceiveMessage.
      rewrite (loop_START _ p id hdr so d0 _ Hin Hd0 Hb0 Hacc Hreg Hid).
      * fold pS.
        apply (receive_chunk_run t id cs payloadBytes so n 0 pS dc tail _
                 (mkStreamAssembler hdr ∅ 0)); try assumption; try reflexivity.
        -- fold L N. lia.
        -- apply startStream_state.
        -- intros j Hj. lia.
        -- rewrite Hin, !length_app. pose proof (length_concat_framed dc). lia.
      * cbn [TotalSize hdr]. unfold is_u64. pose proof (len_nonneg payloadBytes) as H0.
        fold L in H0. split; [lia|].
        apply Z.le_lt_trans with maxAlloc; [exact HL|reflexivity].
      * cbn [TotalChunks hdr]. unfold is_u32. lia.
    + reflexivity.
    + unfold ReceiveMessage.
      apply (loop_END_strict _ _ id (PBytes []) so d1 rest);
        try assumption; reflexivity.
Qed.

End ReceiverProperties.

(** C10, counterexample. A sender streams the payload [[1; 2; 3]] in
    two-byte chunks; a receiver in strict mode reading those frames gets
    the reassembled logical message from [ReceiveMessage], not
    [ErrUnknownMessageType]. *)
Lemma strict_receiver_delivers_stream :
  fst sentStream = Ok tt /\
  outbound (conn (snd sentStream))
  = framed startFrame ++ framed chunkFrame0 ++ framed chunkFrame1 ++ framed endFrame /\
  fst (ReceiveMessage NewPayloadRegistry
         (strictReceiver (outbound (conn (snd sentStream)))))
  = Ok (mkMessage 7 9 [1; 2; 3] [], PBytes [1; 2; 3]).
Proof. repeat split; vm_compute; reflexivity. Qed.

(** [strict_receiver_and_streams] on the frames of that three-byte
    stream as a signing sender writes them, read by a strict receiver
    that verifies them. *)
Lemma strict_receiver_and_streams_witness :
  ReceiveMessage NewPayloadRegistry (strictVerifyingReceiver (framed signedEndFrame))
  = (Err ErrUnknownMessageType,
     set_inbound [] (strictVerifyingReceiver (framed signedEndFrame))) /\
  (exists d_end p1,
     MarshalMessage MessageTypeStreamEnd 9 (PBytes []) (Some signing) = Ok d_end /\
     ReceiveMessage NewPayloadRegistry
       (strictVerifyingReceiver
          (concat (map framed [signedStartFrame; signedChunkFrame0;
                               signedChunkFrame1; signedEndFrame])))
     = (Ok (mkMessage 7 9 [1; 2; 3] [], PBytes [1; 2; 3]), p1) /\
     inbound (conn p1) = framed d_end ++ [] /\
     ReceiveMessage NewPayloadRegistry p1
     = (Err ErrUnknownMessageType, set_inbound [] p1)).
Proof.
  assert (Hid : is_u32 9) by (vm_compute; intuition discriminate).
  assert (Hreg : forall pending,
             registries_reachable NewPayloadRegistry
               (opts (strictVerifyingReceiver pending))).
  { intros pending. split; [constructor|]. intros r E. discriminate E. }
  assert (Hacc : forall pending,
             signatures_accepted (Some signing) (opts (strictVerifyingReceiver pending))).
  { intros pending v Hv. injection Hv as <-. exists toySigner. split; [reflexivity|].
    intros md sig Hsig. injection Hsig as <-. split; [discriminate|reflexivity]. }
  split.
  - apply (proj1 (strict_receiver_and_streams (U:=Empty_set) NewPayloadRegistry
                    (strictVerifyingReceiver (framed signedEndFrame)) (Some signing)
                    eq_refl (Hreg _) (Hacc _))
             9 (PBytes []) signedEndFrame [] Hid eq_refl).
    + vm_compute. discriminate.
    + vm_compute. reflexivity.
  - apply (proj2 (strict_receiver_and_streams (U:=Empty_set) NewPayloadRegistry
                    (strictVerifyingReceiver
                       (concat (map framed
                                  [signedStartFrame; signedChunkFrame0;
                                   signedChunkFrame1; signedEndFrame])))
                    (Some signing) eq_refl (Hreg _) (Hacc _))
             7 9 2 [1; 2; 3]
             [signedStartFrame; signedChunkFrame0; signedChunkFrame1; signedEndFrame]
             [] Hid).
    + lia.
    + vm_compute. discriminate.
    + vm_compute. split; [discriminate|reflexivity].
    + assert (E : stream_messages (U:=Empty_set) 7 9 2 [1; 2; 3]
                  = [(250, 9, PStreamHeader (mkStreamHeader 7 3 2));
                     (251, 9, PStreamChunk (mkStreamChunk 0 [1; 2]));
                     (251, 9, PStreamChunk (mkStreamChunk 1 [3]));
                     (252, 9, PBytes [])])
        by (vm_compute; reflexivity).
      rewrite E. repeat (constructor; [reflexivity|]). constructor.
    + repeat (constructor; [vm_compute; discriminate|]). constructor.
    + vm_compute. reflexivity.
Defined.

(** * Further properties of the code *)

(** ** Primitive codec *)

Lemma shiftr7_bounds v k :
  0 <= k -> 2 ^ (7 * (k + 1)) <= v < 2 ^ (7 * (k + 2)) ->
  2 ^ (7 * k) <= Z.shiftr v 7 < 2 ^ (7 * (k + 1)).
Proof.
  intros Hk Hv. rewrite Z.shiftr_div_pow2 by lia. change (2 ^ 7) with 128.
  replace (7 * (k + 1)) with (7 + 7 * k) in Hv by lia.
  replace (7 * (k + 2)) with (7 + 7 * (k + 1)) in Hv by lia.
  rewrite !Z.pow_add_r in Hv by lia. change (2 ^ 7) with 128 in Hv.
  split.
  - apply Z.div_le_lower_bound; lia.
  - apply Z.div_lt_upper_bound; lia.
Qed.

Lemma WriteVarint_loop_small fuel v :
  0 <= v < 128 -> WriteVarint_loop fuel [] v = [v].
Proof.
  intros Hv. assert (Hb : byte_of v = v) by (unfold byte_of; apply Z.mod_small; lia).
  destruct fuel; cbn [WriteVarint_loop app]; [rewrite Hb; reflexivity|].
  destruct (Z.geb_spec v 128); [lia|]. rewrite Hb. reflexivity.
Qed.

Lemma len_WriteVarint_loop_exact k : forall fuel v,
  (k <= fuel)%nat ->
  2 ^ (7 * Z.of_nat k) <= v < 2 ^ (7 * (Z.of_nat k + 1)) -> 0 <= v ->
  len (WriteVarint_loop fuel [] v) = Z.of_nat k + 1.
Proof.
  induction k as [|k IH]; intros fuel v Hf Hv Hv0.
  - change (2 ^ (7 * (Z.of_nat 0 + 1))) with 128 in Hv.
    rewrite WriteVarint_loop_small by lia. reflexivity.
  - destruct fuel as [|fuel]; [lia|]. cbn [WriteVarint_loop].
    assert (Hge : 128 <= v).
    { assert (2 ^ 7 <= 2 ^ (7 * Z.of_nat (S k))) by (apply Z.pow_le_mono_r; lia).
      change (2 ^ 7) with 128 in *. lia. }
    destruct (Z.geb_spec v 128); [|lia].
    rewrite WriteVarint_loop_app, len_app.
    change (len ([] ++ [Z.lor (byte_of v) 128])) with 1.
    rewrite (IH fuel (Z.shiftr v 7)).
    + lia.
    + lia.
    + replace (Z.of_nat (S k)) with (Z.of_nat k + 1) in Hv by lia.
      replace (Z.of_nat k + 1 + 1) with (Z.of_nat k + 2) in Hv by lia.
      apply shiftr7_bounds; [lia|exact Hv].
    + apply Z.shiftr_nonneg. lia.
Qed.

Lemma byte_of_range v : 0 <= byte_of v < 256.
Proof. unfold byte_of. apply Z.mod_pos_bound. lia. Qed.

Lemma cont_byte_range v : 0 <= Z.lor (byte_of v) 128 < 256.
Proof.
  pose proof (byte_of_range v) as Hb. split.
  - apply Z.lor_nonneg. lia.
  - destruct (Z.eq_dec (Z.lor (byte_of v) 128) 0) as [E|Hne]; [lia|].
    apply Z.log2_lt_cancel. change (Z.log2 256) with 8.
    rewrite Z.log2_lor by lia. change (Z.log2 128) with 7.
    destruct (Z.eq_dec (byte_of v) 0) as [E|Hb0]; [rewrite E; simpl; lia|].
    assert (Z.log2 (byte_of v) < 8) by (apply Z.log2_lt_pow2; [lia|]; change (2 ^ 8) with 256; lia).
    lia.
Qed.

(** The shape of an encoding: bytes, continuation bits on all but the last. *)
Lemma WriteVarint_loop_shape fuel : forall v,
  0 <= v < 2 ^ (7 * (Z.of_nat fuel + 1)) ->
  exists init last,
    WriteVarint_loop fuel [] v = init ++ [last] /\
    List.Forall continues init /\ Z.land last 128 = 0 /\
    List.Forall (fun b => 0 <= b < 256) (init ++ [last]).
Proof.
  induction fuel as [|k IH]; intros v Hv.
  - change (2 ^ (7 * (Z.of_nat 0 + 1))) with 128 in Hv.
    exists [], v. rewrite WriteVarint_loop_small by lia.
    split; [reflexivity|]. split; [constructor|]. split.
    + rewrite <- (last_byte_high v) by lia. unfold byte_of. rewrite Z.mod_small by lia.
      reflexivity.
    + repeat constructor; lia.
  - cbn [WriteVarint_loop]. destruct (Z.geb_spec v 128) as [Hge|Hlt].
    + destruct (IH (Z.shiftr v 7)) as (init & last & E & Hc & Hl & Hb).
      { rewrite Z.shiftr_div_pow2 by lia. change (2 ^ 7) with 128.
        replace (7 * (Z.of_nat (S k) + 1)) with (7 + 7 * (Z.of_nat k + 1)) in Hv by lia.
        rewrite Z.pow_add_r in Hv by lia. change (2 ^ 7) with 128 in Hv.
        split; [apply Z.div_pos; lia | apply Z.div_lt_upper_bound; lia]. }
      exists (Z.lor (byte_of v) 128 :: init), last.
      rewrite WriteVarint_loop_app, E. split; [reflexivity|]. split.
      * constructor; [|exact Hc]. unfold continues. rewrite cont_byte_high. lia.
      * split; [exact Hl|]. cbn [app]. constructor; [apply cont_byte_range|exact Hb].
    + exists [], v. cbn [app].
      assert (Hbv : byte_of v = v) by (unfold byte_of; apply Z.mod_small; lia).
      rewrite Hbv. split; [reflexivity|]. split; [constructor|]. split.
      * rewrite <- Hbv. apply last_byte_high. lia.
      * repeat constructor; lia.
Qed.

Lemma WriteVarint_shape v :
  is_u64 v ->
  exists init last,
    WriteVarint [] v = init ++ [last] /\ len init <= 9 /\
    List.Forall continues init /\ Z.land last 128 = 0 /\
    List.Forall (fun b => 0 <= b < 256) (init ++ [last]).
Proof.
  intros [Hv0 Hv]. unfold WriteVarint.
  destruct (WriteVarint_loop_shape 9 v) as (init & last & E & Hc & Hl & Hb).
  { split; [exact Hv0|]. eapply Z.lt_trans; [exact Hv|]. reflexivity. }
  exists init, last. split; [exact E|]. split; [|auto].
  pose proof (len_WriteVarint_loop 9 v) as Hlen. rewrite E, len_app in Hlen.
  change (len [last]) with 1 in Hlen. lia.
Qed.

(** X1. Size of a varint: values below 128 take one byte (the value
    itself); a value in [[2^(7k), 2^(7(k+1)))] takes [k + 1] bytes; a
    [uint64] takes between one and ten bytes, each in [[0, 256)], all
    but the last with the continuation bit. *)
Theorem varint_size :
  (forall v, 0 <= v < 128 -> WriteVarint [] v = [v]) /\
  (forall v k, 0 <= k <= 9 -> 2 ^ (7 * k) <= v < 2 ^ (7 * (k + 1)) ->
     len (WriteVarint [] v) = k + 1) /\
  (forall v, is_u64 v ->
     exists init last,
       WriteVarint [] v = init ++ [last] /\ len init <= 9 /\
       List.Forall continues init /\ Z.land last 128 = 0 /\
       List.Forall (fun b => 0 <= b < 256) (init ++ [last])).
Proof.
  split; [|split].
  - intros v Hv. apply WriteVarint_loop_small. exact Hv.
  - intros v k Hk Hv. unfold WriteVarint.
    assert (0 < 2 ^ (7 * k)) by (apply Z.pow_pos_nonneg; lia).
    rewrite <- (Z2Nat.id k) by lia. apply len_WriteVarint_loop_exact.
    + lia.
    + rewrite Z2Nat.id by lia. exact Hv.
    + lia.
  - intros v Hv. apply WriteVarint_shape. exact Hv.
Qed.

Lemma varint_size_witness :
  WriteVarint [] 127 = [127] /\ len (WriteVarint [] 16383) = 1 + 1 /\
  exists init last,
    WriteVarint [] 300 = init ++ [last] /\ len init <= 9 /\
    List.Forall continues init /\ Z.land last 128 = 0 /\
    List.Forall (fun b => 0 <= b < 256) (init ++ [last]).
Proof.
  split; [|split].
  - apply (proj1 varint_size). lia.
  - apply (proj1 (proj2 varint_size) 16383 1); [lia|]. vm_compute. split; [discriminate|reflexivity].
  - apply (proj2 (proj2 varint_size)). vm_compute. split; [discriminate|reflexivity].
Defined.

Lemma ReadVarint_loop_continues pre : forall acc shift,
  List.Forall continues pre -> shift + 7 * len pre <= 70 ->
  ReadVarint_loop pre acc shift = Err EOF.
Proof.
  induction pre as [|x pre IH]; intros acc shift Hc Hlen; [reflexivity|].
  inversion Hc as [|? ? Hx Hpre]; subst. cbn [ReadVarint_loop].
  rewrite len_cons in Hlen. pose proof (len_nonneg pre).
  destruct (Z.geb_spec shift 64); [lia|].
  destruct (Z.eqb_spec (Z.land x 128) 0) as [E|_]; [contradiction|].
  apply IH; [assumption|lia].
Qed.

(** X2. A cut-off varint: every proper prefix of the encoding of a
    [uint64] (the empty input included) makes [ReadVarint] fail with
    [io.EOF]. *)
Theorem varint_truncated :
  forall v pre suf,
    is_u64 v -> WriteVarint [] v = pre ++ suf -> suf <> [] ->
    ReadVarint pre = Err EOF.
Proof.
  intros v pre suf Hv E Hsuf.
  destruct (WriteVarint_shape v Hv) as (init & last & E' & Hlen & Hc & _).
  rewrite E in E'.
  assert (Hpre : exists tl, init = pre ++ tl).
  { destruct (exists_last Hsuf) as (suf' & x & ->).
    rewrite app_assoc in E'. apply app_inj_tail in E'. destruct E' as [E' _].
    exists suf'. symmetry. exact E'. }
  destruct Hpre as [tl ->].
  apply List.Forall_app in Hc. destruct Hc as [Hc _].
  unfold ReadVarint. apply ReadVarint_loop_continues; [exact Hc|].
  rewrite len_app in Hlen. pose proof (len_nonneg tl). lia.
Qed.

Lemma varint_truncated_witness : ReadVarint [172] = Err EOF.
Proof.
  apply (varint_truncated 300 [172] [2]).
  - vm_compute. split; [discriminate|reflexivity].
  - reflexivity.
  - discriminate.
Defined.

Lemma is_u32_u64 v : is_u32 v -> is_u64 v.
Proof.
  intros [H0 H1]. split; [exact H0|]. eapply Z.lt_trans; [exact H1|reflexivity].
Qed.

(** X3. [uint32] fields: [ReadUint32] gives back what [WriteUint32] wrote
    and leaves what follows unread; a varint that encodes a value of
    [2^32] or more is refused with [ErrVarintOverflow]. *)
Theorem uint32_codec :
  (forall v rest, is_u32 v -> ReadUint32 (WriteUint32 [] v ++ rest) = Ok (v, rest)) /\
  (forall v rest, 2 ^ 32 <= v < 2 ^ 64 ->
     ReadUint32 (WriteVarint [] v ++ rest) = Err ErrVarintOverflow).
Proof.
  split.
  - intros v rest Hv. unfold ReadUint32, WriteUint32.
    rewrite ReadVarint_WriteVarint by (apply is_u32_u64; exact Hv). cbn [bind].
    destruct Hv as [Hv0 Hv1].
    destruct (Z.gtb_spec v 4294967295) as [Hgt|_].
    + exfalso. change (2 ^ 32) with 4294967296 in Hv1. lia.
    + rewrite u32_small by (split; assumption). reflexivity.
  - intros v rest [Hlo Hhi]. unfold ReadUint32.
    assert (H32 : 0 < 2 ^ 32) by reflexivity.
    rewrite ReadVarint_WriteVarint by (split; [lia|exact Hhi]). cbn [bind].
    destruct (Z.gtb_spec v 4294967295) as [_|Hle]; [reflexivity|].
    exfalso. change (2 ^ 32) with 4294967296 in Hlo. lia.
Qed.

Lemma uint32_codec_witness :
  ReadUint32 (WriteUint32 [] 160 ++ [7]) = Ok (160, [7]) /\
  ReadUint32 (WriteVarint [] 4294967296 ++ [7]) = Err ErrVarintOverflow.
Proof.
  split.
  - apply (proj1 uint32_codec). vm_compute. split; [discriminate|reflexivity].
  - apply (proj2 uint32_codec). vm_compute. split; [discriminate|reflexivity].
Defined.

Lemma ReadVarint_len (b rest : bytes) :
  len b < 2 ^ 64 -> ReadVarint (WriteVarint [] (len b) ++ rest) = Ok (len b, rest).
Proof. intros Hb. apply ReadVarint_WriteVarint. split; [apply len_nonneg|exact Hb]. Qed.

(** X4. Length-prefixed byte slices: [ReadBytes] gives back what
    [WriteBytes] wrote when the slice has at most [2^30] bytes, leaving
    what follows unread; a longer slice is written but refused on read
    with [ErrInvalidBytesLen], before its body is looked at; a body
    shorter than announced is [io.ErrUnexpectedEOF], or [io.EOF] when no
    byte of it is there. *)
Theorem bytes_codec :
  (forall b rest, len b <= 2 ^ 30 -> ReadBytes (WriteBytes [] b ++ rest) = Ok (b, rest)) /\
  (forall n body, 2 ^ 30 < n < 2 ^ 64 ->
     ReadBytes (WriteVarint [] n ++ body) = Err ErrInvalidBytesLen) /\
  (forall n body, 0 < n <= 2 ^ 30 -> len body < n ->
     ReadBytes (WriteVarint [] n ++ body)
     = Err (if len body =? 0 then EOF else ErrUnexpectedEOF)).
Proof.
  assert (H30 : 2 ^ 30 < 2 ^ 64) by reflexivity.
  split; [|split].
  - intros b rest Hb. unfold ReadBytes, WriteBytes. rewrite <- app_assoc.
    rewrite ReadVarint_len by lia. cbn [bind].
    destruct (Z.gtb_spec (len b) (2 ^ 30)); [lia|]. apply ReadFull_app.
  - intros n body Hn. unfold ReadBytes.
    rewrite ReadVarint_WriteVarint by (split; lia). cbn [bind].
    destruct (Z.gtb_spec n (2 ^ 30)); [reflexivity|lia].
  - intros n body Hn Hshort. unfold ReadBytes.
    rewrite ReadVarint_WriteVarint by (split; lia). cbn [bind].
    destruct (Z.gtb_spec n (2 ^ 30)); [lia|]. unfold ReadFull.
    destruct (Z.leb_spec n 0); [lia|].
    destruct (len body =? 0); [reflexivity|].
    destruct (Z.ltb_spec (len body) n); [reflexivity|lia].
Qed.

Lemma bytes_codec_witness :
  ReadBytes (WriteBytes [] [222; 173] ++ [7]) = Ok ([222; 173], [7]) /\
  ReadBytes (WriteVarint [] (2 ^ 30 + 1) ++ [1]) = Err ErrInvalidBytesLen /\
  ReadBytes (WriteVarint [] 3 ++ [1]) = Err ErrUnexpectedEOF.
Proof.
  split; [|split].
  - apply (proj1 bytes_codec). vm_compute. discriminate.
  - apply (proj1 (proj2 bytes_codec)). vm_compute. split; reflexivity.
  - apply (proj2 (proj2 bytes_codec) 3 [1]).
    + vm_compute. split; [reflexivity|discriminate].
    + vm_compute. reflexivity.
Defined.

(** X5. Length-prefixed strings: [ReadString] gives back what
    [WriteString] wrote when the string has at most [2^20] bytes (the
    empty string included, for which nothing is read after the length);
    a longer string is written but refused on read with
    [ErrInvalidStringLen]. *)
Theorem string_codec :
  (forall s rest, len s <= 2 ^ 20 -> ReadString (WriteString [] s ++ rest) = Ok (s, rest)) /\
  (forall n body, 2 ^ 20 < n < 2 ^ 64 ->
     ReadString (WriteVarint [] n ++ body) = Err ErrInvalidStringLen) /\
  ReadString (WriteString [] []) = Ok ([], []).
Proof.
  assert (H20 : 2 ^ 20 < 2 ^ 64) by reflexivity.
  split; [|split].
  - intros s rest Hs. unfold ReadString, WriteString. cbv zeta. rewrite <- app_assoc.
    rewrite ReadVarint_len by lia. cbn [bind].
    destruct (Z.gtb_spec (len s) (2 ^ 20)); [lia|].
    destruct (Z.eqb_spec (len s) 0) as [E|_]; [|apply ReadFull_app].
    destruct s as [|x s]; [reflexivity|]. rewrite len_cons in E.
    pose proof (len_nonneg s). lia.
  - intros n body Hn. unfold ReadString.
    rewrite ReadVarint_WriteVarint by (split; lia). cbn [bind].
    destruct (Z.gtb_spec n (2 ^ 20)); [reflexivity|lia].
  - reflexivity.
Qed.

Lemma string_codec_witness :
  ReadString (WriteString [] [106; 111; 104; 110] ++ [7]) = Ok ([106; 111; 104; 110], [7]) /\
  ReadString (WriteVarint [] (2 ^ 20 + 1) ++ [1]) = Err ErrInvalidStringLen.
Proof.
  split.
  - apply (proj1 string_codec). vm_compute. discriminate.
  - apply (proj1 (proj2 string_codec)). vm_compute. split; reflexivity.
Defined.

(** X6. Booleans: [ReadBool] gives back what [WriteBool] wrote; on read
    the byte 1 is [true] and every other byte is [false]; on empty input
    it fails with [io.EOF]. *)
Theorem bool_codec :
  (forall v rest, ReadBool (WriteBool [] v ++ rest) = Ok (v, rest)) /\
  (forall b rest, b <> 1 -> ReadBool (b :: rest) = Ok (false, rest)) /\
  ReadBool [] = Err EOF.
Proof.
  split; [|split].
  - intros [|] rest; reflexivity.
  - intros b rest Hb. unfold ReadBool. cbn [ReadByte bind].
    destruct (Z.eqb_spec b 1); [contradiction|reflexivity].
  - reflexivity.
Qed.

Lemma bool_codec_witness : ReadBool (2 :: [7]) = Ok (false, [7]).
Proof. apply (proj1 (proj2 bool_codec)). discriminate. Defined.

Lemma byte_of_shiftr_u32 v k :
  0 <= k <= 24 -> byte_of (Z.shiftr (u32 v) k) = byte_of (Z.shiftr v k).
Proof.
  intros Hk. rewrite !byte_of_land. unfold u32. rewrite <- Z.land_ones by lia.
  apply Z.bits_inj'. intros i Hi.
  rewrite !Z.land_spec, !Z.shiftr_spec, Z.land_spec by lia.
  rewrite !Z.testbit_ones_nonneg by lia.
  destruct (Z.ltb_spec i 8).
  - destruct (Z.ltb_spec (i + k) 32); [|lia]. rewrite !andb_true_r. reflexivity.
  - rewrite !andb_false_r. reflexivity.
Qed.

Lemma PutUint32_u32 v : PutUint32 (u32 v) = PutUint32 v.
Proof.
  unfold PutUint32. rewrite !byte_of_shiftr_u32 by lia.
  pose proof (byte_of_shiftr_u32 v 0 ltac:(lia)) as H0.
  rewrite !Z.shiftr_0_r in H0. rewrite H0. reflexivity.
Qed.

Lemma Uint32_PutUint32_u32 v : Uint32 (PutUint32 v) = u32 v.
Proof.
  rewrite <- PutUint32_u32. apply Uint32_PutUint32. apply u32_is_u32.
Qed.

Lemma PutUint64_split v : PutUint64 v = PutUint32 (Z.shiftr v 32) ++ PutUint32 v.
Proof.
  unfold PutUint64, PutUint32. cbn [app].
  rewrite !Z.shiftr_shiftr by lia. reflexivity.
Qed.

Lemma Uint64_split (a b : bytes) :
  length a = 4%nat -> length b = 4%nat ->
  Uint64 (a ++ b) = Z.lor (Z.shiftl (Uint32 a) 32) (Uint32 b).
Proof.
  intros Ha Hb.
  destruct a as [|a0 [|a1 [|a2 [|a3 [|]]]]]; try discriminate Ha.
  destruct b as [|b0 [|b1 [|b2 [|b3 [|]]]]]; try discriminate Hb.
  cbn [app Uint64 Uint32].
  rewrite !Z.shiftl_lor, !Z.shiftl_shiftl by lia.
  rewrite !Z.lor_assoc. reflexivity.
Qed.

Lemma Uint64_PutUint64 v : is_u64 v -> Uint64 (PutUint64 v) = v.
Proof.
  intros [Hv0 Hv]. rewrite PutUint64_split, Uint64_split by apply length_PutUint32.
  rewrite Uint32_PutUint32, Uint32_PutUint32_u32.
  - unfold u32. rewrite <- Z.land_ones by lia. bits.
    destruct (Z.ltb_spec i 32).
    + rewrite (Z.testbit_neg_r _ (i - 32)) by lia. rewrite andb_true_r. reflexivity.
    + rewrite andb_false_r, orb_false_r. rewrite Z.shiftr_spec by lia. f_equal. lia.
  - rewrite Z.shiftr_div_pow2 by lia. split.
    + apply Z.div_pos; lia.
    + apply Z.div_lt_upper_bound; [lia|]. change (2 ^ 32 * 2 ^ 32) with (2 ^ 64). exact Hv.
Qed.

(** X7. Fixed-width words: [WriteUint32Fixed] always writes four bytes
    and [WriteUint64Fixed] eight, most significant byte first;
    [ReadUint32Fixed] and [ReadUint64Fixed] give the value back and
    leave what follows unread; on fewer bytes they fail with
    [io.ErrUnexpectedEOF], on none with [io.EOF]. *)
Theorem fixed_width_codec :
  (forall v rest, is_u32 v ->
     len (WriteUint32Fixed [] v) = 4 /\
     ReadUint32Fixed (WriteUint32Fixed [] v ++ rest) = Ok (v, rest)) /\
  (forall v rest, is_u64 v ->
     len (WriteUint64Fixed [] v) = 8 /\
     ReadUint64Fixed (WriteUint64Fixed [] v ++ rest) = Ok (v, rest)) /\
  (forall r, len r < 4 ->
     ReadUint32Fixed r = Err (if len r =? 0 then EOF else ErrUnexpectedEOF)) /\
  (forall r, len r < 8 ->
     ReadUint64Fixed r = Err (if len r =? 0 then EOF else ErrUnexpectedEOF)).
Proof.
  split; [|split; [|split]].
  - intros v rest Hv. split; [reflexivity|].
    unfold ReadUint32Fixed, WriteUint32Fixed, binary_Write_u32. cbn [app].
    rewrite (binary_Read_u32_app (PutUint32 v) rest (length_PutUint32 v)).
    rewrite Uint32_PutUint32 by exact Hv. reflexivity.
  - intros v rest Hv. split; [reflexivity|].
    unfold ReadUint64Fixed, WriteUint64Fixed. cbn [app].
    change 8 with (len (PutUint64 v)). rewrite ReadFull_app. cbn [bind].
    rewrite Uint64_PutUint64 by exact Hv. reflexivity.
  - intros r Hr. unfold ReadUint32Fixed, binary_Read_u32, ReadFull. cbn [Z.leb].
    change (4 <=? 0) with false. cbv iota.
    destruct (len r =? 0); [reflexivity|].
    destruct (Z.ltb_spec (len r) 4); [reflexivity|lia].
  - intros r Hr. unfold ReadUint64Fixed, ReadFull.
    change (8 <=? 0) with false. cbv iota.
    destruct (len r =? 0); [reflexivity|].
    destruct (Z.ltb_spec (len r) 8); [reflexivity|lia].
Qed.

Lemma fixed_width_codec_witness :
  (len (WriteUint32Fixed [] 258) = 4 /\
   ReadUint32Fixed (WriteUint32Fixed [] 258 ++ [7]) = Ok (258, [7])) /\
  (len (WriteUint64Fixed [] 258) = 8 /\
   ReadUint64Fixed (WriteUint64Fixed [] 258 ++ [7]) = Ok (258, [7])) /\
  ReadUint32Fixed [1; 2] = Err ErrUnexpectedEOF.
Proof.
  split; [|split].
  - apply (proj1 fixed_width_codec). vm_compute. split; [discriminate|reflexivity].
  - apply (proj1 (proj2 fixed_width_codec)). vm_compute. split; [discriminate|reflexivity].
  - apply (proj1 (proj2 (proj2 fixed_width_codec)) [1; 2]). vm_compute. reflexivity.
Defined.

Lemma len_WriteVarint_loop_le k : forall fuel v,
  0 <= v < 2 ^ (7 * (Z.of_nat k + 1)) ->
  len (WriteVarint_loop fuel [] v) <= Z.of_nat k + 1.
Proof.
  induction k as [|k IH]; intros fuel v Hv.
  - change (2 ^ (7 * (Z.of_nat 0 + 1))) with 128 in Hv.
    rewrite WriteVarint_loop_small by lia. change (len [v]) with 1. lia.
  - destruct fuel as [|fuel]; cbn [WriteVarint_loop].
    + change (len ([] ++ [byte_of v])) with 1. lia.
    + destruct (Z.geb_spec v 128).
      * rewrite WriteVarint_loop_app, len_app.
        change (len ([] ++ [Z.lor (byte_of v) 128])) with 1.
        specialize (IH fuel (Z.shiftr v 7)).
        assert (0 <= Z.shiftr v 7 < 2 ^ (7 * (Z.of_nat k + 1))).
        { rewrite Z.shiftr_div_pow2 by lia. change (2 ^ 7) with 128.
          replace (7 * (Z.of_nat (S k) + 1)) with (7 + 7 * (Z.of_nat k + 1)) in Hv by lia.
          rewrite Z.pow_add_r in Hv by lia. change (2 ^ 7) with 128 in Hv.
          split; [apply Z.div_pos; lia | apply Z.div_lt_upper_bound; lia]. }
        lia.
      * change (len ([] ++ [byte_of v])) with 1. lia.
Qed.

Lemma len_WriteVarint_loop_pos fuel v : 1 <= len (WriteVarint_loop fuel [] v).
Proof.
  destruct fuel as [|k]; cbn [WriteVarint_loop].
  - change (len ([] ++ [byte_of v])) with 1. lia.
  - destruct (v >=? 128).
    + rewrite WriteVarint_loop_app, len_app.
      pose proof (len_nonneg (WriteVarint_loop k [] (Z.shiftr v 7))).
      change (len ([] ++ [Z.lor (byte_of v) 128])) with 1. lia.
    + change (len ([] ++ [byte_of v])) with 1. lia.
Qed.

Lemma len_WriteVarint_pos v : 1 <= len (WriteVarint [] v).
Proof. apply len_WriteVarint_loop_pos. Qed.

Lemma len_WriteVarint_u32 v : is_u32 v -> 1 <= len (WriteVarint [] v) <= 5.
Proof.
  intros [Hv0 Hv]. split; [apply len_WriteVarint_pos|].
  apply (len_WriteVarint_loop_le 4). split; [exact Hv0|].
  eapply Z.lt_trans; [exact Hv|]. reflexivity.
Qed.

Lemma StreamHeader_Unmarshal_Marshal h rest :
  is_u64 (TotalSize h) -> is_u32 (TotalChunks h) ->
  StreamHeader_Unmarshal
    ([OriginalType h] ++ WriteVarint [] (TotalSize h) ++ WriteVarint [] (TotalChunks h)
     ++ rest) = Ok h.
Proof.
  intros Hs Hc. unfold StreamHeader_Unmarshal, ReadUint64, ReadUint32.
  cbn [app ReadByte bind].
  rewrite ReadVarint_WriteVarint by exact Hs. cbn [bind].
  rewrite ReadVarint_WriteVarint by (apply is_u32_u64; exact Hc). cbn [bind].
  destruct Hc as [Hc0 Hc1].
  destruct (Z.gtb_spec (TotalChunks h) 4294967295) as [Hgt|_].
  - exfalso. change (2 ^ 32) with 4294967296 in Hc1. lia.
  - rewrite u32_small by (split; assumption). destruct h; reflexivity.
Qed.

Lemma StreamHeader_Marshal_eq h :
  StreamHeader_Marshal h
  = Ok ([OriginalType h] ++ WriteVarint [] (TotalSize h) ++ WriteVarint [] (TotalChunks h)).
Proof.
  unfold StreamHeader_Marshal, WriteUint64, WriteUint32. cbn [app].
  rewrite WriteVarint_app, (WriteVarint_app [_]). rewrite <- app_assoc. reflexivity.
Qed.

(** X8. The START payload: [StreamHeader.Marshal] never fails and writes
    between 3 and 16 bytes; [Unmarshal] gives the header back, also when
    other bytes follow; on empty data it fails with [io.EOF]. *)
Theorem stream_header_codec :
  (forall h rest,
     is_u64 (TotalSize h) -> is_u32 (TotalChunks h) ->
     exists bs,
       StreamHeader_Marshal h = Ok bs /\ 3 <= len bs <= 16 /\
       StreamHeader_Unmarshal (bs ++ rest) = Ok h) /\
  StreamHeader_Unmarshal [] = Err EOF.
Proof.
  split; [|reflexivity].
  intros h rest Hs Hc. eexists. split; [apply StreamHeader_Marshal_eq|]. split.
  - rewrite !len_app. change (len [OriginalType h]) with 1.
    pose proof (len_WriteVarint (TotalSize h)).
    pose proof (len_WriteVarint_pos (TotalSize h)).
    pose proof (len_WriteVarint_u32 (TotalChunks h) Hc). lia.
  - rewrite <- !app_assoc. apply StreamHeader_Unmarshal_Marshal; assumption.
Qed.

Lemma stream_header_codec_witness :
  exists bs,
    StreamHeader_Marshal (mkStreamHeader 3 10485760 160) = Ok bs /\ 3 <= len bs <= 16 /\
    StreamHeader_Unmarshal (bs ++ [9]) = Ok (mkStreamHeader 3 10485760 160).
Proof.
  apply (proj1 stream_header_codec (mkStreamHeader 3 10485760 160) [9]).
  - vm_compute. split; [discriminate|reflexivity].
  - vm_compute. split; [discriminate|reflexivity].
Defined.

Lemma StreamChunk_Marshal_eq c :
  StreamChunk_Marshal c
  = Ok (WriteVarint [] (ChunkIndex c) ++ WriteVarint [] (len (Data c)) ++ Data c).
Proof.
  unfold StreamChunk_Marshal, WriteBytes, WriteUint32.
  rewrite (WriteVarint_app (WriteVarint _ _)). rewrite <- app_assoc. reflexivity.
Qed.

(** X9. The CHUNK payload: [StreamChunk.Marshal] never fails and adds at
    most ten bytes to the data; [Unmarshal] gives the chunk back when
    the data has at most [2^30] bytes; when the announced data length
    exceeds [2^30], [Unmarshal] fails with [ErrInvalidBytesLen]. *)
Theorem stream_chunk_codec :
  (forall c,
     is_u32 (ChunkIndex c) -> len (Data c) <= 2 ^ 30 ->
     exists bs,
       StreamChunk_Marshal c = Ok bs /\
       len (Data c) + 2 <= len bs <= len (Data c) + 10 /\
       StreamChunk_Unmarshal bs = Ok c) /\
  (forall i n body,
     is_u32 i -> 2 ^ 30 < n < 2 ^ 64 ->
     StreamChunk_Unmarshal (WriteVarint [] i ++ WriteVarint [] n ++ body)
     = Err ErrInvalidBytesLen).
Proof.
  assert (H30 : 2 ^ 30 < 2 ^ 32) by reflexivity.
  assert (H64 : 2 ^ 32 < 2 ^ 64) by reflexivity.
  split.
  - intros c Hi Hd. eexists. split; [apply StreamChunk_Marshal_eq|]. split.
    + rewrite !len_app. pose proof (len_WriteVarint_u32 _ Hi).
      pose proof (len_nonneg (Data c)).
      pose proof (len_WriteVarint_u32 (len (Data c)) ltac:(split; lia)). lia.
    + apply StreamChunk_round_trip; [exact Hi|exact Hd|apply StreamChunk_Marshal_eq].
  - intros i n body Hi Hn. unfold StreamChunk_Unmarshal, ReadUint32, ReadBytes.
    rewrite ReadVarint_WriteVarint by (apply is_u32_u64; exact Hi). cbn [bind].
    destruct Hi as [Hi0 Hi1].
    destruct (Z.gtb_spec i 4294967295) as [Hgt|_].
    { exfalso. change (2 ^ 32) with 4294967296 in Hi1. lia. }
    cbn [bind]. rewrite ReadVarint_WriteVarint by (split; lia). cbn [bind].
    destruct (Z.gtb_spec n (2 ^ 30)); [reflexivity|lia].
Qed.

Lemma stream_chunk_codec_witness :
  (exists bs,
     StreamChunk_Marshal (mkStreamChunk 42 [222; 173; 190; 239]) = Ok bs /\
     len [222; 173; 190; 239] + 2 <= len bs <= len [222; 173; 190; 239] + 10 /\
     StreamChunk_Unmarshal bs = Ok (mkStreamChunk 42 [222; 173; 190; 239])) /\
  StreamChunk_Unmarshal (WriteVarint [] 42 ++ WriteVarint [] (2 ^ 30 + 1) ++ [1])
  = Err ErrInvalidBytesLen.
Proof.
  split.
  - apply (proj1 stream_chunk_codec (mkStreamChunk 42 [222; 173; 190; 239])).
    + vm_compute. split; [discriminate|reflexivity].
    + vm_compute. discriminate.
  - apply (proj2 stream_chunk_codec).
    + vm_compute. split; [discriminate|reflexivity].
    + vm_compute. split; reflexivity.
Defined.

(** A proper prefix of a varint reads as [io.EOF]. *)
Lemma ReadVarint_proper_prefix v pre suf :
  is_u64 v -> WriteVarint [] v = pre ++ suf -> suf <> [] ->
  ReadVarint pre = Err EOF.
Proof.
  intros Hv E Hsuf.
  destruct (WriteVarint_shape v Hv) as (init & last & E' & Hlen & Hc & _).
  rewrite E in E'.
  assert (Hpre : exists tl, init = pre ++ tl).
  { destruct (exists_last Hsuf) as (suf' & x & ->).
    rewrite app_assoc in E'. apply app_inj_tail in E'. destruct E' as [E' _].
    exists suf'. symmetry. exact E'. }
  destruct Hpre as [tl ->].
  apply List.Forall_app in Hc. destruct Hc as [Hc _].
  unfold ReadVarint. apply ReadVarint_loop_continues; [exact Hc|].
  rewrite len_app in Hlen. pose proof (len_nonneg tl). lia.
Qed.

(** Reading a varint from data cut anywhere: the cut falls inside the
    varint and the read fails with [io.EOF], or after it and the read
    succeeds. *)
Lemma ReadVarint_cut v rest pre suf :
  is_u64 v -> WriteVarint [] v ++ rest = pre ++ suf ->
  ReadVarint pre = Err EOF \/
  exists pre',
    pre = WriteVarint [] v ++ pre' /\ rest = pre' ++ suf /\
    ReadVarint pre = Ok (v, pre').
Proof.
  intros Hv E. apply List.app_eq_app in E. destruct E as (l & [[E1 E2]|[E1 E2]]).
  - destruct l as [|x l].
    + right. exists []. rewrite app_nil_r in E1. subst pre suf.
      split; [rewrite app_nil_r; reflexivity|]. split; [reflexivity|].
      rewrite <- (app_nil_r (WriteVarint [] v)) at 1.
      apply ReadVarint_WriteVarint. exact Hv.
    + left. apply (ReadVarint_proper_prefix v pre (x :: l) Hv E1). discriminate.
  - right. exists l. split; [exact E1|]. split; [exact E2|].
    rewrite E1. apply ReadVarint_WriteVarint. exact Hv.
Qed.

Lemma Metrics_Marshal_eq m :
  Metrics_Marshal m
  = Ok (WriteVarint [] (metric_A m) ++ WriteVarint [] (metric_B m)
        ++ WriteVarint [] (metric_C m) ++ WriteVarint [] (metric_D m)
        ++ WriteVarint [] (metric_E m)).
Proof.
  unfold Metrics_Marshal, WriteUint64.
  rewrite (WriteVarint_app (WriteVarint _ (metric_D m))).
  rewrite (WriteVarint_app (WriteVarint _ (metric_C m))).
  rewrite (WriteVarint_app (WriteVarint _ (metric_B m))).
  rewrite (WriteVarint_app (WriteVarint _ (metric_A m))).
  rewrite <- !app_assoc. reflexivity.
Qed.

(** X10. The benchmark payload [Metrics]: [Marshal] never fails and
    writes between 5 and 50 bytes; [Unmarshal] gives back the five
    counters; on data that ends before the end of the fifth counter,
    that is on every proper prefix of what [Marshal] wrote, the empty
    one included, [Unmarshal] fails with [io.EOF]. *)
Theorem metrics_codec :
  (forall m,
     is_u64 (metric_A m) -> is_u64 (metric_B m) -> is_u64 (metric_C m) ->
     is_u64 (metric_D m) -> is_u64 (metric_E m) ->
     exists bs,
       Metrics_Marshal m = Ok bs /\ 5 <= len bs <= 50 /\
       Metrics_Unmarshal bs = Ok m) /\
  (forall m pre suf,
     is_u64 (metric_A m) -> is_u64 (metric_B m) -> is_u64 (metric_C m) ->
     is_u64 (metric_D m) -> is_u64 (metric_E m) ->
     Metrics_Marshal m = Ok (pre ++ suf) -> suf <> [] ->
     Metrics_Unmarshal pre = Err EOF) /\
  Metrics_Unmarshal [] = Err EOF /\
  (forall a, 0 <= a < 128 -> Metrics_Unmarshal [a] = Err EOF).
Proof.
  split; [|split; [|split]].
  - intros m Ha Hb Hc Hd He.
    exists (WriteVarint [] (metric_A m) ++ WriteVarint [] (metric_B m)
            ++ WriteVarint [] (metric_C m) ++ WriteVarint [] (metric_D m)
            ++ WriteVarint [] (metric_E m)).
    split; [|split].
    + apply Metrics_Marshal_eq.
    + rewrite !len_app.
      pose proof (len_WriteVarint (metric_A m)). pose proof (len_WriteVarint_pos (metric_A m)).
      pose proof (len_WriteVarint (metric_B m)). pose proof (len_WriteVarint_pos (metric_B m)).
      pose proof (len_WriteVarint (metric_C m)). pose proof (len_WriteVarint_pos (metric_C m)).
      pose proof (len_WriteVarint (metric_D m)). pose proof (len_WriteVarint_pos (metric_D m)).
      pose proof (len_WriteVarint (metric_E m)). pose proof (len_WriteVarint_pos (metric_E m)).
      lia.
    + unfold Metrics_Unmarshal, ReadUint64.
      rewrite ReadVarint_WriteVarint by assumption. cbn [bind].
      rewrite ReadVarint_WriteVarint by assumption. cbn [bind].
      rewrite ReadVarint_WriteVarint by assumption. cbn [bind].
      rewrite ReadVarint_WriteVarint by assumption. cbn [bind].
      rewrite <- (app_nil_r (WriteVarint [] (metric_E m))).
      rewrite ReadVarint_WriteVarint by assumption. cbn [bind].
      destruct m; reflexivity.
  - intros m pre suf Ha Hb Hc Hd He E Hsuf.
    rewrite Metrics_Marshal_eq in E. injection E as E.
    unfold Metrics_Unmarshal, ReadUint64.
    destruct (ReadVarint_cut _ _ pre suf Ha E) as [R|(p1 & _ & E1 & R)];
      rewrite R; [reflexivity|]; cbn [bind]; clear R E.
    destruct (ReadVarint_cut _ _ p1 suf Hb E1) as [R|(p2 & _ & E2 & R)];
      rewrite R; [reflexivity|]; cbn [bind]; clear R E1.
    destruct (ReadVarint_cut _ _ p2 suf Hc E2) as [R|(p3 & _ & E3 & R)];
      rewrite R; [reflexivity|]; cbn [bind]; clear R E2.
    destruct (ReadVarint_cut _ _ p3 suf Hd E3) as [R|(p4 & _ & E4 & R)];
      rewrite R; [reflexivity|]; cbn [bind]; clear R E3.
    rewrite <- (app_nil_r (WriteVarint [] (metric_E m))) in E4.
    destruct (ReadVarint_cut _ _ p4 suf He E4) as [R|(p5 & _ & E5 & R)];
      rewrite R; [reflexivity|].
    symmetry in E5. apply app_eq_nil in E5. destruct E5 as [_ E5]. contradiction.
  - reflexivity.
  - intros a Ha. unfold Metrics_Unmarshal, ReadUint64.
    rewrite <- (WriteVarint_loop_small 9 a Ha). fold (WriteVarint [] a).
    rewrite <- (app_nil_r (WriteVarint [] a)).
    rewrite ReadVarint_WriteVarint
      by (split; [lia|]; eapply Z.lt_trans; [apply Ha|reflexivity]).
    reflexivity.
Qed.

(** [metrics_codec] on five counters, and on their encoding cut inside
    the third one. *)
Lemma metrics_codec_witness :
  (exists bs,
     Metrics_Marshal (mkMetrics 1 200 30000 4000000 0) = Ok bs /\ 5 <= len bs <= 50 /\
     Metrics_Unmarshal bs = Ok (mkMetrics 1 200 30000 4000000 0)) /\
  Metrics_Unmarshal [1; 200; 1; 176] = Err EOF.
Proof.
  split.
  - apply (proj1 metrics_codec (mkMetrics 1 200 30000 4000000 0));
      vm_compute; (split; [discriminate|reflexivity]).
  - apply (proj1 (proj2 metrics_codec) (mkMetrics 1 200 30000 4000000 0)
             [1; 200; 1; 176] [234; 1; 128; 146; 244; 1; 0]);
      try (vm_compute; split; [discriminate|reflexivity]).
    + vm_compute. reflexivity.
    + discriminate.
Defined.

(** ** Payload registry: registration laws *)

Section RegistryLaws.

Context {U : Type} `{PayloadMarshaler U}.

Lemma IsReservedType_below t : t < 250 -> IsReservedType t = false.
Proof. intros Ht. unfold IsReservedType. destruct (Z.geb_spec t 250); [lia|reflexivity]. Qed.

Lemma handlers_Register (r : PayloadRegistry U) t f :
  t < 250 -> handlers (Register r t f) = <[t := f]> (handlers r).
Proof. intros Ht. unfold Register. rewrite IsReservedType_below by assumption. reflexivity. Qed.

Lemma handlers_Unregister (r : PayloadRegistry U) t :
  t < 250 -> handlers (Unregister r t) = delete t (handlers r).
Proof. intros Ht. unfold Unregister. rewrite IsReservedType_below by assumption. reflexivity. Qed.

Lemma Get_Register_same (r : PayloadRegistry U) t f :
  t < 250 -> Get (Register r t f) t = f.
Proof.
  intros Ht. unfold Get. rewrite handlers_Register by assumption.
  rewrite lookup_insert_eq. reflexivity.
Qed.

Lemma Get_Register_other (r : PayloadRegistry U) t f k :
  k <> t -> Get (Register r t f) k = Get r k.
Proof.
  intros Hk. unfold Get, Register. destruct (IsReservedType t); [reflexivity|].
  simpl. rewrite lookup_insert_ne by congruence. reflexivity.
Qed.

Lemma registry_eq (r1 r2 : PayloadRegistry U) : handlers r1 = handlers r2 -> r1 = r2.
Proof. destruct r1, r2. simpl. intros ->. reflexivity. Qed.

(** X11. [Register] on a type below 250 adds or replaces: afterwards
    [Get] returns the factory given and [Has] answers true, every other
    type is as before, and a second registration of the type overrides
    the first.  The factory is stored even when it is [nil]: then [Has]
    answers true although [Get] returns [nil], and decoding treats the
    type as unknown. *)
Theorem register_adds_or_replaces :
  forall (r : PayloadRegistry U) t f,
    t < 250 ->
    Get (Register r t f) t = f /\
    Has (Register r t f) t = true /\
    (forall k, k <> t ->
       Get (Register r t f) k = Get r k /\ Has (Register r t f) k = Has r k) /\
    (forall f', Register (Register r t f) t f' = Register r t f') /\
    (forall d,
       Has (Register r t FactoryNil) t = true /\
       UnmarshalPayloadWithRegistryStrict t d (Register r t FactoryNil) false
       = Ok (PBytes d) /\
       UnmarshalPayloadWithRegistryStrict t d (Register r t FactoryNil) true
       = Err ErrUnknownMessageType).
Proof.
  intros r t f Ht.
  assert (HG : forall g, Get (Register r t g) t = g).
  { intros g. apply Get_Register_same. assumption. }
  assert (HH : forall g, Has (Register r t g) t = true).
  { intros g. unfold Has. rewrite handlers_Register by assumption.
    rewrite lookup_insert_eq. reflexivity. }
  split; [apply HG|]. split; [apply HH|]. split; [|split].
  - intros k Hk. unfold Get, Has. rewrite handlers_Register by assumption.
    rewrite lookup_insert_ne by congruence. split; reflexivity.
  - intros f'. apply registry_eq. rewrite !handlers_Register by assumption.
    apply insert_insert_eq.
  - intros d. split; [apply HH|].
    unfold UnmarshalPayloadWithRegistryStrict. rewrite HG. split; reflexivity.
Qed.

(** X12. [Unregister] on a type below 250 removes the entry: afterwards
    [Has] answers false and [Get] returns [nil], every other type is as
    before, it undoes a registration made on a registry that did not
    know the type, and on such a registry it changes nothing. *)
Theorem unregister_removes :
  forall (r : PayloadRegistry U) t,
    t < 250 ->
    Has (Unregister r t) t = false /\
    Get (Unregister r t) t = FactoryNil /\
    (forall k, k <> t ->
       Get (Unregister r t) k = Get r k /\ Has (Unregister r t) k = Has r k) /\
    (forall f, Unregister (Register r t f) t = Unregister r t) /\
    (Has r t = false ->
       Unregister r t = r /\ forall f, Unregister (Register r t f) t = r).
Proof.
  intros r t Ht.
  assert (HU : forall f, Unregister (Register r t f) t = Unregister r t).
  { intros f. apply registry_eq. rewrite !handlers_Unregister by assumption.
    rewrite handlers_Register by assumption. apply delete_insert_eq. }
  split; [|split; [|split; [|split]]].
  - unfold Has. rewrite handlers_Unregister by assumption.
    rewrite lookup_delete_eq. reflexivity.
  - unfold Get. rewrite handlers_Unregister by assumption.
    rewrite lookup_delete_eq. reflexivity.
  - intros k Hk. unfold Get, Has. rewrite handlers_Unregister by assumption.
    rewrite lookup_delete_ne by congruence. split; reflexivity.
  - exact HU.
  - intros Hhas.
    assert (Hid : Unregister r t = r).
    { apply registry_eq. rewrite handlers_Unregister by assumption.
      apply delete_id. unfold Has in Hhas.
      destruct (handlers r !! t); [discriminate Hhas|reflexivity]. }
    split; [exact Hid|]. intros f. rewrite HU. exact Hid.
Qed.

(** X13. Whatever sequence of [Register] and [Unregister] calls built a
    registry, its reserved range is that of a fresh one: types 250 and
    251 are present with the built-in StreamHeader and StreamChunk
    factories, and no type from 252 up is present. *)
Theorem reserved_range_invariant :
  forall (r : PayloadRegistry U),
    reachable r ->
    Get r 250 = Factory StreamHeader_factory /\
    Get r 251 = Factory StreamChunk_factory /\
    Has r 250 = true /\ Has r 251 = true /\
    (forall k, 252 <= k -> Has r k = false /\ Get r k = FactoryNil).
Proof.
  intros r Hr.
  assert (HG : forall k, 250 <= k -> Get r k = Get NewPayloadRegistry k).
  { intros k Hk. apply reachable_Get_reserved; assumption. }
  assert (HH : forall k, 250 <= k ->
                 Has r k = match Get r k with FactoryNil => false | Factory _ => true end).
  { intros k Hk. rewrite (HG k Hk). unfold Has, Get.
    rewrite (reachable_reserved r k Hr Hk).
    destruct (Z.eq_dec k 250) as [->|H0]; [|destruct (Z.eq_dec k 251) as [->|H1]].
    - pose proof (Get_new_StreamStart (U:=U)) as E. unfold Get in E.
      destruct (handlers NewPayloadRegistry !! 250); [rewrite E; reflexivity|discriminate E].
    - pose proof (Get_new_StreamChunk (U:=U)) as E. unfold Get in E.
      destruct (handlers NewPayloadRegistry !! 251); [rewrite E; reflexivity|discriminate E].
    - unfold NewPayloadRegistry, registerStreamingTypes. simpl.
      rewrite lookup_insert_ne by (unfold MessageTypeStreamChunk; lia).
      rewrite lookup_insert_ne by (unfold MessageTypeStreamStart; lia).
      rewrite lookup_empty. reflexivity. }
  split; [rewrite HG by lia; apply Get_new_StreamStart|].
  split; [rewrite HG by lia; apply Get_new_StreamChunk|].
  split; [rewrite HH, HG by lia; rewrite Get_new_StreamStart; reflexivity|].
  split; [rewrite HH, HG by lia; rewrite Get_new_StreamChunk; reflexivity|].
  intros k Hk.
  assert (E : Get r k = FactoryNil) by (rewrite HG by lia; apply Get_new_other; lia).
  split; [rewrite HH by lia; rewrite E; reflexivity|exact E].
Qed.

End RegistryLaws.

(** [register_adds_or_replaces] for type 1 on the registry of the tests. *)
Lemma register_adds_or_replaces_witness :
  Has (Register testRegistry 1 FactoryNil) 1 = true.
Proof.
  apply (proj1 (proj2 (register_adds_or_replaces testRegistry 1 FactoryNil ltac:(lia)))).
Defined.

(** [unregister_removes] for type 2 on the registry of the tests. *)
Lemma unregister_removes_witness :
  Has (Unregister testRegistry 2) 2 = false.
Proof.
  apply (proj1 (unregister_removes testRegistry 2 ltac:(lia))).
Defined.

(** [reserved_range_invariant] on the registry of the tests after an
    attempt to take over type 250 and to remove type 251. *)
Lemma reserved_range_invariant_witness :
  Has (Unregister (Register testRegistry 250 FactoryNil) 251) 251 = true.
Proof.
  apply (proj1 (proj2 (proj2 (proj2
    (reserved_range_invariant (Unregister (Register testRegistry 250 FactoryNil) 251)
       ltac:(repeat constructor)))))).
Defined.

(** ** Message codec: malformed input, signatures, entry points *)

Lemma ReadFull_short (r : bytes) n :
  len r < n -> 0 < n ->
  ReadFull r n = Err (if len r =? 0 then EOF else ErrUnexpectedEOF).
Proof.
  intros Hlt Hn. unfold ReadFull.
  destruct (Z.leb_spec n 0); [lia|].
  destruct (Z.eqb_spec (len r) 0); [reflexivity|].
  destruct (Z.ltb_spec (len r) n); [reflexivity|lia].
Qed.

Lemma binary_Read_u32_short (r : bytes) :
  len r < 4 ->
  binary_Read_u32 r = Err (if len r =? 0 then EOF else ErrUnexpectedEOF).
Proof.
  intros Hlt. unfold binary_Read_u32. rewrite ReadFull_short by lia. reflexivity.
Qed.

Section CodecEdges.

Context {U : Type} `{PayloadMarshaler U}.
Variable globalRegistry : PayloadRegistry U.

(** X14. Malformed input: [UnmarshalMessage] answers
    [ErrInvalidMessage] to fewer than 13 bytes, whatever they are; on a
    longer input it fails with an end-of-input error when the payload
    is shorter than its length field says, when fewer than four bytes
    follow the payload, and when the signature is shorter than its
    length field says ([io.EOF] if nothing is left where the missing
    part starts, [io.ErrUnexpectedEOF] otherwise).  No message is
    returned in any of these cases. *)
Theorem truncated_frames_rejected :
  forall (opts : option (MessageOptions U)),
    (forall data,
       len data < 13 ->
       UnmarshalMessage globalRegistry data opts = (None, Err ErrInvalidMessage)) /\
    (forall t idb plb body,
       length idb = 4%nat -> length plb = 4%nat ->
       Uint32 plb <= MaxPayloadSize -> 4 <= len body < Uint32 plb ->
       UnmarshalMessage globalRegistry (t :: idb ++ plb ++ body) opts
       = (None, Err ErrUnexpectedEOF)) /\
    (forall t idb plb pl tail,
       length idb = 4%nat -> length plb = 4%nat ->
       Uint32 plb = len pl -> len pl <= MaxPayloadSize ->
       4 <= len pl + len tail -> len tail < 4 ->
       UnmarshalMessage globalRegistry (t :: idb ++ plb ++ pl ++ tail) opts
       = (None, Err (if len tail =? 0 then EOF else ErrUnexpectedEOF))) /\
    (forall t idb plb pl slb part,
       length idb = 4%nat -> length plb = 4%nat -> length slb = 4%nat ->
       Uint32 plb = len pl -> len pl <= MaxPayloadSize ->
       len part < Uint32 slb ->
       UnmarshalMessage globalRegistry (t :: idb ++ plb ++ pl ++ slb ++ part) opts
       = (None, Err (if len part =? 0 then EOF else ErrUnexpectedEOF))).
Proof.
  intros opts. split; [|split; [|split]].
  - intros data Hlen. unfold UnmarshalMessage.
    change (HeaderSize + SignatureLengthSize) with 13.
    destruct (Z.ltb_spec (len data) 13); [reflexivity|lia].
  - intros t idb plb body Hidb Hplb Hmax [Hb4 Hshort]. unfold UnmarshalMessage.
    change (HeaderSize + SignatureLengthSize) with 13.
    rewrite len_cons, !len_app, (len_length idb 4), (len_length plb 4) by assumption.
    destruct (Z.ltb_spec (1 + (Z.of_nat 4 + (Z.of_nat 4 + len body))) 13); [lia|].
    cbn [ReadByte bind].
    rewrite binary_Read_u32_app by assumption. cbn [bind].
    rewrite binary_Read_u32_app by assumption. cbn [bind].
    destruct (Z.gtb_spec (Uint32 plb) MaxPayloadSize); [lia|].
    rewrite ReadFull_short by lia.
    destruct (Z.eqb_spec (len body) 0); [lia|]. reflexivity.
  - intros t idb plb pl tail Hidb Hplb Hpl Hmax Hlen Htail. unfold UnmarshalMessage.
    change (HeaderSize + SignatureLengthSize) with 13.
    rewrite len_cons, !len_app, (len_length idb 4), (len_length plb 4) by assumption.
    destruct (Z.ltb_spec (1 + (Z.of_nat 4 + (Z.of_nat 4 + (len pl + len tail)))) 13); [lia|].
    cbn [ReadByte bind].
    rewrite binary_Read_u32_app by assumption. cbn [bind].
    rewrite binary_Read_u32_app by assumption. cbn [bind].
    rewrite Hpl. destruct (Z.gtb_spec (len pl) MaxPayloadSize); [lia|].
    rewrite ReadFull_app. cbn [bind].
    rewrite binary_Read_u32_short by assumption. reflexivity.
  - intros t idb plb pl slb part Hidb Hplb Hslb Hpl Hmax Hpart. unfold UnmarshalMessage.
    change (HeaderSize + SignatureLengthSize) with 13.
    pose proof (len_nonneg pl). pose proof (len_nonneg part).
    rewrite len_cons, !len_app, (len_length idb 4), (len_length plb 4),
      (len_length slb 4) by assumption.
    destruct (Z.ltb_spec
                (1 + (Z.of_nat 4 + (Z.of_nat 4 + (len pl + (Z.of_nat 4 + len part))))) 13);
      [lia|].
    cbn [ReadByte bind].
    rewrite binary_Read_u32_app by assumption. cbn [bind].
    rewrite binary_Read_u32_app by assumption. cbn [bind].
    rewrite Hpl. destruct (Z.gtb_spec (len pl) MaxPayloadSize); [lia|].
    rewrite ReadFull_app. cbn [bind].
    rewrite binary_Read_u32_app by assumption. cbn [bind].
    destruct (Z.gtb_spec (Uint32 slb) 0); [|lia].
    rewrite ReadFull_short by lia. reflexivity.
Qed.

(** X15. Signed round trip: a message marshalled with a signer is the
    documented frame carrying the signer's output over type, id, payload
    length and payload.  A receiver without a verifier accepts it and
    hands the signature back unchecked; a receiver with a verifier
    accepts it exactly when the verifier accepts that signature over
    the same bytes, answers [ErrInvalidSignature] when the verifier
    objects, and answers [ErrSignatureRequired] when the signer produced
    an empty signature. *)
Theorem signed_round_trip :
  forall t id (p : payload U) bs (so ro : option (MessageOptions U)) signer sig,
    is_u32 id -> MarshalPayload p = Ok bs -> len bs <= MaxPayloadSize ->
    signer_of so = Some signer ->
    Sign signer ([t] ++ PutUint32 id ++ PutUint32 (u32 (len bs)) ++ bs) = Ok sig ->
    is_u32 (len sig) ->
    exists data,
      MarshalMessage t id p so = Ok data /\
      data = fixed_frame t id bs sig /\
      (verifier_of ro = None ->
         UnmarshalMessage globalRegistry data ro
         = (Some (mkMessage t id bs sig), decodePayload globalRegistry ro t bs)) /\
      (forall verifier,
         verifier_of ro = Some verifier ->
         (len sig = 0 ->
            UnmarshalMessage globalRegistry data ro = (None, Err ErrSignatureRequired)) /\
         (0 < len sig ->
            Verify verifier ([t] ++ PutUint32 id ++ PutUint32 (u32 (len bs)) ++ bs) sig
            = Ok tt ->
            UnmarshalMessage globalRegistry data ro
            = (Some (mkMessage t id bs sig), decodePayload globalRegistry ro t bs)) /\
         (0 < len sig ->
            forall e,
              Verify verifier ([t] ++ PutUint32 id ++ PutUint32 (u32 (len bs)) ++ bs) sig
              = Err e ->
              UnmarshalMessage globalRegistry data ro = (None, Err ErrInvalidSignature))).
Proof.
  intros t id p bs so ro signer sig Hid Hp Hlen Hs Hsign Hsig.
  exists (fixed_frame t id bs sig).
  assert (HU : UnmarshalMessage globalRegistry (fixed_frame t id bs sig) ro
               = match checkSignature (fixed_frame t id bs sig ++ []) ro
                         (len bs) (len sig) sig with
                 | Ok _ => (Some (mkMessage t id bs sig), decodePayload globalRegistry ro t bs)
                 | Err e => (None, Err e)
                 | Panic => (None, Panic)
                 end).
  { rewrite <- (app_nil_r (fixed_frame t id bs sig)) at 1.
    apply UnmarshalMessage_fixed_frame; assumption. }
  rewrite checkSignature_fixed_frame in HU by assumption.
  split; [|split; [reflexivity|split]].
  - rewrite (MarshalMessage_frame t id p so bs Hp Hlen), Hs. cbv zeta.
    rewrite Hsign. reflexivity.
  - intros Hv. rewrite HU, Hv. reflexivity.
  - intros verifier Hv. rewrite Hv in HU. split; [|split].
    + intros H0. rewrite HU, H0. reflexivity.
    + intros Hpos Hok. rewrite HU, Hok.
      destruct (Z.eqb_spec (len sig) 0); [lia|reflexivity].
    + intros Hpos e He. rewrite HU, He.
      destruct (Z.eqb_spec (len sig) 0); [lia|reflexivity].
Qed.

(** X16. The entry points [MarshalWithID], [Unmarshal] and
    [UnmarshalStrict] on a raw payload of a type without a factory:
    [Unmarshal] returns the message and the raw bytes, [UnmarshalStrict]
    returns the parsed message together with [ErrUnknownMessageType].
    For a type with a factory the two entry points agree. *)
Theorem strict_entry_point_keeps_header :
  forall t id b,
    is_u32 id -> len b <= MaxPayloadSize ->
    exists data,
      MarshalWithID t id (PBytes (U:=U) b) = Ok data /\
      (Get globalRegistry t = FactoryNil ->
         Unmarshal globalRegistry data = (Some (mkMessage t id b []), Ok (PBytes b)) /\
         UnmarshalStrict globalRegistry data
         = (Some (mkMessage t id b []), Err ErrUnknownMessageType)) /\
      (Get globalRegistry t <> FactoryNil ->
         UnmarshalStrict globalRegistry data = Unmarshal globalRegistry data).
Proof.
  intros t id b Hid Hlen. exists (fixed_frame t id b []).
  assert (HM : MarshalWithID t id (PBytes (U:=U) b) = Ok (fixed_frame t id b [])).
  { unfold MarshalWithID.
    rewrite (MarshalMessage_frame t id (PBytes b) None b eq_refl Hlen). reflexivity. }
  assert (HU : forall o, verifier_of o = None ->
                 UnmarshalMessage globalRegistry (fixed_frame t id b []) o
                 = (Some (mkMessage t id b []), decodePayload globalRegistry o t b)).
  { intros o Ho. apply UnmarshalMessage_plain; assumption. }
  split; [exact HM|]. unfold Unmarshal, UnmarshalStrict.
  rewrite !HU by reflexivity.
  unfold decodePayload, StrictMessageOptions, registry_of, strict_of. cbn.
  unfold UnmarshalPayloadStrict. split.
  - intros Hnil. rewrite Hnil. split; reflexivity.
  - intros Hget. destruct (Get globalRegistry t); [congruence|reflexivity].
Qed.

(** X17. Bytes after the signature are ignored: [UnmarshalMessage] on a
    frame followed by anything gives what it gives on the frame alone,
    signature check included. *)
Theorem trailing_bytes_ignored :
  forall t id bs sig rest (opts : option (MessageOptions U)),
    is_u32 id -> len bs <= MaxPayloadSize -> is_u32 (len sig) ->
    UnmarshalMessage globalRegistry (fixed_frame t id bs sig ++ rest) opts
    = UnmarshalMessage globalRegistry (fixed_frame t id bs sig) opts.
Proof.
  intros t id bs sig rest opts Hid Hlen Hsig.
  rewrite <- (app_nil_r (fixed_frame t id bs sig)) at 2.
  pose proof (UnmarshalMessage_fixed_frame globalRegistry t id bs sig rest opts
                Hid Hlen Hsig) as H1.
  pose proof (UnmarshalMessage_fixed_frame globalRegistry t id bs sig [] opts
                Hid Hlen Hsig) as H2.
  cbv zeta in H1, H2. rewrite H1, H2.
  rewrite !checkSignature_fixed_frame by assumption. reflexivity.
Qed.

(** X18. [UnmarshalInto] decodes the payload twice: first through the
    global registry, as [Unmarshal] does, and only when that succeeds
    into the target.  So for a type without a factory the target alone
    decides; for a type whose registered factory rejects the payload
    the error of the factory is returned and the target is never
    consulted; and a signature on the frame is accepted unchecked. *)
Theorem UnmarshalInto_decodes_through_registry :
  forall (T : Type) (target : bytes -> result T) t id bs sig,
    is_u32 id -> len bs <= MaxPayloadSize -> is_u32 (len sig) ->
    let data := fixed_frame t id bs sig in
    let filled :=
      match target bs with
      | Ok v => Ok (mkMessage t id bs sig, v)
      | Err e => Err e
      | Panic => Panic
      end in
    (Get globalRegistry t = FactoryNil ->
       UnmarshalInto globalRegistry data target = filled) /\
    (forall unmarshal obj,
       Get globalRegistry t = Factory unmarshal -> unmarshal bs = Ok obj ->
       UnmarshalInto globalRegistry data target = filled) /\
    (forall unmarshal e,
       Get globalRegistry t = Factory unmarshal -> unmarshal bs = Err e ->
       UnmarshalInto globalRegistry data target = Err e).
Proof.
  intros T target t id bs sig Hid Hlen Hsig data filled.
  assert (HU : UnmarshalMessage globalRegistry data None
               = (Some (mkMessage t id bs sig),
                  UnmarshalPayloadStrict globalRegistry t bs false)).
  { unfold data. rewrite <- (app_nil_r (fixed_frame t id bs sig)).
    rewrite UnmarshalMessage_fixed_frame by assumption.
    rewrite checkSignature_fixed_frame by assumption. reflexivity. }
  unfold UnmarshalInto. rewrite HU. unfold UnmarshalPayloadStrict.
  split; [|split].
  - intros ->. reflexivity.
  - intros unmarshal obj -> ->. reflexivity.
  - intros unmarshal e -> ->. reflexivity.
Qed.

End CodecEdges.

(** [truncated_frames_rejected] on a twelve-byte input. *)
Lemma truncated_frames_rejected_witness :
  UnmarshalMessage (U:=Empty_set) NewPayloadRegistry [7; 0; 0; 0; 1; 0; 0; 0; 0; 0; 0; 0] None
  = (None, Err ErrInvalidMessage).
Proof.
  apply (proj1 (truncated_frames_rejected (U:=Empty_set) NewPayloadRegistry None)).
  vm_compute. reflexivity.
Defined.

(** [signed_round_trip] with the toy signer and the toy verifier. *)
Lemma signed_round_trip_witness :
  exists data,
    MarshalMessage 7 9 (PBytes [5]) (Some signing) = Ok data /\
    UnmarshalMessage (U:=Empty_set) NewPayloadRegistry data (Some verifying)
    = (Some (mkMessage 7 9 [5] [1]), Ok (PBytes [5])).
Proof.
  destruct (signed_round_trip (U:=Empty_set) NewPayloadRegistry 7 9 (PBytes [5]) [5]
              (Some signing) (Some verifying) toySigner [1])
    as (data & HM & _ & _ & HV).
  - vm_compute. split; [discriminate|reflexivity].
  - reflexivity.
  - vm_compute. discriminate.
  - reflexivity.
  - reflexivity.
  - vm_compute. split; [discriminate|reflexivity].
  - exists data. split; [exact HM|].
    destruct (HV toyVerifier eq_refl) as (_ & Hok & _).
    rewrite Hok; [|reflexivity|reflexivity].
    unfold decodePayload, UnmarshalPayloadStrict. cbn.
    rewrite Get_new_other by lia. reflexivity.
Defined.

(** [strict_entry_point_keeps_header] on a one-byte payload of type 7. *)
Lemma strict_entry_point_keeps_header_witness :
  exists data,
    MarshalWithID 7 9 (PBytes (U:=Empty_set) [5]) = Ok data /\
    UnmarshalStrict (U:=Empty_set) NewPayloadRegistry data
    = (Some (mkMessage 7 9 [5] []), Err ErrUnknownMessageType).
Proof.
  destruct (strict_entry_point_keeps_header (U:=Empty_set) NewPayloadRegistry 7 9 [5])
    as (data & HM & Hnil & _).
  - vm_compute. split; [discriminate|reflexivity].
  - vm_compute. discriminate.
  - exists data. split; [exact HM|].
    apply (proj2 (Hnil (Get_new_other 7 ltac:(lia) ltac:(lia)))).
Defined.

(** [trailing_bytes_ignored] on a frame followed by two bytes. *)
Lemma trailing_bytes_ignored_witness :
  UnmarshalMessage (U:=Empty_set) NewPayloadRegistry (fixed_frame 7 9 [5] [] ++ [1; 2]) None
  = UnmarshalMessage NewPayloadRegistry (fixed_frame 7 9 [5] []) None.
Proof.
  apply (trailing_bytes_ignored (U:=Empty_set) NewPayloadRegistry 7 9 [5] [] [1; 2] None).
  - vm_compute. split; [discriminate|reflexivity].
  - vm_compute. discriminate.
  - vm_compute. split; [discriminate|reflexivity].
Defined.

(** [UnmarshalInto_decodes_through_registry] with a stream header as
    target, on a frame of type 1 whose registered factory rejects the
    payload [[7]] although it is a well-formed chunk. *)
Lemma UnmarshalInto_decodes_through_registry_witness :
  StreamChunk_Unmarshal [7; 0] = Ok (mkStreamChunk 7 []) /\
  UnmarshalInto registryWithType1 (fixed_frame 1 9 [7; 0] []) StreamChunk_Unmarshal
  = Err EOF.
Proof.
  split; [reflexivity|].
  refine (proj2 (proj2 (UnmarshalInto_decodes_through_registry (U:=Empty_set)
            registryWithType1 StreamChunk StreamChunk_Unmarshal 1 9 [7; 0] [] _ _ _))
            StreamHeader_factory EOF _ _).
  - vm_compute. split; [discriminate|reflexivity].
  - vm_compute. discriminate.
  - vm_compute. split; [discriminate|reflexivity].
  - unfold registryWithType1.
    apply (Get_Register_same NewPayloadRegistry 1 (Factory StreamHeader_factory)). lia.
  - reflexivity.
Defined.

(** ** Protocol engine: sending and receiving end to end *)

Section EngineProperties.

Context {U : Type} `{PayloadMarshaler U}.
Variable globalRegistry : PayloadRegistry U.

Lemma signer_succeeds_None (o : option (MessageOptions U)) :
  signer_of o = None -> signer_succeeds o.
Proof. intros Hs signer d E. congruence. Qed.

Lemma length_framed d : length (framed d) = (4 + length d)%nat.
Proof. unfold framed. rewrite length_app, length_PutUint32. reflexivity. Qed.

(** A turn of the receive loop that goes round again is a call of
    [ReceiveMessage] on the state it goes round with. *)
Lemma ReceiveMessage_skip (q q' : Protocol U) :
  (forall k, ReceiveMessage_loop globalRegistry (S k) q
             = ReceiveMessage_loop globalRegistry k q') ->
  (length (inbound (conn q')) < length (inbound (conn q)))%nat ->
  ReceiveMessage globalRegistry q = ReceiveMessage globalRegistry q'.
Proof.
  intros Hstep Hlt. unfold ReceiveMessage. rewrite Hstep.
  apply ReceiveMessage_loop_fuel; lia.
Qed.

Lemma framed_shorter (q : Protocol U) d rest :
  inbound (conn q) = framed d ++ rest ->
  (length rest < length (inbound (conn q)))%nat.
Proof. intros ->. rewrite length_app, length_framed. lia. Qed.

(** The frames [sendStreamed] writes (the sequence of the streamed send). *)
Lemma sendStreamed_frames (p : Protocol U) t id payloadBytes :
  let cs := ChunkSize (streamConfig p) in
  let L := len payloadBytes in
  0 < cs -> L + cs - 1 < 2 ^ 63 -> total_chunks L cs < 2 ^ 32 ->
  chunks_fit cs payloadBytes -> signer_succeeds (opts p) ->
  exists ds,
    Forall2 (marshals_to (opts p)) (stream_messages t id cs payloadBytes) ds /\
    sendStreamed t id payloadBytes p = (Ok tt, conn_Write (concat (map framed ds)) p).
Proof.
  intros cs L Hcs Hov H32 Hfit Hsign.
  assert (HL0 : 0 <= L) by apply len_nonneg.
  pose proof (total_chunks_nonneg L cs HL0 Hcs) as HN0.
  unfold sendStreamed. fold cs L.
  destruct (Z.eqb_spec cs 0); [lia|].
  rewrite (int_of_small (L + cs - 1)) by lia.
  rewrite Z.quot_div_nonneg by lia. fold (total_chunks L cs).
  rewrite (u32_small (total_chunks L cs)) by (unfold is_u32; lia).
  rewrite (u64_small L)
    by (unfold is_u64; split; [lia|]; change (2 ^ 64) with (2 ^ 63 + 2 ^ 63); lia).
  set (hdr := mkStreamHeader t L (total_chunks L cs)).
  destruct (StreamHeader_Marshal hdr) as [hb| |] eqn:Hhb; try discriminate Hhb.
  destruct (MarshalMessage_succeeds MessageTypeStreamStart id (PStreamHeader hdr)
              (opts p) hb Hhb (StreamHeader_fits hdr hb Hhb) Hsign) as [d0 Hd0].
  rewrite (sendDirect_ok _ _ _ p d0 Hd0).
  destruct (sendChunks_spec id cs payloadBytes (Z.to_nat (total_chunks L cs)) 0
              (conn_Write (framed d0) p) Hcs ltac:(lia)
              ltac:(fold L; rewrite Z2Nat.id by lia; lia) Hov H32 Hfit Hsign)
    as (ds & Hds & Hrun).
  rewrite Hrun. rewrite Z2Nat.id in Hds by lia.
  destruct (MarshalMessage_succeeds MessageTypeStreamEnd id (PBytes [])
              (opts p) [] eq_refl ltac:(vm_compute; discriminate) Hsign) as [d1 Hd1].
  rewrite (sendDirect_ok _ _ _
             (conn_Write (concat (map framed ds)) (conn_Write (framed d0) p)) d1 Hd1).
  exists (d0 :: ds ++ [d1]). split.
  - unfold stream_messages. fold L. cbn [app]. constructor; [exact Hd0|].
    apply Forall2_app; [exact Hds|]. constructor; [exact Hd1|constructor].
  - rewrite !conn_Write_app. cbn [map concat].
    rewrite map_app, concat_app. cbn [map concat]. rewrite app_nil_r.
    reflexivity.
Qed.

(** A START frame is consumed and its stream (re)started. *)
Lemma receive_START (q : Protocol U) id hdr so d rest :
  inbound (conn q) = framed d ++ rest ->
  MarshalMessage MessageTypeStreamStart id (PStreamHeader hdr) so = Ok d ->
  within_frame_bound d -> signatures_accepted so (opts q) ->
  registries_reachable globalRegistry (opts q) ->
  is_u32 id -> is_u64 (TotalSize hdr) -> is_u32 (TotalChunks hdr) ->
  ReceiveMessage globalRegistry q
  = ReceiveMessage globalRegistry (startStream id hdr (set_inbound rest q)).
Proof.
  intros Hin HM Hb Hacc Hreg Hid Hsz Hch. apply ReceiveMessage_skip.
  - intros k. apply (loop_START globalRegistry k q id hdr so d rest); assumption.
  - cbn [startStream set_activeStreams set_inbound conn inbound].
    apply (framed_shorter q d rest Hin).
Qed.

(** The END case of the receive loop on a receiver that is not strict. *)
Lemma loop_END k (q : Protocol U) id pl so d rest :
  inbound (conn q) = framed d ++ rest ->
  MarshalMessage MessageTypeStreamEnd id pl so = Ok d ->
  within_frame_bound d -> signatures_accepted so (opts q) ->
  registries_reachable globalRegistry (opts q) -> is_u32 id ->
  strict_of (opts q) = false ->
  ReceiveMessage_loop globalRegistry (S k) q
  = match activeStreams q !! id with
    | Some a =>
        if received a =? TotalChunks (header a) then
          match assembleStream a with
          | Ok assembledPayload =>
              deliver globalRegistry (OriginalType (header a)) id assembledPayload
                (set_activeStreams (delete id (activeStreams q)) (set_inbound rest q))
          | Err e => (Err e, set_inbound rest q)
          | Panic => (Panic, set_inbound rest q)
          end
        else ReceiveMessage_loop globalRegistry k (set_inbound rest q)
    | None => ReceiveMessage_loop globalRegistry k (set_inbound rest q)
    end.
Proof.
  intros Hin HM Hb Hacc Hreg Hid Hstrict. cbn [ReceiveMessage_loop].
  destruct (receiveRaw_message globalRegistry q _ id _ so d rest Hin HM Hb Hacc Hid)
    as (bs & sig & Hp & Hlen & _ & Hraw).
  rewrite Hraw. rewrite decodePayload_reserved by (assumption || (vm_compute; discriminate)).
  rewrite Get_new_other by (unfold MessageTypeStreamEnd; lia).
  rewrite Hstrict. cbn [MsgType ID].
  change (MessageTypeStreamEnd =? MessageTypeStreamStart) with false.
  change (MessageTypeStreamEnd =? MessageTypeStreamChunk) with false.
  rewrite Z.eqb_refl. reflexivity.
Qed.


(** X19. A direct send read back: when streaming does not apply and
    [MarshalMessage] succeeds under the sender's options, [SendMessage]
    writes one frame, the four-byte length followed by the marshalled
    message with the signer's signature, if there is a signer.  A
    receiver that finds this frame first in its input, for which the
    frame passes the length check of [receiveRaw] and whose verifier,
    if it has one, accepts the sender's signatures, gets from
    [ReceiveMessage] the message with the same type, id, payload bytes
    and signature, decoded under its own options, the rest of the
    input left unread; a receiver with a verifier that reads the frame
    of a sender without signer gets [ErrSignatureRequired].  The type
    is not one of the three stream control types. *)
Theorem direct_send_receive :
  forall (p q : Protocol U) t id pl bs d rest,
    is_u32 id -> t <> 250 -> t <> 251 -> t <> 252 ->
    MarshalPayload pl = Ok bs ->
    Enabled (streamConfig p) = false \/ len bs < Threshold (streamConfig p) ->
    MarshalMessage t id pl (opts p) = Ok d ->
    exists sig,
      d = fixed_frame t id bs sig /\
      SendMessage t id pl p = (Ok tt, conn_Write (framed d) p) /\
      (inbound (conn q) = framed d ++ rest -> within_frame_bound d ->
       (signatures_accepted (opts p) (opts q) ->
        ReceiveMessage globalRegistry q
        = match decodePayload globalRegistry (opts q) t bs with
          | Ok obj => (Ok (mkMessage t id bs sig, obj), set_inbound rest q)
          | Err e => (Err e, set_inbound rest q)
          | Panic => (Panic, set_inbound rest q)
          end) /\
       (signer_of (opts p) = None -> verifier_of (opts q) <> None ->
        ReceiveMessage globalRegistry q = (Err ErrSignatureRequired, set_inbound rest q))).
Proof.
  intros p q t id pl bs d rest Hid H250 H251 H252 Hp Hns HM.
  destruct (MarshalMessage_inv t id pl (opts p) d HM) as (bs' & sig & Hp' & Hlen & Hd & Hsig).
  rewrite Hp in Hp'. injection Hp' as <-.
  exists sig. split; [exact Hd|]. split.
  - unfold SendMessage. rewrite Hp.
    assert (Hc : Enabled (streamConfig p) && (len bs >=? Threshold (streamConfig p)) = false).
    { destruct Hns as [->|Hth]; [reflexivity|].
      destruct (Z.geb_spec (len bs) (Threshold (streamConfig p))); [lia|].
      apply andb_false_r. }
    rewrite Hc. apply sendDirect_ok. exact HM.
  - intros Hin Hb.
    assert (Hs32 : is_u32 (len sig)).
    { unfold within_frame_bound in Hb. rewrite Hd, len_fixed_frame in Hb.
      pose proof (len_nonneg bs). pose proof (len_nonneg sig).
      change HeaderSize with 9 in Hb. change SignatureLengthSize with 4 in Hb.
      unfold MaxPayloadSize in Hb. split; [lia|].
      apply Z.le_lt_trans with (100 * 1024 * 1024 + 9 + 4 + 1024); [lia|reflexivity]. }
    unfold ReceiveMessage. cbn [ReceiveMessage_loop].
    rewrite (receiveRaw_framed globalRegistry q _ rest Hin Hb). rewrite Hd. split.
    + intros Hacc.
      rewrite (UnmarshalMessage_accepted globalRegistry t id bs sig (opts p) (opts q))
        by assumption.
      destruct (decodePayload globalRegistry (opts q) t bs) as [obj|e|]; try reflexivity.
      cbn [MsgType].
      destruct (Z.eqb_spec t MessageTypeStreamStart) as [E|_]; [contradiction|].
      destruct (Z.eqb_spec t MessageTypeStreamChunk) as [E|_]; [contradiction|].
      destruct (Z.eqb_spec t MessageTypeStreamEnd) as [E|_]; [contradiction|].
      reflexivity.
    + intros Hs Hv. rewrite Hs in Hsig. subst sig.
      rewrite <- (app_nil_r (fixed_frame t id bs [])).
      rewrite UnmarshalMessage_fixed_frame by assumption.
      rewrite checkSignature_fixed_frame by assumption.
      destruct (verifier_of (opts q)) as [v|]; [|contradiction]. reflexivity.
Qed.


(** X21. An empty payload that is streamed (a threshold of zero or
    less) has no CHUNK frame: with a positive chunk size and a signer,
    if any, that signs, [sendStreamed] writes START and END only.  Of
    the receivers whose registries were built through the registry
    interface, for which the two frames pass the length check of
    [receiveRaw] and whose verifier, if any, accepts the sender's
    signatures, one that is not strict delivers the empty message on
    the END frame, and a strict one answers [ErrUnknownMessageType] to
    that END frame, so it never delivers the message. *)
Theorem empty_stream_delivered_at_end :
  forall (p q : Protocol U) t id rest,
    let cs := ChunkSize (streamConfig p) in
    is_u32 id -> 0 < cs -> cs - 1 < 2 ^ 63 ->
    signer_succeeds (opts p) ->
    registries_reachable globalRegistry (opts q) ->
    exists d_start d_end,
      MarshalMessage MessageTypeStreamStart id
        (PStreamHeader (mkStreamHeader t 0 0)) (opts p) = Ok d_start /\
      MarshalMessage MessageTypeStreamEnd id (PBytes []) (opts p) = Ok d_end /\
      sendStreamed t id [] p = (Ok tt, conn_Write (framed d_start ++ framed d_end) p) /\
      (signatures_accepted (opts p) (opts q) ->
       within_frame_bound d_start -> within_frame_bound d_end ->
       inbound (conn q) = framed d_start ++ framed d_end ++ rest ->
       (strict_of (opts q) = false ->
        ReceiveMessage globalRegistry q
        = match UnmarshalPayload globalRegistry t [] with
          | Ok payloadObj =>
              (Ok (mkMessage t id [] [], payloadObj),
               set_activeStreams (delete id (activeStreams q)) (set_inbound rest q))
          | Err e =>
              (Err e, set_activeStreams (delete id (activeStreams q)) (set_inbound rest q))
          | Panic =>
              (Panic, set_activeStreams (delete id (activeStreams q)) (set_inbound rest q))
          end) /\
       (strict_of (opts q) = true ->
        fst (ReceiveMessage globalRegistry q) = Err ErrUnknownMessageType)).
Proof.
  intros p q t id rest cs Hid Hcs Hov Hsign Hreg.
  assert (HN : total_chunks (len (@nil Z)) cs = 0).
  { unfold total_chunks. change (len (@nil Z)) with 0. apply Z.div_small. lia. }
  destruct (sendStreamed_frames p t id [] Hcs
              ltac:(change (len (@nil Z)) with 0; lia)
              ltac:(fold cs; rewrite HN; reflexivity)
              ltac:(intros i bs Hi; fold cs in Hi; rewrite HN in Hi; lia)
              Hsign) as (ds & Hds & Hsend).
  fold cs in Hds. unfold stream_messages in Hds. rewrite HN in Hds.
  change (len (@nil Z)) with 0 in Hds. cbn [seqZ map app] in Hds.
  change (seqZ 0 0) with (@nil Z) in Hds. cbn [map app] in Hds.
  inversion Hds as [|m0 d0 ms ds1 Hd0 Hds1 E1 E2]; subst m0 ms ds; clear Hds.
  inversion Hds1 as [|m1 d1 ms1 dn Hd1 Hnil E1 E2]; subst m1 ms1 ds1; clear Hds1.
  inversion Hnil; subst dn; clear Hnil.
  unfold marshals_to in Hd0, Hd1.
  exists d0, d1. split; [exact Hd0|]. split; [exact Hd1|]. split.
  { rewrite Hsend. cbn [map concat]. rewrite app_nil_r. reflexivity. }
  intros Hacc Hb0 Hb1 Hin.
  set (hdr := mkStreamHeader t 0 0).
  set (pS := startStream id hdr (set_inbound (framed d1 ++ rest) q)).
  assert (HS : ReceiveMessage globalRegistry q = ReceiveMessage globalRegistry pS).
  { apply (receive_START q id hdr (opts p) d0 _ Hin Hd0 Hb0 Hacc Hreg Hid);
      vm_compute; split; (discriminate || reflexivity). }
  rewrite HS. unfold ReceiveMessage. split.
  - intros Hstrict.
    rewrite (loop_END _ pS id (PBytes []) (opts p) d1 rest eq_refl Hd1 Hb1 Hacc Hreg Hid
               Hstrict).
    unfold pS at 1. rewrite startStream_state. cbn [received header TotalChunks hdr].
    rewrite Z.eqb_refl.
    rewrite assembleStream_Ok by (cbn [header TotalSize hdr]; vm_compute; discriminate).
    unfold deliver, UnmarshalPayload.
    cbn [OriginalType header hdr TotalChunks chunks].
    change (Z.to_nat 0) with 0%nat. cbn [assembleStream_loop].
    assert (Hst : set_activeStreams (delete id (activeStreams pS)) (set_inbound rest pS)
                  = set_activeStreams (delete id (activeStreams q)) (set_inbound rest q)).
    { unfold pS, startStream, set_activeStreams, set_inbound.
      cbn [conn opts nextID streamConfig activeStreams inbound outbound].
      rewrite delete_insert_eq. reflexivity. }
    rewrite Hst. reflexivity.
  - intros Hstrict.
    rewrite (loop_END_strict globalRegistry _ pS id (PBytes []) (opts p) d1 rest
               eq_refl Hd1 Hb1 Hacc Hreg Hid Hstrict).
    reflexivity.
Qed.

(** X22. Stream control frames never reach the caller of a receiver that
    is not strict.  Let the receiver's registries be built through the
    registry interface, and let its next frame be one that a sender
    marshalled, that passes the length check of [receiveRaw] and whose
    signature the receiver's verifier, if it has one, accepts.  A START
    frame (re)starts the stream of its id with an empty assembler,
    whatever was collected under that id; a CHUNK frame for an id
    without a stream is dropped (in strict mode as well); an END frame
    for an id without a stream, or with a stream that is still
    incomplete, is dropped and the stream stays as it is.  In each case
    [ReceiveMessage] goes on with the next frame. *)
Theorem stream_control_frames_consumed :
  forall (q : Protocol U) so id d rest,
    within_frame_bound d -> signatures_accepted so (opts q) ->
    registries_reachable globalRegistry (opts q) -> is_u32 id ->
    inbound (conn q) = framed d ++ rest ->
    (forall hdr,
       is_u64 (TotalSize hdr) -> is_u32 (TotalChunks hdr) ->
       MarshalMessage MessageTypeStreamStart id (PStreamHeader hdr) so = Ok d ->
       ReceiveMessage globalRegistry q
       = ReceiveMessage globalRegistry (startStream id hdr (set_inbound rest q)) /\
       activeStreams (startStream id hdr (set_inbound rest q)) !! id
       = Some (mkStreamAssembler hdr ∅ 0)) /\
    (forall c,
       is_u32 (ChunkIndex c) ->
       MarshalMessage MessageTypeStreamChunk id (PStreamChunk c) so = Ok d ->
       activeStreams q !! id = None ->
       ReceiveMessage globalRegistry q = ReceiveMessage globalRegistry (set_inbound rest q)) /\
    (forall pl,
       strict_of (opts q) = false ->
       MarshalMessage MessageTypeStreamEnd id pl so = Ok d ->
       activeStreams q !! id = None \/
       (exists a, activeStreams q !! id = Some a /\ received a <> TotalChunks (header a)) ->
       ReceiveMessage globalRegistry q = ReceiveMessage globalRegistry (set_inbound rest q)).
Proof.
  intros q so id d rest Hb Hacc Hreg Hid Hin.
  assert (Hshort : (length (inbound (conn (set_inbound rest q)))
                    < length (inbound (conn q)))%nat).
  { cbn [set_inbound conn inbound]. apply (framed_shorter q d rest Hin). }
  split; [|split].
  - intros hdr Hsz Hch HM. split; [|apply startStream_state].
    apply (receive_START q id hdr so d rest); assumption.
  - intros c Hidx HM Hnone. apply ReceiveMessage_skip; [|exact Hshort].
    intros k.
    rewrite (loop_CHUNK globalRegistry k q id c so d rest Hin HM Hb Hacc Hreg Hid Hidx).
    unfold addChunk. rewrite set_inbound_activeStreams, Hnone. reflexivity.
  - intros pl Hstrict HM Hstate. apply ReceiveMessage_skip; [|exact Hshort].
    intros k. rewrite (loop_END k q id pl so d rest Hin HM Hb Hacc Hreg Hid Hstrict).
    destruct Hstate as [->|(a & -> & Hne)]; [reflexivity|].
    destruct (Z.eqb_spec (received a) (TotalChunks (header a))); [contradiction|reflexivity].
Qed.

End EngineProperties.

Lemma fixed_frame_signature t id bs sig sig' :
  fixed_frame t id bs sig = fixed_frame t id bs sig' -> sig = sig'.
Proof.
  unfold fixed_frame. intros E.
  do 4 apply app_inv_head in E. unfold PutUint32 in E. cbn [app] in E.
  injection E as _ _ _ _ E. exact E.
Qed.

Lemma toy_signatures_accepted (ro : option (MessageOptions Empty_set)) :
  verifier_of ro = Some toyVerifier \/ verifier_of ro = None ->
  signatures_accepted (Some signing) ro.
Proof.
  intros Hro v Hv. destruct Hro as [E|E]; rewrite E in Hv; [|discriminate Hv].
  injection Hv as <-. exists toySigner. split; [reflexivity|].
  intros md sig Hsig. injection Hsig as <-. split; [discriminate|reflexivity].
Qed.

Lemma toy_signer_succeeds : signer_succeeds (Some signing).
Proof. intros s d E. injection E as <-. exists [1]. reflexivity. Qed.

Lemma verifying_registries_reachable pending :
  registries_reachable NewPayloadRegistry (opts (verifyingReceiver pending)).
Proof. split; [constructor|]. intros r E. discriminate E. Qed.

(** [direct_send_receive] on a one-byte payload of type 7, signed by the
    sender and verified by the receiver. *)
Lemma direct_send_receive_witness :
  SendMessage 7 9 (PBytes [5]) signingDirectSender
  = (Ok tt, conn_Write (framed (fixed_frame 7 9 [5] [1])) signingDirectSender) /\
  ReceiveMessage NewPayloadRegistry
    (verifyingReceiver (framed (fixed_frame 7 9 [5] [1]) ++ [1]))
  = (Ok (mkMessage 7 9 [5] [1], PBytes [5]),
     set_inbound [1] (verifyingReceiver (framed (fixed_frame 7 9 [5] [1]) ++ [1]))).
Proof.
  destruct (direct_send_receive (U:=Empty_set) NewPayloadRegistry signingDirectSender
              (verifyingReceiver (framed (fixed_frame 7 9 [5] [1]) ++ [1]))
              7 9 (PBytes [5]) [5] (fixed_frame 7 9 [5] [1]) [1])
    as (sig & Hd & Hsend & Hrecv).
  - vm_compute. split; [discriminate|reflexivity].
  - lia.
  - lia.
  - lia.
  - reflexivity.
  - right. vm_compute. reflexivity.
  - reflexivity.
  - assert (Hsig : sig = [1]).
    { symmetry. apply (fixed_frame_signature 7 9 [5] [1] sig Hd). }
    subst sig. split; [exact Hsend|].
    destruct (Hrecv eq_refl ltac:(vm_compute; discriminate)) as [Hok _].
    rewrite Hok by (apply toy_signatures_accepted; left; reflexivity).
    unfold decodePayload, UnmarshalPayloadStrict. cbn.
    rewrite Get_new_other by lia. reflexivity.
Defined.


(** [empty_stream_delivered_at_end] with two-byte chunks, a signing
    sender and a verifying receiver that is not strict. *)
Lemma empty_stream_delivered_at_end_witness :
  sendStreamed 7 9 [] signingSender
  = (Ok tt, conn_Write (framed signedEmptyStartFrame ++ framed signedEndFrame)
              signingSender) /\
  fst (ReceiveMessage NewPayloadRegistry
         (verifyingReceiver (framed signedEmptyStartFrame ++ framed signedEndFrame)))
  = Ok (mkMessage 7 9 [] [], PBytes []).
Proof.
  destruct (empty_stream_delivered_at_end (U:=Empty_set) NewPayloadRegistry signingSender
              (verifyingReceiver (framed signedEmptyStartFrame ++ framed signedEndFrame))
              7 9 []) as (d0 & d1 & H0 & H1 & Hsend & Hrecv).
  - vm_compute. split; [discriminate|reflexivity].
  - vm_compute. reflexivity.
  - vm_compute. reflexivity.
  - apply toy_signer_succeeds.
  - apply verifying_registries_reachable.
  - vm_compute in H0, H1. injection H0 as <-. injection H1 as <-.
    split; [exact Hsend|].
    destruct Hrecv as [Hok _].
    + apply toy_signatures_accepted. left. reflexivity.
    + vm_compute. discriminate.
    + vm_compute. discriminate.
    + vm_compute. reflexivity.
    + rewrite (Hok eq_refl). unfold UnmarshalPayload, UnmarshalPayloadStrict.
      rewrite Get_new_other by lia. reflexivity.
Defined.

(** [stream_control_frames_consumed] on a signed END frame for a stream
    that was never started, read by a verifying receiver. *)
Lemma stream_control_frames_consumed_witness :
  ReceiveMessage NewPayloadRegistry (verifyingReceiver (framed signedEndFrame ++ [1]))
  = ReceiveMessage NewPayloadRegistry
      (set_inbound [1] (verifyingReceiver (framed signedEndFrame ++ [1]))).
Proof.
  refine (proj2 (proj2 (stream_control_frames_consumed (U:=Empty_set) NewPayloadRegistry
            (verifyingReceiver (framed signedEndFrame ++ [1])) (Some signing) 9
            signedEndFrame [1] _ _ _ _ _))
            (PBytes []) _ _ _).
  - vm_compute. discriminate.
  - apply toy_signatures_accepted. left. reflexivity.
  - apply verifying_registries_reachable.
  - vm_compute. split; [discriminate|reflexivity].
  - reflexivity.
  - reflexivity.
  - reflexivity.
  - left. reflexivity.
Defined.

(** ** Reassembly: chunk order, stray indices *)

Section ReassemblyProperties.

Context {U : Type} `{PayloadMarshaler U}.

(** Every stored chunk is the data of some CHUNK event with that index. *)
Lemma addChunks_values msgID (f : Z -> bytes) cs : forall (p : Protocol U) a,
  activeStreams p !! msgID = Some a ->
  (forall c, In c cs -> Data c = f (ChunkIndex c)) ->
  (forall i d, chunks a !! i = Some d -> d = f i) ->
  exists a',
    activeStreams (addChunks msgID cs p) !! msgID = Some a' /\
    (forall i d, chunks a' !! i = Some d -> d = f i).
Proof.
  induction cs as [|c cs IH]; intros p a Ha Hcs Hinit.
  - exists a. split; assumption.
  - cbn [addChunks fold_left].
    pose proof (addChunk_state p msgID c a Ha) as Hst.
    apply (IH _ _ Hst).
    + intros c' Hc'. apply Hcs. right. exact Hc'.
    + intros i d. cbn [chunks]. destruct (Z.eq_dec (ChunkIndex c) i) as [<-|Hne].
      * rewrite lookup_insert_eq. intros [= <-]. apply Hcs. left. reflexivity.
      * rewrite lookup_insert_ne by assumption. apply Hinit.
Qed.

(** X23. The order of the CHUNK frames does not matter: on a stream
    started with the header of a payload, CHUNK events that carry each
    index below [total_chunks] exactly once, each with the payload's
    bytes for its index, in any order, complete the stream on the last
    event and not before, and the assembled bytes are the payload (a
    payload longer than any slice the runtime allocates would make the
    assembly panic). *)
Theorem chunk_order_irrelevant :
  forall (p : Protocol U) t msgID cs payloadBytes pre last,
    let N := total_chunks (len payloadBytes) cs in
    0 < cs -> N < 2 ^ 32 ->
    Permutation (map ChunkIndex (pre ++ [last])) (seqZ 0 N) ->
    (forall c, In c (pre ++ [last]) -> Data c = chunk_of cs payloadBytes (ChunkIndex c)) ->
    let p0 := startStream msgID (mkStreamHeader t (len payloadBytes) N) p in
    (forall pre1 c pre2,
       pre = pre1 ++ c :: pre2 ->
       fst (addChunk msgID c (addChunks msgID pre1 p0)) = Ok (false, [])) /\
    fst (addChunk msgID last (addChunks msgID pre p0))
    = if len payloadBytes >? maxAlloc then Panic else Ok (true, payloadBytes).
Proof.
  intros p t msgID cs payloadBytes pre last N Hcs H32 Hperm Hdata p0.
  set (hdr := mkStreamHeader t (len payloadBytes) N) in *.
  pose proof (total_chunks_nonneg (len payloadBytes) cs (len_nonneg _) Hcs) as HN0.
  fold N in HN0.
  assert (HlenN : len pre + 1 = N).
  { pose proof (Permutation_length Hperm) as E.
    rewrite length_map, length_app, length_seqZ in E. cbn [length] in E.
    unfold len. lia. }
  pose proof (len_nonneg pre) as Hpre0.
  assert (Hfresh : is_u32 (received (mkStreamAssembler hdr ∅ 0)))
    by (vm_compute; intuition discriminate).
  assert (Hrun : forall l, len l < 2 ^ 32 ->
            exists a1,
              activeStreams (addChunks msgID l p0) !! msgID = Some a1 /\
              header a1 = hdr /\ received a1 = len l /\
              (forall i, In i (map ChunkIndex l) -> is_Some (chunks a1 !! i))).
  { intros l Hl.
    destruct (addChunks_state msgID l p0 _ (startStream_state p msgID hdr) Hfresh)
      as (a1 & Ha1 & Hh & Hr & Hc).
    exists a1. split; [exact Ha1|]. split; [exact Hh|]. split.
    - rewrite Hr. cbn [received]. apply u32_small. pose proof (len_nonneg l).
      unfold is_u32. lia.
    - intros i Hi. apply Hc. right. exact Hi. }
  split.
  - intros pre1 c pre2 Hsplit.
    assert (Hl1 : len pre1 + 1 <= len pre).
    { rewrite Hsplit, len_app, len_cons. pose proof (len_nonneg pre2). lia. }
    pose proof (len_nonneg pre1).
    destruct (Hrun pre1 ltac:(lia)) as (a1 & Ha1 & Hh & Hr & _).
    rewrite (addChunk_active _ msgID c a1 Ha1). cbv zeta. cbn [received].
    rewrite Hh, Hr. cbn [TotalChunks hdr].
    rewrite u32_small by (unfold is_u32; lia).
    destruct (Z.eqb_spec (len pre1 + 1) N); [lia|reflexivity].
  - destruct (Hrun pre ltac:(lia)) as (a1 & Ha1 & Hh & Hr & Hdom).
    destruct (addChunks_values msgID (chunk_of cs payloadBytes) pre p0 _
                (startStream_state p msgID hdr)) as (a2 & Ha2 & Hval).
    { intros c Hc. apply Hdata. apply in_or_app. left. exact Hc. }
    { intros i d. cbn [chunks]. rewrite lookup_empty. discriminate. }
    rewrite Ha1 in Ha2. injection Ha2 as <-.
    rewrite (addChunk_active _ msgID last a1 Ha1). cbv zeta. cbn [received].
    rewrite Hh, Hr. cbn [TotalChunks hdr].
    rewrite u32_small by (unfold is_u32; lia).
    destruct (Z.eqb_spec (len pre + 1) N); [|lia]. cbn [fst].
    rewrite (assembleStream_complete _ t cs payloadBytes Hcs).
    + destruct (len payloadBytes >? maxAlloc); reflexivity.
    + reflexivity.
    + intros j Hj. cbn [chunks]. fold N in Hj.
      destruct (Z.eq_dec (ChunkIndex last) j) as [E|Hne].
      * rewrite E, lookup_insert_eq. f_equal. rewrite <- E. apply Hdata.
        apply in_or_app. right. left. reflexivity.
      * rewrite lookup_insert_ne by assumption.
        assert (Hin : In j (map ChunkIndex (pre ++ [last]))).
        { apply (Permutation_in j (Permutation_sym Hperm)).
          apply list_elem_of_In, elem_of_seqZ. lia. }
        rewrite map_app, in_app_iff in Hin. cbn [map In] in Hin.
        destruct Hin as [Hin|[Hin|[]]]; [|contradiction].
        destruct (Hdom j Hin) as [dj Hdj]. rewrite Hdj. f_equal.
        apply (Hval j dj Hdj).
Qed.

Lemma assembleStream_loop_insert n : forall i (m : gmap Z bytes) res k d,
  ~ (i <= k < i + Z.of_nat n) ->
  assembleStream_loop n i (<[k := d]> m) res = assembleStream_loop n i m res.
Proof.
  induction n as [|n IH]; intros i m res k d Hk; [reflexivity|].
  cbn [assembleStream_loop]. rewrite lookup_insert_ne by lia.
  apply IH. lia.
Qed.

(** X24. A CHUNK whose index is not below [total_chunks] is counted but
    carries no data into the message: [addChunk] stores it and
    increments [received], yet the assembly of the stream is what it
    was before. *)
Theorem stray_index_counts_without_data :
  forall (p : Protocol U) msgID c a,
    activeStreams p !! msgID = Some a ->
    ~ (0 <= ChunkIndex c < TotalChunks (header a)) ->
    exists a',
      activeStreams (snd (addChunk msgID c p)) !! msgID = Some a' /\
      header a' = header a /\
      received a' = (received a + 1) mod 2 ^ 32 /\
      chunks a' !! ChunkIndex c = Some (Data c) /\
      assembleStream a' = assembleStream a.
Proof.
  intros p msgID c a Ha Hout.
  eexists. split; [apply (addChunk_state p msgID c a Ha)|].
  cbn [header received chunks]. split; [reflexivity|]. split; [reflexivity|].
  split; [apply lookup_insert_eq|].
  unfold assembleStream. cbn [header chunks].
  rewrite assembleStream_loop_insert by lia. reflexivity.
Qed.

End ReassemblyProperties.

(** [chunk_order_irrelevant] on the three-byte payload in two-byte
    chunks, the second chunk arriving first. *)
Lemma chunk_order_irrelevant_witness :
  fst (addChunk 9 (mkStreamChunk 0 [1; 2])
         (addChunks 9 [mkStreamChunk 1 [3]]
            (startStream 9 (mkStreamHeader 7 3 2) plainSender)))
  = Ok (true, [1; 2; 3]).
Proof.
  refine (proj2 (chunk_order_irrelevant (U:=Empty_set) plainSender 7 9 2 [1; 2; 3]
                   [mkStreamChunk 1 [3]] (mkStreamChunk 0 [1; 2]) _ _ _ _)).
  - lia.
  - vm_compute. reflexivity.
  - change (Permutation [1; 0] [0; 1]). apply perm_swap.
  - intros c [<-|[<-|[]]]; reflexivity.
Defined.

(** [stray_index_counts_without_data] on a receiver that holds chunk 0
    of a two-chunk stream and gets a CHUNK with index 5. *)
Lemma stray_index_counts_without_data_witness :
  exists a',
    activeStreams (snd (addChunk 9 (mkStreamChunk 5 [8]) oneChunkReceiver)) !! 9 = Some a' /\
    received a' = 2 /\ assembleStream a' = Ok [1].
Proof.
  destruct (stray_index_counts_without_data (U:=Empty_set) oneChunkReceiver 9
              (mkStreamChunk 5 [8])
              (mkStreamAssembler (mkStreamHeader 7 2 2) (<[0 := [1]]> ∅) 1))
    as (a' & Ha' & _ & Hr & _ & Has).
  - vm_compute. reflexivity.
  - cbn. lia.
  - exists a'. split; [exact Ha'|]. split; [rewrite Hr; reflexivity|].
    rewrite Has. vm_compute. reflexivity.
Defined.

(** ** Protocol engine: message ids, framing errors, failed sends *)

Lemma add_mod_injective a x y M :
  0 < M -> 0 <= x < M -> 0 <= y < M -> (a + x) mod M = (a + y) mod M -> x = y.
Proof.
  intros HM Hx Hy E.
  pose proof (Z.div_mod (a + x) M ltac:(lia)) as Ex.
  pose proof (Z.div_mod (a + y) M ltac:(lia)) as Ey.
  rewrite E in Ex.
  assert (Hd : x - y = M * ((a + x) / M - (a + y) / M)) by lia.
  assert (Hq : (a + x) / M - (a + y) / M = 0) by nia.
  lia.
Qed.

Lemma ReadFull_4 (lenBuf rest : bytes) :
  length lenBuf = 4%nat -> ReadFull (lenBuf ++ rest) 4 = Ok (lenBuf, rest).
Proof.
  intros Hl. replace 4 with (len lenBuf) by (unfold len; rewrite Hl; reflexivity).
  apply ReadFull_app.
Qed.

Section EngineEdges.

Context {U : Type} `{PayloadMarshaler U}.
Variable globalRegistry : PayloadRegistry U.

Lemma NextMessageIDs_spec n : forall (p : Protocol U),
  is_u32 (nextID p) ->
  NextMessageIDs n p
  = (map (fun k => u32 (nextID p + Z.of_nat k)) (seq 0 n),
     mkProtocol (conn p) (opts p) (u32 (nextID p + Z.of_nat n))
       (streamConfig p) (activeStreams p)).
Proof.
  induction n as [|n IH]; intros p Hp.
  - cbn [NextMessageIDs seq map]. change (Z.of_nat 0) with 0.
    rewrite Z.add_0_r, u32_small by assumption. destruct p; reflexivity.
  - cbn [NextMessageIDs]. unfold NextMessageID.
    rewrite IH by (cbn [nextID]; apply u32_is_u32).
    cbn [nextID conn opts streamConfig activeStreams seq map].
    f_equal.
    + f_equal.
      * change (Z.of_nat 0) with 0. rewrite Z.add_0_r. symmetry. apply u32_small. assumption.
      * rewrite <- seq_shift, map_map. apply map_ext. intros k. unfold u32.
        rewrite Zplus_mod_idemp_l. f_equal. lia.
    + f_equal. unfold u32. rewrite Zplus_mod_idemp_l. f_equal. lia.
Qed.

(** X25. Message ids count up: from a counter value [c], the [k]-th
    call of [NextMessageID] (counting from zero) returns
    [(c + k) mod 2^32], so after [2^32 - 1] comes [0]; up to [2^32]
    successive calls return pairwise different ids; nothing but the
    counter changes; and [Send] uses the id it draws this way. *)
Theorem message_ids_count_up :
  forall n (p : Protocol U),
    is_u32 (nextID p) ->
    fst (NextMessageIDs n p)
    = map (fun k => (nextID p + Z.of_nat k) mod 2 ^ 32) (seq 0 n) /\
    snd (NextMessageIDs n p)
    = mkProtocol (conn p) (opts p) ((nextID p + Z.of_nat n) mod 2 ^ 32)
        (streamConfig p) (activeStreams p) /\
    (Z.of_nat n <= 2 ^ 32 -> List.NoDup (fst (NextMessageIDs n p))) /\
    (nextID p = 2 ^ 32 - 1 -> fst (NextMessageIDs 2 p) = [2 ^ 32 - 1; 0]) /\
    (forall t pl, fst (fst (Send t pl p)) = nextID p).
Proof.
  intros n p Hp. rewrite (NextMessageIDs_spec n p Hp). cbn [fst snd].
  split; [reflexivity|]. split; [reflexivity|]. split; [|split].
  - intros Hn. apply Injective_map_NoDup_in; [|apply seq_NoDup].
    intros x y Hx Hy E. apply in_seq in Hx, Hy.
    apply Nat2Z.inj.
    apply (add_mod_injective (nextID p) (Z.of_nat x) (Z.of_nat y) (2 ^ 32));
      [reflexivity|lia|lia|exact E].
  - intros E. rewrite (NextMessageIDs_spec 2 p Hp). cbn [fst seq map]. rewrite E.
    reflexivity.
  - intros t pl. unfold Send, NextMessageID.
    destruct (SendMessage t (nextID p) pl _) as [r p2]. reflexivity.
Qed.

(** X26. Framing errors of the receiver: with fewer than four bytes
    pending, [ReceiveMessage] fails with [io.EOF] (nothing pending) or
    [io.ErrUnexpectedEOF]; a length prefix above
    [MaxPayloadSize + 13 + 1024] is refused with [ErrPayloadTooLarge]
    before any byte of the body is read; a body shorter than its prefix
    gives an end-of-input error; and a frame of fewer than 13 bytes is
    read whole and refused with [ErrInvalidMessage]. *)
Theorem receive_framing_errors :
  forall (q : Protocol U),
    (len (inbound (conn q)) < 4 ->
       fst (ReceiveMessage globalRegistry q)
       = Err (if len (inbound (conn q)) =? 0 then EOF else ErrUnexpectedEOF)) /\
    (forall lenBuf rest,
       inbound (conn q) = lenBuf ++ rest -> length lenBuf = 4%nat ->
       MaxPayloadSize + 13 + 1024 < Uint32 lenBuf ->
       ReceiveMessage globalRegistry q = (Err ErrPayloadTooLarge, set_inbound rest q)) /\
    (forall lenBuf body,
       inbound (conn q) = lenBuf ++ body -> length lenBuf = 4%nat ->
       Uint32 lenBuf <= MaxPayloadSize + 13 + 1024 -> len body < Uint32 lenBuf ->
       fst (ReceiveMessage globalRegistry q)
       = Err (if len body =? 0 then EOF else ErrUnexpectedEOF)) /\
    (forall lenBuf d rest,
       inbound (conn q) = lenBuf ++ d ++ rest -> length lenBuf = 4%nat ->
       Uint32 lenBuf = len d -> len d < 13 ->
       ReceiveMessage globalRegistry q = (Err ErrInvalidMessage, set_inbound rest q)).
Proof.
  intros q. unfold ReceiveMessage. cbn [ReceiveMessage_loop]. unfold receiveRaw.
  change (MaxPayloadSize + HeaderSize + SignatureLengthSize + 1024)
    with (MaxPayloadSize + 13 + 1024).
  split; [|split; [|split]].
  - intros Hshort. rewrite ReadFull_short by lia.
    destruct (len (inbound (conn q)) =? 0); reflexivity.
  - intros lenBuf rest Hin Hl Hbig. rewrite Hin, ReadFull_4 by assumption.
    destruct (Z.gtb_spec (Uint32 lenBuf) (MaxPayloadSize + 13 + 1024)); [reflexivity|lia].
  - intros lenBuf body Hin Hl Hok Hshort. rewrite Hin, ReadFull_4 by assumption.
    destruct (Z.gtb_spec (Uint32 lenBuf) (MaxPayloadSize + 13 + 1024)); [lia|].
    pose proof (len_nonneg body).
    rewrite ReadFull_short by lia.
    destruct (len body =? 0); reflexivity.
  - intros lenBuf d rest Hin Hl Hd Hsmall. rewrite Hin, ReadFull_4 by assumption.
    rewrite Hd.
    destruct (Z.gtb_spec (len d) (MaxPayloadSize + 13 + 1024));
      [unfold MaxPayloadSize in *; lia|].
    rewrite ReadFull_app. unfold UnmarshalMessage.
    change (HeaderSize + SignatureLengthSize) with 13.
    destruct (Z.ltb_spec (len d) 13); [reflexivity|lia].
Qed.

(** X27. A direct send that fails writes nothing: when the payload does
    not marshal, when streaming does not apply and the serialized
    payload is over the bound, or when the signer fails, [SendMessage]
    returns the error and leaves the protocol state, transport
    included, as it was. *)
Theorem failed_direct_send_writes_nothing :
  forall (p : Protocol U) t id pl,
    (forall e, MarshalPayload pl = Err e -> SendMessage t id pl p = (Err e, p)) /\
    (forall bs,
       MarshalPayload pl = Ok bs ->
       Enabled (streamConfig p) = false \/ len bs < Threshold (streamConfig p) ->
       (MaxPayloadSize < len bs ->
          SendMessage t id pl p = (Err ErrPayloadTooLarge, p)) /\
       (forall signer e,
          len bs <= MaxPayloadSize -> signer_of (opts p) = Some signer ->
          Sign signer ([t] ++ PutUint32 id ++ PutUint32 (u32 (len bs)) ++ bs) = Err e ->
          SendMessage t id pl p = (Err e, p))).
Proof.
  intros p t id pl. split.
  - intros e He. unfold SendMessage. rewrite He. reflexivity.
  - intros bs Hp Hns.
    assert (Hd : SendMessage t id pl p = sendDirect t id pl p).
    { unfold SendMessage. rewrite Hp.
      assert (Hc : Enabled (streamConfig p) && (len bs >=? Threshold (streamConfig p))
                   = false).
      { destruct Hns as [->|Hth]; [reflexivity|].
        destruct (Z.geb_spec (len bs) (Threshold (streamConfig p))); [lia|].
        apply andb_false_r. }
      rewrite Hc. reflexivity. }
    rewrite Hd. split.
    + intros Hbig. apply sendDirect_err.
      apply (MarshalMessage_too_large t id pl (opts p) bs Hp Hbig).
    + intros signer e Hlen Hs He. apply sendDirect_err.
      rewrite (MarshalMessage_frame t id pl (opts p) bs Hp Hlen), Hs. cbv zeta.
      rewrite He. reflexivity.
Qed.

End EngineEdges.

(** [message_ids_count_up] on a fresh protocol instance. *)
Lemma message_ids_count_up_witness :
  fst (NextMessageIDs 3 plainSender) = [1; 2; 3].
Proof.
  rewrite (proj1 (message_ids_count_up (U:=Empty_set) 3 plainSender
                    ltac:(vm_compute; split; [discriminate|reflexivity]))).
  reflexivity.
Defined.

(** [receive_framing_errors] on a receiver with two bytes pending. *)
Lemma receive_framing_errors_witness :
  fst (ReceiveMessage NewPayloadRegistry (plainReceiver [0; 0])) = Err ErrUnexpectedEOF.
Proof.
  apply (proj1 (receive_framing_errors (U:=Empty_set) NewPayloadRegistry
                  (plainReceiver [0; 0]))).
  vm_compute. reflexivity.
Defined.

(** [failed_direct_send_writes_nothing] on the 128 MiB payload, with
    streaming off. *)
Lemma failed_direct_send_writes_nothing_witness :
  SendMessage 7 9 (PBytes bigPayload) noStreamSender
  = (Err ErrPayloadTooLarge, noStreamSender).
Proof.
  assert (Hlen : len bigPayload = 134217728).
  { unfold bigPayload, len. rewrite repeat_length, Z2Nat.id; [reflexivity|lia]. }
  apply (proj1 (proj2 (failed_direct_send_writes_nothing (U:=Empty_set)
                         noStreamSender 7 9 (PBytes bigPayload))
                  bigPayload eq_refl (or_introl eq_refl))).
  rewrite Hlen. vm_compute. reflexivity.
Defined.

(** ** The payload types of the tests *)

Lemma WriteString_app buf s : WriteString buf s = buf ++ WriteString [] s.
Proof.
  unfold WriteString. cbv zeta. rewrite WriteVarint_app, <- app_assoc. reflexivity.
Qed.

Lemma WriteBytes_app buf b : WriteBytes buf b = buf ++ WriteBytes [] b.
Proof. unfold WriteBytes. rewrite WriteVarint_app, <- app_assoc. reflexivity. Qed.

Lemma ReadString_WriteString s rest :
  len s <= 2 ^ 20 -> ReadString (WriteString [] s ++ rest) = Ok (s, rest).
Proof.
  intros Hs. assert (H20 : 2 ^ 20 < 2 ^ 64) by reflexivity.
  unfold ReadString, WriteString. cbv zeta. rewrite <- app_assoc.
  rewrite ReadVarint_len by lia. cbn [bind].
  destruct (Z.gtb_spec (len s) (2 ^ 20)); [lia|].
  destruct (Z.eqb_spec (len s) 0) as [E|_]; [|apply ReadFull_app].
  destruct s as [|x s]; [reflexivity|]. rewrite len_cons in E.
  pose proof (len_nonneg s). lia.
Qed.

Lemma ReadBytes_WriteBytes b rest :
  len b <= 2 ^ 30 -> ReadBytes (WriteBytes [] b ++ rest) = Ok (b, rest).
Proof.
  intros Hb. assert (H30 : 2 ^ 30 < 2 ^ 64) by reflexivity.
  unfold ReadBytes, WriteBytes. rewrite <- app_assoc.
  rewrite ReadVarint_len by lia. cbn [bind].
  destruct (Z.gtb_spec (len b) (2 ^ 30)); [lia|]. apply ReadFull_app.
Qed.

Lemma LoginPayload_round_trip p bs :
  test_readable (TLogin p) ->
  LoginPayload_Marshal p = Ok bs -> LoginPayload_Unmarshal bs = Ok p.
Proof.
  intros (Hu & Hp & Hc) E. unfold LoginPayload_Marshal in E. cbv zeta in E.
  injection E as <-.
  rewrite (WriteString_app _ (ClientID p)), (WriteString_app _ (Password p)).
  rewrite <- app_assoc.
  unfold LoginPayload_Unmarshal. cbv zeta.
  rewrite ReadString_WriteString by assumption. cbn [bind].
  rewrite ReadString_WriteString by assumption. cbn [bind].
  rewrite <- (app_nil_r (WriteString [] (ClientID p))).
  rewrite ReadString_WriteString by assumption. cbn [bind].
  destruct p; reflexivity.
Qed.

Lemma ResponsePayload_round_trip p bs :
  test_readable (TResponse p) ->
  ResponsePayload_Marshal p = Ok bs -> ResponsePayload_Unmarshal bs = Ok p.
Proof.
  intros Hm E. unfold ResponsePayload_Marshal in E. cbv zeta in E.
  injection E as <-.
  rewrite (WriteString_app _ (ResponseMessage p)).
  unfold ResponsePayload_Unmarshal, WriteBool, ReadBool. cbv zeta.
  cbn [app ReadByte bind].
  rewrite <- (app_nil_r (WriteString [] (ResponseMessage p))).
  rewrite ReadString_WriteString by assumption. cbn [bind].
  destruct p as [[|] m]; reflexivity.
Qed.

Lemma DataPayload_round_trip p bs :
  test_readable (TData p) ->
  DataPayload_Marshal p = Ok bs -> DataPayload_Unmarshal bs = Ok p.
Proof.
  intros (Hi & Hc & Ht & Hd) E. unfold DataPayload_Marshal in E. cbv zeta in E.
  injection E as <-.
  rewrite (WriteBytes_app _ (DataBytes p)). unfold binary_Write_u32.
  rewrite <- !app_assoc.
  unfold DataPayload_Unmarshal. cbv zeta.
  rewrite ReadString_WriteString by assumption. cbn [bind].
  rewrite binary_Read_u32_app by apply length_PutUint32. cbn [bind].
  rewrite binary_Read_u32_app by apply length_PutUint32. cbn [bind].
  rewrite <- (app_nil_r (WriteBytes [] (DataBytes p))).
  rewrite ReadBytes_WriteBytes by assumption. cbn [bind].
  rewrite !Uint32_PutUint32 by assumption.
  destruct p; reflexivity.
Qed.

Lemma Get_testRegistry u :
  Get testRegistry (test_type u)
  = Factory (match u with
             | TLogin _ => LoginPayload_factory
             | TResponse _ => ResponsePayload_factory
             | TData _ => DataPayload_factory
             end).
Proof.
  unfold testRegistry. cbv zeta. unfold MsgTypeLogin, MsgTypeResponse, MsgTypeData.
  destruct u; cbn [test_type]; unfold MsgTypeLogin, MsgTypeResponse, MsgTypeData.
  - rewrite !Get_Register_other by lia. apply Get_Register_same. lia.
  - rewrite Get_Register_other by lia. apply Get_Register_same. lia.
  - apply Get_Register_same. lia.
Qed.

(** X28. The three payload types that the test file registers under
    types 1, 2 and 3 survive the wire: a login, response or data
    payload whose strings are at most [2^20] bytes, whose data is at
    most [2^30] bytes and whose serialized form is within the 100 MiB
    bound is marshalled into a frame that [UnmarshalMessage] decodes,
    through the registered factory, into the same payload under the
    same type and id.  A string of more than [2^20] bytes marshals but
    is refused on the way back with [ErrInvalidStringLen]. *)
Theorem test_payloads_round_trip :
  (forall (u : TestPayload) id bs,
     is_u32 id -> test_readable u ->
     MarshalPayload (PUser u) = Ok bs -> len bs <= MaxPayloadSize ->
     exists data,
       MarshalMessage (test_type u) id (PUser u) None = Ok data /\
       UnmarshalMessage testRegistry data None
       = (Some (mkMessage (test_type u) id bs []), Ok (PUser u))) /\
  (forall success message id,
     is_u32 id -> 2 ^ 20 < len message -> len message + 10 <= MaxPayloadSize ->
     exists data,
       MarshalMessage MsgTypeResponse id
         (PUser (TResponse (mkResponsePayload success message))) None = Ok data /\
       snd (UnmarshalMessage testRegistry data None) = Err ErrInvalidStringLen).
Proof.
  split.
  - intros u id bs Hid Hread Hp Hlen. exists (fixed_frame (test_type u) id bs []).
    split.
    + rewrite (MarshalMessage_frame (test_type u) id (PUser u) None bs Hp Hlen).
      reflexivity.
    + rewrite UnmarshalMessage_plain by (assumption || reflexivity).
      f_equal. unfold decodePayload. cbn [registry_of strict_of].
      unfold UnmarshalPayloadStrict. rewrite Get_testRegistry.
      cbn [MarshalPayload Marshal TestPayload_Marshaler] in Hp.
      destruct u as [p|p|p].
      * unfold LoginPayload_factory.
        rewrite (LoginPayload_round_trip p bs Hread Hp). reflexivity.
      * unfold ResponsePayload_factory.
        rewrite (ResponsePayload_round_trip p bs Hread Hp). reflexivity.
      * unfold DataPayload_factory.
        rewrite (DataPayload_round_trip p bs Hread Hp). reflexivity.
  - intros success message id Hid Hbig Hfit.
    set (p := mkResponsePayload success message).
    set (bs := WriteString (WriteBool [] success) message).
    assert (Hp : MarshalPayload (PUser (TResponse p)) = Ok bs) by reflexivity.
    assert (Hbs : bs = [if success then 1 else 0] ++ WriteVarint [] (len message) ++ message).
    { unfold bs. rewrite WriteString_app. unfold WriteString, WriteBool. reflexivity. }
    assert (Hmsg : is_u32 (len message)).
    { apply MaxPayloadSize_u32. pose proof (len_nonneg message). lia. }
    assert (Hlen : len bs <= MaxPayloadSize).
    { rewrite Hbs, !len_app. change (len [if success then 1 else 0]) with 1.
      pose proof (len_WriteVarint_u32 (len message) Hmsg). lia. }
    exists (fixed_frame MsgTypeResponse id bs []). split.
    + rewrite (MarshalMessage_frame MsgTypeResponse id _ None bs Hp Hlen). reflexivity.
    + rewrite UnmarshalMessage_plain by (assumption || reflexivity). cbn [snd].
      unfold decodePayload. cbn [registry_of strict_of].
      unfold UnmarshalPayloadStrict.
      pose proof (Get_testRegistry (TResponse p)) as HG. cbn [test_type] in HG.
      rewrite HG.
      unfold ResponsePayload_factory, ResponsePayload_Unmarshal. cbv zeta.
      rewrite Hbs. unfold ReadBool. cbn [app ReadByte bind]. unfold ReadString.
      rewrite ReadVarint_WriteVarint by (apply is_u32_u64; exact Hmsg). cbn [bind].
      destruct (Z.gtb_spec (len message) (2 ^ 20)); [reflexivity|lia].
Qed.

(** [test_payloads_round_trip] on a login payload. *)
Lemma test_payloads_round_trip_witness :
  exists data,
    MarshalMessage 1 9 (PUser (TLogin (mkLoginPayload [97] [98] [99]))) None = Ok data /\
    UnmarshalMessage testRegistry data None
    = (Some (mkMessage 1 9 [1; 97; 1; 98; 1; 99] []),
       Ok (PUser (TLogin (mkLoginPayload [97] [98] [99])))).
Proof.
  apply (proj1 test_payloads_round_trip (TLogin (mkLoginPayload [97] [98] [99])) 9
           [1; 97; 1; 98; 1; 99]).
  - vm_compute. split; [discriminate|reflexivity].
  - vm_compute. repeat split; discriminate.
  - vm_compute. reflexivity.
  - vm_compute. discriminate.
Defined.
